(** * openCursor: the tool execution framework and the streaming
      tool-call orchestration loop

    A shallow embedding of the Go sources of [internal/tools] (tool manager,
    read_file, write_file, delete_file, search_replace, grep_search) and of
    the client's [StreamQueryWithTools], with the properties stated by the
    specification proved, or refuted, against it.

    Conventions.
    - A Go [string] is a [string] (a sequence of bytes); a Go [int] is a [Z].
      Every integer the modelled code computes stays far inside the 64-bit
      range (line numbers and counters bounded by the length of a slice), so
      no wrap-around can occur; see [readRange_in_bounds].
    - A Go [map[string]T] is a [gmap string T]; a slice is a [list].
    - A Go function returning [(T, error)] returns a sum [T + string], the
      right injection carrying the error's message; a lone [error] is an
      [option string], [None] being [nil].
    - Code with effects on the file system takes the file system and returns
      the new one.
    - The [sync.RWMutex] of the manager and the output printed on the
      terminal are not modelled: the development is sequential. *)

From Stdlib Require Import ZArith String Ascii List Lia.
From stdpp Require Import base gmap strings list pretty.

Open Scope string_scope.
Open Scope Z_scope.

Set Warnings "-register-all".

(** ** The dynamically typed values of [map[string]interface{}] *)

(** What a JSON document decodes to, plus the Go integer types that
    [readFileFunction] accepts. A [float64] is represented by the rational it
    denotes, as a numerator and a positive denominator. *)
Inductive value : Type :=
| VNil
| VString (s : string)
| VBool (b : bool)
| VFloat64 (num : Z) (den : positive)
| VInt (n : Z)
| VInt64 (n : Z)
| VArray (l : list value)
| VObject (m : list (string * value)).

Abbreviation Params := (gmap string value).

(** [params[k].(string)]: the value and the [ok] flag of a type assertion;
    the zero value when the key is absent or holds another type. *)
Definition assert_string (params : Params) (k : string) : string * bool :=
  match params !! k with
  | Some (VString s) => (s, true)
  | _ => (EmptyString, false)
  end.

Definition assert_bool (params : Params) (k : string) : bool * bool :=
  match params !! k with
  | Some (VBool b) => (b, true)
  | _ => (false, false)
  end.

(** [int(v)] for a [float64]: truncation toward zero. *)
Definition int_of_float64 (num : Z) (den : positive) : Z := Z.quot num (Z.pos den).

Definition int_param (params : Params) (k : string) : Z :=
  match params !! k with
  | Some (VFloat64 num den) => int_of_float64 num den
  | Some (VInt n) => n
  | Some (VInt64 n) => n
  | _ => 0
  end.

(** The line feed, the carriage return and the double quote, which have no
    escape in a string literal. *)
Definition LF : string := String "010"%char EmptyString.
Definition CR : ascii := "013"%char.
Definition DQUOTE : string := String "034"%char EmptyString.

(** ** The Go standard library, as far as the tools use it *)

(** *** Package [strings] *)

Module strings.

Definition HasPrefix (s prefix : string) : bool := String.prefix prefix s.

Fixpoint Contains (s substr : string) : bool :=
  HasPrefix s substr
  || match s with
     | EmptyString => false
     | String _ s' => Contains s' substr
     end.

Fixpoint drop (n : nat) (s : string) : string :=
  match n, s with
  | O, _ => s
  | S n', String _ s' => drop n' s'
  | S _, EmptyString => EmptyString
  end.

Fixpoint take (n : nat) (s : string) : string :=
  match n, s with
  | O, _ => EmptyString
  | S n', String c s' => String c (take n' s')
  | S _, EmptyString => EmptyString
  end.

(** [Index]: the byte offset of the first occurrence, [-1] without one. *)
Fixpoint Index (s substr : string) : Z :=
  if HasPrefix s substr then 0
  else match s with
       | EmptyString => -1
       | String _ s' => let i := Index s' substr in if i <? 0 then -1 else i + 1
       end.

(** [Replace1 s old new] is [strings.Replace(s, old, new, 1)]. *)
Fixpoint Replace1 (s old new : string) : string :=
  if HasPrefix s old then new +:+ drop (String.length old) s
  else match s with
       | EmptyString => EmptyString
       | String c s' => String c (Replace1 s' old new)
       end.

Definition lower (c : ascii) : ascii :=
  let n := N_of_ascii c in
  if ((65 <=? n) && (n <=? 90))%N then ascii_of_N (n + 32) else c.

(** [ToLower] on the ASCII letters; other bytes are kept (the source only
    compares the result with lower-case ASCII constants). *)
Fixpoint ToLower (s : string) : string :=
  match s with
  | EmptyString => EmptyString
  | String c s' => String (lower c) (ToLower s')
  end.

Fixpoint Join (elems : list string) (sep : string) : string :=
  match elems with
  | [] => EmptyString
  | [e] => e
  | e :: rest => e +:+ sep +:+ Join rest sep
  end.

End strings.

(** *** Package [path/filepath], the functions that do not depend on the host
    (with [/] as the separator) *)

Module filepath.

Definition Separator : ascii := "/"%char.

(** The loop of [Ext], from the last byte backwards: [rest] holds the bytes
    still to visit, last first, and [suffix] the bytes already passed. *)
Fixpoint ext_scan (rest : list ascii) (suffix : string) : string :=
  match rest with
  | [] => EmptyString
  | c :: more =>
      if Ascii.eqb c Separator then EmptyString
      else if Ascii.eqb c "."%char then String c suffix
      else ext_scan more (String c suffix)
  end.

Definition Ext (path : string) : string :=
  ext_scan (rev (list_ascii_of_string path)) EmptyString.

Fixpoint strip_separators (rest : list ascii) : list ascii :=
  match rest with
  | c :: more => if Ascii.eqb c Separator then strip_separators more else rest
  | [] => []
  end.

Fixpoint last_element (rest : list ascii) (suffix : string) : string :=
  match rest with
  | [] => suffix
  | c :: more =>
      if Ascii.eqb c Separator then suffix else last_element more (String c suffix)
  end.

Definition Base (path : string) : string :=
  if String.eqb path EmptyString then "."
  else
    let elem := last_element (strip_separators (rev (list_ascii_of_string path))) EmptyString in
    if String.eqb elem EmptyString then "/" else elem.

End filepath.

(** *** Package [bufio]: a [Scanner] with the default [ScanLines] split *)

(** An open file, as the reads see it: the bytes they deliver and the error,
    if any, that ends them instead of the end of file. *)
Record File : Type := {
  contents : string;
  read_error : option string
}.

Module bufio.

Definition MaxScanTokenSize : Z := 65536.
Definition ErrTooLong : string := "bufio.Scanner: token too long".

(** The text cut at every line feed; what follows the last line feed is a
    line of its own unless it is empty. [cur] is the line being read, last
    byte first. *)
Fixpoint raw_lines (s : string) (cur : list ascii) : list (list ascii) :=
  match s with
  | EmptyString => match cur with [] => [] | _ => [cur] end
  | String c s' =>
      if Ascii.eqb c "010"%char then cur :: raw_lines s' []
      else raw_lines s' (c :: cur)
  end.

Definition dropCR (cur : list ascii) : string :=
  match cur with
  | c :: more => if Ascii.eqb c CR then string_of_list_ascii (rev more)
                 else string_of_list_ascii (rev cur)
  | [] => EmptyString
  end.

(** The tokens delivered before the scanner stops, and [scanner.Err()] once
    it has stopped: a line that does not fit the buffer stops it. *)
Fixpoint tokens (raw : list (list ascii)) : list string * option string :=
  match raw with
  | [] => ([], None)
  | cur :: rest =>
      if MaxScanTokenSize <=? Z.of_nat (length cur) then ([], Some ErrTooLong)
      else let '(ts, err) := tokens rest in (dropCR cur :: ts, err)
  end.

Definition Scan (file : File) : list string * option string :=
  let '(ts, err) := tokens (raw_lines (contents file) []) in
  (ts, match err with Some e => Some e | None => read_error file end).

End bufio.

(** *** The host: file system, process and the libraries left abstract *)

Record FileInfo : Type := {
  IsDir : bool;
  Size : Z
}.

(** The outcome of [os.Stat]: [StatNotExist] is an error for which
    [os.IsNotExist] holds. *)
Inductive StatResult : Type :=
| StatOk (info : FileInfo)
| StatNotExist (err : string)
| StatError (err : string).

(** What the tools ask of the machine they run on. [World] is the state of
    the machine. [filepath_Walk] lists the calls that [filepath.Walk] makes to
    its callback, in order, as long as the callback returns [nil]; the
    callbacks of this program never modify the file system. [regexp_Compile]
    gives the matcher [MatchString] of the compiled expression. [os_Create]
    truncates or creates the file, and [file_Write] is what the buffered
    writes to it leave there (the source drops their errors). *)
Class Host (World : Type) : Type := {
  filepath_IsAbs : string -> bool;
  filepath_Join : string -> string -> string;
  filepath_Dir : string -> string;
  filepath_Abs : string -> World -> string + string;
  filepath_Match : string -> string -> bool;
  filepath_Walk : string -> World -> list (string * (FileInfo + string));
  regexp_Compile : string -> (string -> bool) + string;
  os_Stat : string -> World -> StatResult;
  os_Open : string -> World -> File + string;
  os_MkdirAll : string -> World -> option string * World;
  os_WriteFile : string -> string -> World -> option string * World;
  os_Create : string -> World -> option string * World;
  file_Write : string -> string -> World -> World;
  os_Remove : string -> World -> option string * World
}.

(** ** Tool manager ([types.go], [manager.go]) *)

Section Manager.
(** The manager is generic in what a tool acts on and in what it returns
    ([interface{}] in the source). *)
Context {World Payload : Type}.

Definition ToolFunction : Type :=
  Params -> World -> (Payload + string) * World.

Record ToolSchema : Type := {
  Name : string;
  Description : string;
  InputSchema : value
}.

Record Tool : Type := {
  Schema : ToolSchema;
  Function : ToolFunction
}.

(** [Result] is [None] for the [nil] interface value. *)
Record ToolResult : Type := {
  result_Name : string;
  Result : option Payload;
  Error : string;
  Success : bool
}.

Record DefaultToolManager : Type := {
  tools : gmap string Tool;
  workDir : string
}.

Definition NewDefaultToolManager (getwd : string) : DefaultToolManager :=
  {| tools := ∅; workDir := getwd |}.

Definition SetWorkDirectory (dir : string) (tm : DefaultToolManager)
  : DefaultToolManager :=
  {| tools := tools tm; workDir := dir |}.

Definition GetWorkDirectory (tm : DefaultToolManager) : string := workDir tm.

(** [RegisterTool]: the returned error and the manager afterwards. *)
Definition RegisterTool (name : string) (tool : Tool) (tm : DefaultToolManager)
  : option string * DefaultToolManager :=
  match tools tm !! name with
  | Some _ => (Some ("tool '" +:+ name +:+ "' already registered"), tm)
  | None => (None, {| tools := <[name := tool]> (tools tm); workDir := workDir tm |})
  end.

(** [GetTool]: [Some tool] stands for [(tool, true)], [None] for the zero
    tool with [false]. *)
Definition GetTool (name : string) (tm : DefaultToolManager) : option Tool :=
  tools tm !! name.

(** [ListTools]: the schemas in the iteration order of the map, which the
    callers must not rely on. *)
Definition ListTools (tm : DefaultToolManager) : list ToolSchema :=
  (λ kv, Schema kv.2) <$> map_to_list (tools tm).

(** [ExecuteTool]. [params] is [None] for a [nil] map. The result is the
    [*ToolResult], the program-level [error], the manager and the world after
    the call. *)
Definition ExecuteTool (name : string) (params : option Params)
    (tm : DefaultToolManager) (w : World)
  : ToolResult * option string * DefaultToolManager * World :=
  match tools tm !! name with
  | None =>
      ({| result_Name := name; Result := None;
          Error := "tool '" +:+ name +:+ "' not found"; Success := false |},
       None, tm, w)
  | Some tool =>
      let params := match params with None => ∅ | Some p => p end in
      let params := <["__work_dir__" := VString (workDir tm)]> params in
      match Function tool params w with
      | (inr err, w') =>
          ({| result_Name := name; Result := None; Error := err; Success := false |},
           None, tm, w')
      | (inl result, w') =>
          ({| result_Name := name; Result := Some result; Error := EmptyString;
              Success := true |},
           None, tm, w')
      end
  end.

(** A run of registration attempts, in order, with the error of each. *)
Fixpoint register_all (calls : list (string * Tool)) (tm : DefaultToolManager)
  : list (option string) * DefaultToolManager :=
  match calls with
  | [] => ([], tm)
  | (name, tool) :: rest =>
      let '(err, tm1) := RegisterTool name tool tm in
      let '(errs, tm2) := register_all rest tm1 in
      (err :: errs, tm2)
  end.

(** The first tool offered under [name] in a run of attempts. *)
Fixpoint first_offer (name : string) (calls : list (string * Tool)) : option Tool :=
  match calls with
  | [] => None
  | (n, tool) :: rest => if decide (n = name) then Some tool else first_offer name rest
  end.

End Manager.

Arguments ToolFunction : clear implicits.
Arguments ToolSchema : clear implicits.
Arguments Tool : clear implicits.
Arguments ToolResult : clear implicits.
Arguments DefaultToolManager : clear implicits.

(** ** The results of the tools *)

Module ReadFileResult.
Record t : Type := {
  Content : string;
  TotalLines : Z;
  StartLine : Z;
  EndLine : Z;
  FilePath : string;
  LinesNotShown : string;
  ReadEntireFile : bool
}.
End ReadFileResult.

Module WriteFileResult.
Record t : Type := {
  TargetFile : string;
  Written : bool;
  Created : bool;
  BytesWritten : Z;
  Message : string;
  FileExists : bool
}.
End WriteFileResult.

Module DeleteFileResult.
Record t : Type := {
  TargetFile : string;
  Deleted : bool;
  Message : string;
  FileInfo : string
}.
End DeleteFileResult.

Module SearchReplaceResult.
Record t : Type := {
  FilePath : string;
  OldString : string;
  NewString : string;
  Replaced : bool;
  LineNumber : Z;
  OriginalLine : string;
  NewLine : string;
  Message : string
}.
End SearchReplaceResult.

Module GrepMatch.
Record t : Type := {
  File : string;
  Line : Z;
  Column : Z;
  Content : string;
  Match : string
}.
End GrepMatch.

Module GrepSearchResult.
Record t : Type := {
  Query : string;
  Matches : list GrepMatch.t;
  TotalMatches : Z;
  MatchedFiles : Z;
  CaseSensitive : bool;
  IncludePattern : string;
  ExcludePattern : string
}.
End GrepSearchResult.

(** What a tool function returns in its [interface{}]: a pointer to one of
    the result records. *)
Inductive Payload : Type :=
| PReadFile (r : ReadFileResult.t)
| PWriteFile (r : WriteFileResult.t)
| PDeleteFile (r : DeleteFileResult.t)
| PSearchReplace (r : SearchReplaceResult.t)
| PGrepSearch (r : GrepSearchResult.t).

(** ** The tools *)

Section Tools.
Context {World : Type} `{!Host World}.

(** The resolution of the target path against [__work_dir__], which every
    tool function repeats inline. *)
Definition resolve (targetFile workDir : string) : string :=
  if filepath_IsAbs targetFile then targetFile
  else if negb (String.eqb workDir EmptyString) then filepath_Join workDir targetFile
  else targetFile.

(** *** [read_file.go] *)

(** The branch of [readFileFunction] that reads a range of lines (the [else]
    of [if shouldReadEntireFile]). *)
Definition readRange (filePath : string) (lines : list string)
    (startLine endLine : Z) : ReadFileResult.t + string :=
  let totalLines := Z.of_nat (length lines) in
  let startLineInt := startLine in
  let endLineInt := endLine in
  let startLineInt := if startLineInt <? 1 then 1 else startLineInt in
  if endLineInt <? startLineInt then
    inr ("end_line (" +:+ pretty endLineInt +:+ ") must be >= start_line ("
         +:+ pretty startLineInt +:+ ")")
  else if totalLines <? startLineInt then
    inr ("start_line (" +:+ pretty startLineInt +:+ ") exceeds total lines ("
         +:+ pretty totalLines +:+ ")")
  else
    let endLineInt := if totalLines <? endLineInt then totalLines else endLineInt in
    let lineCount := endLineInt - startLineInt + 1 in
    if 250 <? lineCount then
      inr ("cannot read more than 250 lines at once (requested: "
           +:+ pretty lineCount +:+ ")")
    else if (lineCount <? 200) && (200 <=? totalLines) && (endLineInt <? totalLines) then
      let suggestedEnd := startLineInt + 199 in
      let suggestedEnd := if totalLines <? suggestedEnd then totalLines else suggestedEnd in
      inr ("minimum 200 lines required when file has >= 200 lines. Consider reading lines "
           +:+ pretty startLineInt +:+ "-" +:+ pretty suggestedEnd)
    else
      let startIdx := startLineInt - 1 in
      let endIdx := endLineInt - 1 in
      let selectedLines :=
        List.firstn (Z.to_nat (endIdx + 1 - startIdx)) (List.skipn (Z.to_nat startIdx) lines) in
      let notShownParts :=
        ((if 1 <? startLineInt
          then ["Lines 1-" +:+ pretty (startLineInt - 1) +:+ " not shown"] else [])
         ++ (if endLineInt <? totalLines
             then ["Lines " +:+ pretty (endLineInt + 1) +:+ "-" +:+ pretty totalLines
                   +:+ " not shown"] else []))%list in
      inl {| ReadFileResult.FilePath := filePath;
             ReadFileResult.TotalLines := totalLines;
             ReadFileResult.ReadEntireFile := false;
             ReadFileResult.Content := strings.Join selectedLines LF;
             ReadFileResult.StartLine := startLineInt;
             ReadFileResult.EndLine := endLineInt;
             ReadFileResult.LinesNotShown := strings.Join notShownParts "; " |}.

Definition readFileFunction (params : Params) (w : World) : (Payload + string) * World :=
  let '(targetFile, ok) := assert_string params "target_file" in
  if negb ok || String.eqb targetFile EmptyString then (inr "target_file is required", w)
  else
    let shouldReadEntireFile := (assert_bool params "should_read_entire_file").1 in
    let startLine := int_param params "start_line_one_indexed" in
    let endLine := int_param params "end_line_one_indexed_inclusive" in
    let workDir := (assert_string params "__work_dir__").1 in
    let filePath := resolve targetFile workDir in
    match os_Stat filePath w with
    | StatNotExist _ => (inr ("file not found: " +:+ filePath), w)
    | _ =>
        match os_Open filePath w with
        | inr err => (inr ("failed to open file: " +:+ err), w)
        | inl file =>
            match bufio.Scan file with
            | (_, Some err) => (inr ("failed to read file: " +:+ err), w)
            | (lines, None) =>
                if shouldReadEntireFile then
                  (inl (PReadFile
                     {| ReadFileResult.FilePath := filePath;
                        ReadFileResult.TotalLines := Z.of_nat (length lines);
                        ReadFileResult.ReadEntireFile := true;
                        ReadFileResult.Content := strings.Join lines LF;
                        ReadFileResult.StartLine := 1;
                        ReadFileResult.EndLine := Z.of_nat (length lines);
                        ReadFileResult.LinesNotShown := EmptyString |}), w)
                else
                  match readRange filePath lines startLine endLine with
                  | inl result => (inl (PReadFile result), w)
                  | inr err => (inr err, w)
                  end
            end
        end
    end.

(** *** [write_file.go] *)

Definition write_dangerousPaths : list string :=
  ["/etc"; "/bin"; "/sbin"; "/usr/bin"; "/usr/sbin"; "/boot"; "/sys"; "/proc"; "/dev";
   "C:\Windows"; "C:\Program Files"; "C:\Program Files (x86)"; "C:\System32"].

Definition dangerousExtensions : list string :=
  [".exe"; ".dll"; ".sys"; ".bat"; ".cmd"; ".com"; ".scr";
   ".pif"; ".application"; ".gadget"; ".msi"; ".msp"; ".msc"].

Definition write_systemFiles : list string :=
  ["boot.ini"; "ntldr"; "bootmgr"; "pagefile.sys"; "hiberfil.sys";
   "autoexec.bat"; "config.sys"].

Definition dangerousChars : list string :=
  ["<"; ">"; ":"; DQUOTE; "|"; "?"; "*"].

(** [performWriteSecurityChecks]: [None] when the path passes. Each [for]
    loop returns at the first element that matches, which is what [find]
    yields. *)
Definition performWriteSecurityChecks (filePath : string) (w : World) : option string :=
  match filepath_Abs filePath w with
  | inr err => Some ("failed to get absolute path: " +:+ err)
  | inl absPath =>
      match find (strings.HasPrefix absPath) write_dangerousPaths with
      | Some dangerousPath =>
          Some ("cannot write files to system directory: " +:+ dangerousPath)
      | None =>
          let ext := strings.ToLower (filepath.Ext filePath) in
          match find (String.eqb ext) dangerousExtensions with
          | Some _ => Some ("cannot create potentially dangerous file type: " +:+ ext)
          | None =>
              let fileName := filepath.Base filePath in
              match find (String.eqb (strings.ToLower fileName)) write_systemFiles with
              | Some systemFile => Some ("cannot create system file: " +:+ systemFile)
              | None =>
                  match find (strings.Contains fileName) dangerousChars with
                  | Some char => Some ("filename contains dangerous character: " +:+ char)
                  | None => None
                  end
              end
          end
      end
  end.

Definition writeFileFunction (params : Params) (w : World) : (Payload + string) * World :=
  let '(targetFile, ok) := assert_string params "target_file" in
  if negb ok || String.eqb targetFile EmptyString then (inr "target_file is required", w)
  else
    let '(content, ok) := assert_string params "content" in
    if negb ok then (inr "content is required", w)
    else
      let overwrite := (assert_bool params "overwrite").1 in
      let workDir := (assert_string params "__work_dir__").1 in
      let filePath := resolve targetFile workDir in
      let fileExists := match os_Stat filePath w with StatOk _ => true | _ => false end in
      let result (written created : bool) (bytes : Z) (message : string) :=
        PWriteFile {| WriteFileResult.TargetFile := filePath;
                      WriteFileResult.Written := written;
                      WriteFileResult.Created := created;
                      WriteFileResult.BytesWritten := bytes;
                      WriteFileResult.Message := message;
                      WriteFileResult.FileExists := fileExists |} in
      if fileExists && negb overwrite then
        (inl (result false false 0 "File exists and overwrite is not enabled"), w)
      else
        match performWriteSecurityChecks filePath w with
        | Some err => (inl (result false false 0 ("Security check failed: " +:+ err)), w)
        | None =>
            let dir := filepath_Dir filePath in
            match os_MkdirAll dir w with
            | (Some err, w1) =>
                (inl (result false false 0 ("Failed to create directory: " +:+ err)), w1)
            | (None, w1) =>
                match os_WriteFile filePath content w1 with
                | (Some err, w2) =>
                    (inl (result false false 0 ("Failed to write file: " +:+ err)), w2)
                | (None, w2) =>
                    let bytes := Z.of_nat (String.length content) in
                    if negb fileExists then
                      (inl (result true true bytes
                              ("File created successfully with " +:+ pretty bytes +:+ " bytes")),
                       w2)
                    else
                      (inl (result true false bytes
                              ("File overwritten successfully with " +:+ pretty bytes
                               +:+ " bytes")),
                       w2)
                end
            end
        end.

(** *** [delete_file.go] *)

Definition delete_dangerousPaths : list string :=
  ["/etc"; "/bin"; "/sbin"; "/usr/bin"; "/usr/sbin"; "/boot"; "/sys"; "/proc";
   "C:\Windows"; "C:\Program Files"; "C:\Program Files (x86)"].

Definition delete_systemFiles : list string :=
  ["boot.ini"; "ntldr"; "bootmgr"; "pagefile.sys"; "hiberfil.sys";
   ".DS_Store"; "Thumbs.db"; "desktop.ini"].

(** [performSecurityChecks] of [delete_file.go]; its list of extensions is
    the one of [write_file.go]. *)
Definition performSecurityChecks (filePath : string) (w : World) : option string :=
  match filepath_Abs filePath w with
  | inr err => Some ("failed to get absolute path: " +:+ err)
  | inl absPath =>
      match find (strings.HasPrefix absPath) delete_dangerousPaths with
      | Some dangerousPath =>
          Some ("cannot delete files in system directory: " +:+ dangerousPath)
      | None =>
          let ext := filepath.Ext filePath in
          match find (String.eqb ext) dangerousExtensions with
          | Some _ => Some ("cannot delete potentially dangerous file type: " +:+ ext)
          | None =>
              let fileName := filepath.Base filePath in
              match find (String.eqb fileName) delete_systemFiles with
              | Some systemFile => Some ("cannot delete system file: " +:+ systemFile)
              | None => None
              end
          end
      end
  end.

Definition deleteFileFunction (params : Params) (w : World) : (Payload + string) * World :=
  let '(targetFile, ok) := assert_string params "target_file" in
  if negb ok || String.eqb targetFile EmptyString then (inr "target_file is required", w)
  else
    let workDir := (assert_string params "__work_dir__").1 in
    let filePath := resolve targetFile workDir in
    let result (deleted : bool) (message fileInfo : string) :=
      PDeleteFile {| DeleteFileResult.TargetFile := filePath;
                     DeleteFileResult.Deleted := deleted;
                     DeleteFileResult.Message := message;
                     DeleteFileResult.FileInfo := fileInfo |} in
    match os_Stat filePath w with
    | StatNotExist _ => (inl (result false "File does not exist" EmptyString), w)
    | StatError err =>
        (inl (result false ("Failed to access file: " +:+ err) EmptyString), w)
    | StatOk info =>
        if IsDir info then
          (inl (result false "Cannot delete directories with this tool"
                  ("Directory with " +:+ pretty (Size info) +:+ " bytes")), w)
        else
          let fileInfo := "File with " +:+ pretty (Size info) +:+ " bytes" in
          match performSecurityChecks filePath w with
          | Some err => (inl (result false ("Security check failed: " +:+ err) fileInfo), w)
          | None =>
              match os_Remove filePath w with
              | (Some err, w1) =>
                  (inl (result false ("Failed to delete file: " +:+ err) fileInfo), w1)
              | (None, w1) => (inl (result true "File successfully deleted" fileInfo), w1)
              end
          end
    end.

(** *** [search_replace.go] *)

(** [writeLinesToFile]. The bytes handed to the buffered writer: a line feed
    before every line but the first, and one more at the end when there is a
    line at all. *)
Fixpoint written_lines (i : Z) (lines : list string) : string :=
  match lines with
  | [] => EmptyString
  | line :: rest =>
      (if 0 <? i then LF else EmptyString) +:+ line +:+ written_lines (i + 1) rest
  end.

Definition written_bytes (lines : list string) : string :=
  written_lines 0 lines +:+ (if 0 <? Z.of_nat (length lines) then LF else EmptyString).

Definition writeLinesToFile (filePath : string) (lines : list string) (w : World)
  : option string * World :=
  match os_Create filePath w with
  | (Some err, w1) => (Some err, w1)
  | (None, w1) => (None, file_Write filePath (written_bytes lines) w1)
  end.

(** The state of the scanning loop of [searchReplaceFunction]. *)
Record scan_state : Type := {
  lineNumber : Z;
  lines : list string;
  foundLine : Z;
  originalLine : string
}.

(** One turn of the loop [for scanner.Scan()], on the line just read. *)
Definition scan_step (oldString : string) (st : scan_state) (line : string) : scan_state :=
  let lineNumber := lineNumber st + 1 in
  let lines := (lines st ++ [line])%list in
  if (foundLine st =? -1) && strings.Contains line oldString then
    {| lineNumber := lineNumber; lines := lines;
       foundLine := lineNumber; originalLine := line |}
  else
    {| lineNumber := lineNumber; lines := lines;
       foundLine := foundLine st; originalLine := originalLine st |}.

Definition scan_all (oldString : string) (tokens : list string) : scan_state :=
  fold_left (scan_step oldString) tokens
    {| lineNumber := 0; lines := []; foundLine := -1; originalLine := EmptyString |}.

(** [searchReplaceFunction]. The assignment to [lines[foundLine-1]] is
    written with a lookup; [scan_all_found] shows that the index is always
    in range, so the last branch, a run-time panic in Go, is never taken. *)
Definition searchReplaceFunction (params : Params) (w : World)
  : (Payload + string) * World :=
  let '(filePath, ok) := assert_string params "file_path" in
  if negb ok || String.eqb filePath EmptyString then (inr "file_path is required", w)
  else
    let '(oldString, ok) := assert_string params "old_string" in
    if negb ok || String.eqb oldString EmptyString then (inr "old_string is required", w)
    else
      let '(newString, ok) := assert_string params "new_string" in
      if negb ok then (inr "new_string is required", w)
      else
        let workDir := (assert_string params "__work_dir__").1 in
        let targetPath := resolve filePath workDir in
        let result (replaced : bool) (line : Z) (original new message : string) :=
          PSearchReplace {| SearchReplaceResult.FilePath := targetPath;
                            SearchReplaceResult.OldString := oldString;
                            SearchReplaceResult.NewString := newString;
                            SearchReplaceResult.Replaced := replaced;
                            SearchReplaceResult.LineNumber := line;
                            SearchReplaceResult.OriginalLine := original;
                            SearchReplaceResult.NewLine := new;
                            SearchReplaceResult.Message := message |} in
        match os_Stat targetPath w with
        | StatNotExist _ =>
            (inl (result false 0 EmptyString EmptyString ("File not found: " +:+ targetPath)), w)
        | _ =>
            match os_Open targetPath w with
            | inr err => (inr ("failed to open file: " +:+ err), w)
            | inl file =>
                match bufio.Scan file with
                | (tokens, scanErr) =>
                    let st := scan_all oldString tokens in
                    match scanErr with
                    | Some err => (inr ("failed to read file: " +:+ err), w)
                    | None =>
                        if foundLine st =? -1 then
                          (inl (result false 0 EmptyString EmptyString
                                  "Old string not found in file"), w)
                        else
                          let i := Z.to_nat (foundLine st - 1) in
                          match lines st !! i with
                          | Some line =>
                              let newLine := strings.Replace1 line oldString newString in
                              let lines := <[i := newLine]> (lines st) in
                              match writeLinesToFile targetPath lines w with
                              | (Some err, w1) => (inr ("failed to write file: " +:+ err), w1)
                              | (None, w1) =>
                                  (inl (result true (foundLine st) (originalLine st) newLine
                                          ("Successfully replaced text on line "
                                           +:+ pretty (foundLine st))), w1)
                              end
                          | None => (inr "panic: runtime error: index out of range", w)
                          end
                    end
                end
            end
        end.

(** *** [grep_search.go], the scanner used when ripgrep is not installed *)

Definition substring (from len : Z) (s : string) : string :=
  strings.take (Z.to_nat len) (strings.drop (Z.to_nat from) s).

Definition extractMatch (content query : string) (caseSensitive : bool) : string :=
  let content := if negb caseSensitive then strings.ToLower content else content in
  let query := if negb caseSensitive then strings.ToLower query else query in
  let idx := strings.Index content query in
  if 0 <=? idx then substring idx (Z.of_nat (String.length query)) content
  else query.

Definition append_match (result : GrepSearchResult.t) (m : GrepMatch.t)
  : GrepSearchResult.t :=
  {| GrepSearchResult.Query := GrepSearchResult.Query result;
     GrepSearchResult.Matches := (GrepSearchResult.Matches result ++ [m])%list;
     GrepSearchResult.TotalMatches := GrepSearchResult.TotalMatches result;
     GrepSearchResult.MatchedFiles := GrepSearchResult.MatchedFiles result;
     GrepSearchResult.CaseSensitive := GrepSearchResult.CaseSensitive result;
     GrepSearchResult.IncludePattern := GrepSearchResult.IncludePattern result;
     GrepSearchResult.ExcludePattern := GrepSearchResult.ExcludePattern result |}.

(** The loop [for scanner.Scan() && matchCount < 50] of [searchInFile] on the
    lines still to come; [scanErr] is the error the scanner ends with after
    them. [Scan] is called before the count is tested, so the loop leaves with
    [scanner.Err()] still [nil] when a line was read and the count is
    reached. *)
Fixpoint search_lines (filePath : string) (regex : string -> bool) (caseSensitive : bool)
    (tokens : list string) (scanErr : option string) (lineNumber matchCount : Z)
    (result : GrepSearchResult.t) : option string * GrepSearchResult.t :=
  match tokens with
  | [] => (scanErr, result)
  | line :: rest =>
      if matchCount <? 50 then
        let lineNumber := lineNumber + 1 in
        if regex line then
          let m := {| GrepMatch.File := filePath;
                      GrepMatch.Line := lineNumber;
                      GrepMatch.Column := 0;
                      GrepMatch.Content := line;
                      GrepMatch.Match :=
                        extractMatch line (GrepSearchResult.Query result) caseSensitive |} in
          search_lines filePath regex caseSensitive rest scanErr lineNumber (matchCount + 1)
            (append_match result m)
        else
          search_lines filePath regex caseSensitive rest scanErr lineNumber matchCount result
      else (None, result)
  end.

(** [searchInFile]: the returned error and [*result] afterwards. *)
Definition searchInFile (filePath : string) (regex : string -> bool) (caseSensitive : bool)
    (result : GrepSearchResult.t) (w : World) : option string * GrepSearchResult.t :=
  match os_Open filePath w with
  | inr _ => (None, result)
  | inl file =>
      let '(tokens, scanErr) := bufio.Scan file in
      search_lines filePath regex caseSensitive tokens scanErr 0 0 result
  end.

(** The callback that [fallbackGrepSearch] hands to [filepath.Walk], on one
    visited path. *)
Definition walk_callback (regex : string -> bool) (caseSensitive : bool)
    (includePattern excludePattern : string) (w : World)
    (path : string) (info : FileInfo + string) (result : GrepSearchResult.t)
  : option string * GrepSearchResult.t :=
  match info with
  | inr _ => (None, result)
  | inl info =>
      if IsDir info then (None, result)
      else if negb (String.eqb includePattern EmptyString)
              && negb (filepath_Match includePattern (filepath.Base path))
      then (None, result)
      else if negb (String.eqb excludePattern EmptyString)
              && filepath_Match excludePattern (filepath.Base path)
      then (None, result)
      else searchInFile path regex caseSensitive result w
  end.

(** [filepath.Walk] with that callback: the walk stops at the first error
    the callback returns. *)
Fixpoint walk (regex : string -> bool) (caseSensitive : bool)
    (includePattern excludePattern : string) (w : World)
    (visits : list (string * (FileInfo + string))) (result : GrepSearchResult.t)
  : option string * GrepSearchResult.t :=
  match visits with
  | [] => (None, result)
  | (path, info) :: rest =>
      match walk_callback regex caseSensitive includePattern excludePattern w
              path info result with
      | (Some err, result) => (Some err, result)
      | (None, result) =>
          walk regex caseSensitive includePattern excludePattern w rest result
      end
  end.

Definition fallbackGrepSearch (query : string) (caseSensitive : bool)
    (includePattern excludePattern workDir : string) (w : World)
  : GrepSearchResult.t + string :=
  let result := {| GrepSearchResult.Query := query;
                   GrepSearchResult.CaseSensitive := caseSensitive;
                   GrepSearchResult.IncludePattern := includePattern;
                   GrepSearchResult.ExcludePattern := excludePattern;
                   GrepSearchResult.Matches := [];
                   GrepSearchResult.TotalMatches := 0;
                   GrepSearchResult.MatchedFiles := 0 |} in
  let regexPattern := if negb caseSensitive then "(?i)" +:+ query else query in
  match regexp_Compile regexPattern with
  | inr err => inr ("invalid regex pattern: " +:+ err)
  | inl regex =>
      let searchPath := if negb (String.eqb workDir EmptyString) then workDir else "." in
      match walk regex caseSensitive includePattern excludePattern w
              (filepath_Walk searchPath w) result with
      | (Some err, _) => inr err
      | (None, result) =>
          let fileSet : gset string :=
            list_to_set (GrepMatch.File <$> GrepSearchResult.Matches result) in
          inl {| GrepSearchResult.Query := GrepSearchResult.Query result;
                 GrepSearchResult.CaseSensitive := GrepSearchResult.CaseSensitive result;
                 GrepSearchResult.IncludePattern := GrepSearchResult.IncludePattern result;
                 GrepSearchResult.ExcludePattern := GrepSearchResult.ExcludePattern result;
                 GrepSearchResult.Matches := GrepSearchResult.Matches result;
                 GrepSearchResult.MatchedFiles := Z.of_nat (size fileSet);
                 GrepSearchResult.TotalMatches :=
                   Z.of_nat (length (GrepSearchResult.Matches result)) |}
      end
  end.

(** *** The constructors of the tools (descriptions shortened, the JSON
    schema of the input left out) *)

Definition schema_of (name description : string) : ToolSchema :=
  {| Name := name; Description := description; InputSchema := VNil |}.

Definition NewReadFileTool : Tool World Payload :=
  {| Schema := schema_of "read_file" "Read the contents of a file.";
     Function := readFileFunction |}.

Definition NewWriteFileTool : Tool World Payload :=
  {| Schema := schema_of "write_file" "Write content to a file.";
     Function := writeFileFunction |}.

Definition NewDeleteFileTool : Tool World Payload :=
  {| Schema := schema_of "delete_file" "Deletes a file at the specified path.";
     Function := deleteFileFunction |}.

Definition NewSearchReplaceTool : Tool World Payload :=
  {| Schema := schema_of "search_replace" "Replace ONE occurrence of old_string.";
     Function := searchReplaceFunction |}.

End Tools.

(** ** The client ([client.go]) *)

(** *** The types of the chat-completion library that the loop touches *)

Module openai.

Record FunctionCall : Type := {
  Name : string;
  Arguments : string
}.

(** A tool call, whole or as a fragment of a streamed delta; [Index] is
    [None] for a [nil] pointer. *)
Record ToolCall : Type := {
  Index : option Z;
  ID : string;
  Type_ : string;
  Function : FunctionCall
}.

Record ChatCompletionMessage : Type := {
  Role : string;
  Content : string;
  ToolCalls : list ToolCall;
  ToolCallID : string
}.

Record ChatCompletionStreamChoiceDelta : Type := {
  delta_Content : string;
  delta_ToolCalls : list ToolCall
}.

(** A stream response, reduced to the deltas of its choices. *)
Record ChatCompletionStreamResponse : Type := {
  Choices : list ChatCompletionStreamChoiceDelta
}.

Record FunctionDefinition : Type := {
  fd_Name : string;
  fd_Description : string;
  fd_Parameters : value
}.

Record Tool : Type := {
  tool_Type : string;
  tool_Function : FunctionDefinition
}.

Record ChatCompletionRequest : Type := {
  Model : string;
  Messages : list ChatCompletionMessage;
  Stream : bool;
  Tools : list Tool
}.

(** A stream, as [Recv] presents it: the responses it returns, then the
    message of the error that follows them, ["EOF"] at the regular end.
    Streams are finite. *)
Record ChatCompletionStream : Type := {
  responses : list ChatCompletionStreamResponse;
  final_error : string
}.

Definition empty_call : ToolCall :=
  {| Index := None; ID := EmptyString; Type_ := EmptyString;
     Function := {| Name := EmptyString; Arguments := EmptyString |} |}.

End openai.

(** What the client asks of the outside: the model provider and the JSON
    codec. The provider may answer differently each time, so the call takes
    and returns the world. [fmt_v] is the rendering by the verb [%v]. *)
Class Transport (World : Type) : Type := {
  CreateChatCompletionStream :
    openai.ChatCompletionRequest -> World -> (openai.ChatCompletionStream + string) * World;
  json_Unmarshal : string -> option Params + string;
  json_MarshalIndent : option Payload -> string + string;
  fmt_v : option Payload -> string
}.

Section Client.
Context {World : Type} `{!Transport World}.

Record Client : Type := {
  toolManager : option (DefaultToolManager World Payload);
  model : string
}.

(** The system prompt, abridged to its first sentence. *)
Definition SystemPrompt : string :=
  "You are a powerful agentic AI coding assistant, powered by Claude 3.5 Sonnet.".

Definition maxIterations : Z := 5.

(** *** Accumulation of the streamed tool-call fragments *)

(** [for len(toolCalls) <= index { toolCalls = append(toolCalls, ToolCall{}) }] *)
Definition grow (toolCalls : list openai.ToolCall) (index : Z) : list openai.ToolCall :=
  (toolCalls ++ replicate (Z.to_nat (index + 1 - Z.of_nat (length toolCalls)))
                  openai.empty_call)%list.

(** An assignment to a field of [toolCalls[index]]; [None] is the run-time
    panic of an index out of range. *)
Definition update (toolCalls : list openai.ToolCall) (index : Z)
    (f : openai.ToolCall -> openai.ToolCall) : option (list openai.ToolCall) :=
  if index <? 0 then None
  else match toolCalls !! Z.to_nat index with
       | Some call => Some (<[Z.to_nat index := f call]> toolCalls)
       | None => None
       end.

Definition set_ID (fragment call : openai.ToolCall) : openai.ToolCall :=
  {| openai.Index := openai.Index call;
     openai.ID := openai.ID fragment;
     openai.Type_ := openai.Type_ fragment;
     openai.Function := openai.Function call |}.

Definition set_Name (fragment call : openai.ToolCall) : openai.ToolCall :=
  {| openai.Index := openai.Index call;
     openai.ID := openai.ID call;
     openai.Type_ := openai.Type_ call;
     openai.Function :=
       {| openai.Name := openai.Name (openai.Function fragment);
          openai.Arguments := openai.Arguments (openai.Function call) |} |}.

Definition add_Arguments (fragment call : openai.ToolCall) : openai.ToolCall :=
  {| openai.Index := openai.Index call;
     openai.ID := openai.ID call;
     openai.Type_ := openai.Type_ call;
     openai.Function :=
       {| openai.Name := openai.Name (openai.Function call);
          openai.Arguments := openai.Arguments (openai.Function call)
                              +:+ openai.Arguments (openai.Function fragment) |} |}.

(** The body of [for _, toolCall := range delta.ToolCalls] on one fragment. *)
Definition merge_fragment (toolCalls : list openai.ToolCall) (toolCall : openai.ToolCall)
  : option (list openai.ToolCall) :=
  match openai.Index toolCall with
  | None => Some toolCalls
  | Some index =>
      let toolCalls := grow toolCalls index in
      toolCalls ← (if negb (String.eqb (openai.ID toolCall) EmptyString)
                   then update toolCalls index (set_ID toolCall) else Some toolCalls);
      toolCalls ← (if negb (String.eqb (openai.Name (openai.Function toolCall)) EmptyString)
                   then update toolCalls index (set_Name toolCall) else Some toolCalls);
      if negb (String.eqb (openai.Arguments (openai.Function toolCall)) EmptyString)
      then update toolCalls index (add_Arguments toolCall) else Some toolCalls
  end.

Fixpoint merge_fragments (toolCalls : list openai.ToolCall)
    (fragments : list openai.ToolCall) : option (list openai.ToolCall) :=
  match fragments with
  | [] => Some toolCalls
  | toolCall :: rest =>
      toolCalls ← merge_fragment toolCalls toolCall;
      merge_fragments toolCalls rest
  end.

(** The body of the receiving loop on one response. *)
Definition receive (acc : string * list openai.ToolCall)
    (response : openai.ChatCompletionStreamResponse)
  : option (string * list openai.ToolCall) :=
  let '(contentBuffer, toolCalls) := acc in
  match openai.Choices response with
  | [] => Some (contentBuffer, toolCalls)
  | delta :: _ =>
      let contentBuffer := contentBuffer +:+ openai.delta_Content delta in
      toolCalls ← merge_fragments toolCalls (openai.delta_ToolCalls delta);
      Some (contentBuffer, toolCalls)
  end.

(** The receiving loop on the responses of a stream, up to its final error. *)
Fixpoint drain (acc : string * list openai.ToolCall)
    (responses : list openai.ChatCompletionStreamResponse)
  : option (string * list openai.ToolCall) :=
  match responses with
  | [] => Some acc
  | response :: rest => acc ← receive acc response; drain acc rest
  end.

(** *** Execution of the tool calls *)

Definition convertToolsToOpenAI (toolSchemas : list ToolSchema) : list openai.Tool :=
  (λ schema, {| openai.tool_Type := "function";
                openai.tool_Function :=
                  {| openai.fd_Name := Name schema;
                     openai.fd_Description := Description schema;
                     openai.fd_Parameters := InputSchema schema |} |}) <$> toolSchemas.

Definition executeToolCall (c : Client) (toolCall : openai.ToolCall) (w : World)
  : (string + string) * World :=
  match toolManager c with
  | None => (inr "tool manager not set", w)
  | Some tm =>
      match json_Unmarshal (openai.Arguments (openai.Function toolCall)) with
      | inr err => (inr ("failed to parse tool arguments: " +:+ err), w)
      | inl params =>
          match ExecuteTool (openai.Name (openai.Function toolCall)) params tm w with
          | (_, Some err, _, w1) => (inr ("failed to execute tool: " +:+ err), w1)
          | (result, None, _, w1) =>
              if negb (Success result) then
                (inl ("Tool execution failed: " +:+ Error result), w1)
              else
                match json_MarshalIndent (Result result) with
                | inr _ => (inl ("Tool result: " +:+ fmt_v (Result result)), w1)
                | inl resultJSON => (inl resultJSON, w1)
                end
          end
      end
  end.

(** The loop [for _, toolCall := range toolCalls] of one round. *)
Fixpoint run_tool_calls (c : Client) (toolCalls : list openai.ToolCall)
    (messages : list openai.ChatCompletionMessage) (w : World)
  : list openai.ChatCompletionMessage * World :=
  match toolCalls with
  | [] => (messages, w)
  | toolCall :: rest =>
      if String.eqb (openai.Type_ toolCall) "function"
         && negb (String.eqb (openai.Name (openai.Function toolCall)) EmptyString)
      then
        let '(r, w1) := executeToolCall c toolCall w in
        let result := match r with
                      | inr err => "Error: " +:+ err
                      | inl result => result
                      end in
        run_tool_calls c rest
          (messages ++ [{| openai.Role := "tool";
                           openai.Content := result;
                           openai.ToolCalls := [];
                           openai.ToolCallID := openai.ID toolCall |}])%list
          w1
      else run_tool_calls c rest messages w
  end.

(** *** The conversation loop *)

(** How a call of [StreamQueryWithTools] ends: it returns its [error], or a
    run-time panic unwinds it. *)
Inductive Outcome : Type :=
| Returned (err : option string)
| Panicked.

(** [received] logs, round by round, what [CreateChatCompletionStream]
    answered: one entry per round performed. *)
Record Run : Type := {
  outcome : Outcome;
  received : list (openai.ChatCompletionStream + string);
  history : list openai.ChatCompletionMessage;
  world : World
}.

Definition rounds (run : Run) : Z := Z.of_nat (length (received run)).

(** The loop [for iteration := 0; iteration < maxIterations; iteration++].
    [log] holds the answers of the rounds already performed. [fuel] bounds
    the number of turns that the model unfolds; [None] means that it ran
    out. *)
Fixpoint conversation (fuel : nat) (c : Client) (toolDefs : list openai.Tool)
    (iteration : Z) (log : list (openai.ChatCompletionStream + string))
    (messages : list openai.ChatCompletionMessage) (w : World) : option Run :=
  match fuel with
  | O => None
  | S fuel =>
      if iteration <? maxIterations then
        let req := {| openai.Model := model c;
                      openai.Messages := messages;
                      openai.Stream := true;
                      openai.Tools := toolDefs |} in
        match CreateChatCompletionStream req w with
        | (inr err, w1) =>
            Some {| outcome :=
                      Returned (Some ("failed to create chat completion stream: " +:+ err));
                    received := (log ++ [inr err])%list;
                    history := messages; world := w1 |}
        | (inl stream, w1) =>
            let log := (log ++ [inl stream])%list in
            match drain (EmptyString, []) (openai.responses stream) with
            | None =>
                Some {| outcome := Panicked; received := log;
                        history := messages; world := w1 |}
            | Some (contentBuffer, toolCalls) =>
                if negb (String.eqb (openai.final_error stream) "EOF") then
                  Some {| outcome :=
                            Returned (Some ("stream error: " +:+ openai.final_error stream));
                          received := log; history := messages; world := w1 |}
                else
                  let assistantMessage :=
                    {| openai.Role := "assistant";
                       openai.Content := contentBuffer;
                       openai.ToolCalls := toolCalls;
                       openai.ToolCallID := EmptyString |} in
                  if (Z.of_nat (length toolCalls) =? 0) then
                    Some {| outcome := Returned None; received := log;
                            history := messages; world := w1 |}
                  else
                    let messages := (messages ++ [assistantMessage])%list in
                    let '(messages, w2) := run_tool_calls c toolCalls messages w1 in
                    conversation fuel c toolDefs (iteration + 1) log messages w2
            end
        end
      else
        Some {| outcome := Returned None; received := log;
                history := messages; world := w |}
  end.

Definition StreamQueryWithTools (fuel : nat) (c : Client) (query : string) (w : World)
  : option Run :=
  let messages :=
    [ {| openai.Role := "system"; openai.Content := SystemPrompt;
         openai.ToolCalls := []; openai.ToolCallID := EmptyString |};
      {| openai.Role := "user"; openai.Content := query;
         openai.ToolCalls := []; openai.ToolCallID := EmptyString |} ] in
  let toolDefs :=
    match toolManager c with
    | Some tm => convertToolsToOpenAI (ListTools tm)
    | None => []
    end in
  conversation fuel c toolDefs 0 [] messages w.

End Client.

(** ** A small machine to run the embedding on

    The properties below hold for every host. To run the code on concrete
    inputs, here is one: a disk listing absolute paths in the order of a
    walk, a working directory, and a model provider that replays a script of
    streams. Paths are taken as they are written (neither links nor dots),
    patterns of [regexp] are literal texts, optionally behind [(?i)], and
    globs are [*], [*suffix] or a literal name. *)

Module Demo.

Inductive node : Type :=
| Directory
| Regular (content : string).

Record Machine : Type := {
  disk : list (string * node);
  cwd : string;
  script : list openai.ChatCompletionStream
}.

Definition absolute (path : string) (m : Machine) : string :=
  if strings.HasPrefix path "/" then path
  else if String.eqb path "." then cwd m
  else cwd m +:+ "/" +:+ path.

Definition lookup_node (path : string) (m : Machine) : option node :=
  snd <$> List.find (λ e, String.eqb e.1 (absolute path m)) (disk m).

Definition with_disk (d : list (string * node)) (m : Machine) : Machine :=
  {| disk := d; cwd := cwd m; script := script m |}.

Definition store (path : string) (n : node) (m : Machine) : Machine :=
  let p := absolute path m in
  match lookup_node path m with
  | Some _ => with_disk ((λ e, if String.eqb e.1 p then (p, n) else e) <$> disk m) m
  | None => with_disk (disk m ++ [(p, n)])%list m
  end.

Definition info_of (n : node) : FileInfo :=
  match n with
  | Directory => {| IsDir := true; Size := 4096 |}
  | Regular content => {| IsDir := false; Size := Z.of_nat (String.length content) |}
  end.

Definition has_suffix (s suffix : string) : bool :=
  String.eqb (strings.drop (String.length s - String.length suffix) s) suffix.

Definition glob (pattern name : string) : bool :=
  if String.eqb pattern "*" then true
  else if strings.HasPrefix pattern "*" then has_suffix name (strings.drop 1 pattern)
  else String.eqb pattern name.

Fixpoint parent (rest : list ascii) : string :=
  match rest with
  | [] => "."
  | c :: more =>
      if Ascii.eqb c "/"%char
      then match more with [] => "/" | _ => string_of_list_ascii (rev more) end
      else parent more
  end.

Definition join (dir name : string) : string :=
  if String.eqb dir EmptyString then name
  else if String.eqb name EmptyString then dir
  else if String.eqb dir "." then name
  else dir +:+ "/" +:+ name.

Definition compile (pattern : string) : (string -> bool) + string :=
  if strings.HasPrefix pattern "(?i)"
  then inl (λ line, strings.Contains (strings.ToLower line)
                      (strings.ToLower (strings.drop 4 pattern)))
  else inl (λ line, strings.Contains line pattern).

Definition under (root path : string) : bool :=
  String.eqb path root || strings.HasPrefix path (root +:+ "/").

Definition walk_visits (root : string) (m : Machine)
  : list (string * (FileInfo + string)) :=
  match lookup_node root m with
  | None => [(root, inr ("lstat " +:+ root +:+ ": no such file or directory"))]
  | Some _ =>
      (λ e, (e.1, inl (info_of e.2)))
        <$> List.filter (λ e, under (absolute root m) e.1) (disk m)
  end.

#[global] Instance host : Host Machine := {|
  filepath_IsAbs path := strings.HasPrefix path "/";
  filepath_Join := join;
  filepath_Dir path := parent (rev (list_ascii_of_string path));
  filepath_Abs path m := inl (absolute path m);
  filepath_Match := glob;
  filepath_Walk := walk_visits;
  regexp_Compile := compile;
  os_Stat path m :=
    match lookup_node path m with
    | Some n => StatOk (info_of n)
    | None => StatNotExist ("stat " +:+ path +:+ ": no such file or directory")
    end;
  os_Open path m :=
    match lookup_node path m with
    | Some (Regular content) => inl {| contents := content; read_error := None |}
    | Some Directory =>
        inl {| contents := EmptyString;
               read_error := Some ("read " +:+ path +:+ ": is a directory") |}
    | None => inr ("open " +:+ path +:+ ": no such file or directory")
    end;
  os_MkdirAll path m :=
    match lookup_node path m with
    | Some (Regular _) => (Some ("mkdir " +:+ path +:+ ": not a directory"), m)
    | Some Directory => (None, m)
    | None => (None, store path Directory m)
    end;
  os_WriteFile path data m :=
    match lookup_node path m with
    | Some Directory => (Some ("open " +:+ path +:+ ": is a directory"), m)
    | _ => (None, store path (Regular data) m)
    end;
  os_Create path m :=
    match lookup_node path m with
    | Some Directory => (Some ("open " +:+ path +:+ ": is a directory"), m)
    | _ => (None, store path (Regular EmptyString) m)
    end;
  file_Write path data m := store path (Regular data) m;
  os_Remove path m :=
    match lookup_node path m with
    | Some _ =>
        (None, with_disk (List.filter (λ e, negb (String.eqb e.1 (absolute path m))) (disk m)) m)
    | None => (Some ("remove " +:+ path +:+ ": no such file or directory"), m)
    end
|}.

(** The provider replays the script, one stream per request, then answers
    with empty streams. The codec knows the empty object and [null]. *)
#[global] Instance transport : Transport Machine := {|
  CreateChatCompletionStream req m :=
    match script m with
    | stream :: rest => (inl stream, {| disk := disk m; cwd := cwd m; script := rest |})
    | [] => (inl {| openai.responses := []; openai.final_error := "EOF" |}, m)
    end;
  json_Unmarshal text :=
    if String.eqb text "{}" then inl (Some ∅)
    else if String.eqb text "null" then inl None
    else inr "invalid character";
  json_MarshalIndent _ := inl "{}";
  fmt_v _ := "<nil>"
|}.

(** [n] copies of a line, each followed by a line feed. *)
Fixpoint text_of (n : nat) (line : string) : string :=
  match n with
  | O => EmptyString
  | S n' => line +:+ LF +:+ text_of n' line
  end.

Definition manager : DefaultToolManager Machine Payload :=
  (register_all
     [("read_file", NewReadFileTool); ("search_replace", NewSearchReplaceTool);
      ("delete_file", NewDeleteFileTool); ("write_file", NewWriteFileTool)]
     (NewDefaultToolManager "/work")).2.

Definition machine : Machine :=
  {| disk := [("/work", Directory);
              ("/work/big.txt", Regular (text_of 300 "line"));
              ("/work/notes.txt", Regular ("alpha foo foo" +:+ LF +:+ "beta foo" +:+ LF));
              ("/work/setup.EXE", Regular "MZ");
              ("/work/setup.exe", Regular "MZ")];
     cwd := "/work";
     script := [] |}.

(** A request for a range of lines of [big.txt], as [ExecuteTool] passes it
    on. *)
Definition read_request (startLine endLine : Z) : Params :=
  {[ "target_file" := VString "big.txt";
     "should_read_entire_file" := VBool false;
     "start_line_one_indexed" := VFloat64 startLine 1;
     "end_line_one_indexed_inclusive" := VFloat64 endLine 1;
     "__work_dir__" := VString "/work" ]}.

(** A request to write [setup.exe], which exists, without [overwrite]. *)
Definition write_request : Params :=
  {[ "target_file" := VString "setup.exe"; "content" := VString "payload" ]}.

Definition delete_request (targetFile : string) : Params :=
  {[ "target_file" := VString targetFile; "__work_dir__" := VString "/work" ]}.

Definition replace_request (oldString newString : string) : Params :=
  {[ "file_path" := VString "notes.txt";
     "old_string" := VString oldString;
     "new_string" := VString newString;
     "__work_dir__" := VString "/work" ]}.

(** Two files of 30 lines each, every line with the word searched for. *)
Definition corpus : Machine :=
  {| disk := [("/src", Directory);
              ("/src/a.txt", Regular (text_of 30 "a needle"));
              ("/src/b.txt", Regular (text_of 30 "a needle"))];
     cwd := "/src";
     script := [] |}.

(** One file of 1000 such lines. *)
Definition haystack : Machine :=
  {| disk := [("/src", Directory);
              ("/src/a.txt", Regular (text_of 1000 "a needle"))];
     cwd := "/src";
     script := [] |}.

Definition fragment (index : Z) (id name arguments : string) : openai.ToolCall :=
  {| openai.Index := Some index; openai.ID := id;
     openai.Type_ := if String.eqb id EmptyString then EmptyString else "function";
     openai.Function := {| openai.Name := name; openai.Arguments := arguments |} |}.

Definition response (content : string) (fragments : list openai.ToolCall)
  : openai.ChatCompletionStreamResponse :=
  {| openai.Choices := [{| openai.delta_Content := content;
                           openai.delta_ToolCalls := fragments |}] |}.

Definition stream_of (responses : list openai.ChatCompletionStreamResponse)
  : openai.ChatCompletionStream :=
  {| openai.responses := responses; openai.final_error := "EOF" |}.

(** Two calls, at indices 1 and 0, with the argument text of each split over
    several fragments that arrive interleaved. *)
Definition two_calls : list openai.ChatCompletionStreamResponse :=
  [ response "Let me look." [];
    response EmptyString [fragment 1 "call_b" "nonexistent" EmptyString];
    response EmptyString [fragment 0 "call_a" "read_file" "{"];
    response EmptyString [fragment 1 EmptyString EmptyString "nu";
                          fragment 0 EmptyString EmptyString "}"];
    response EmptyString [fragment 1 EmptyString EmptyString "ll"] ].

(** The identifier of position 0 arrives twice. *)
Definition twice_identified : list openai.ChatCompletionStreamResponse :=
  [ response EmptyString [fragment 0 "call_a" "read_file" "{"];
    response EmptyString [fragment 0 "call_b" EmptyString "}"] ].

(** Fragments at indices 0 and 2 only. *)
Definition with_gap : list openai.ChatCompletionStreamResponse :=
  [ response EmptyString [fragment 0 "call_a" "read_file" "{}"];
    response EmptyString [fragment 2 "call_c" "read_file" "{}"] ].

(** A round that asks for a tool that is not registered. *)
Definition asks_again : openai.ChatCompletionStream :=
  stream_of [response EmptyString [fragment 0 "call_0" "nonexistent" "{}"]].

Definition client : Client :=
  {| toolManager := Some manager; model := "deepseek-chat" |}.

(** A model that asks for a tool in every round: more rounds of requests
    than the loop will ever make. *)
Definition insistent : Machine :=
  {| disk := disk machine; cwd := cwd machine;
     script := replicate 8 asks_again |}.

(** A model that asks for tools once and then answers. *)
Definition obliging : Machine :=
  {| disk := disk machine; cwd := cwd machine;
     script := [stream_of two_calls; stream_of [response "Done." []]] |}.

(** A connection that breaks in the first round, and a fragment with a
    negative index. *)
Definition broken : Machine :=
  {| disk := disk machine; cwd := cwd machine;
     script := [{| openai.responses := [response "Let" []];
                   openai.final_error := "unexpected EOF" |}] |}.

Definition misnumbered : Machine :=
  {| disk := disk machine; cwd := cwd machine;
     script := [stream_of [response EmptyString [fragment (-1) "call_0" "read_file" "{}"]]] |}.

End Demo.

(** ** The vocabulary of the statements *)

Section Vocabulary.
Context {World : Type} `{!Host World}.

(** The arguments name a target and do not ask for the entire file. *)
Definition range_request (params : Params) (targetFile : string) : Prop :=
  assert_string params "target_file" = (targetFile, true)
  /\ targetFile <> EmptyString
  /\ (assert_bool params "should_read_entire_file").1 = false.

(** The file at [path] exists, opens, and the scanner delivers [lines] from
    it without an error. *)
Definition readable (path : string) (w : World) (lines : list string) : Prop :=
  (forall err, os_Stat path w <> StatNotExist err)
  /\ exists file, os_Open path w = inl file /\ bufio.Scan file = (lines, None).

(** The path that [readFileFunction] and its siblings work on. *)
Definition target_path (params : Params) (targetFile : string) : string :=
  resolve targetFile (assert_string params "__work_dir__").1.

End Vocabulary.

(** *** The vocabulary of the accumulation of tool calls *)

(** The fragments that a stream delivers, in the order of arrival: those of
    the first choice of each response. *)
Definition fragments_of (responses : list openai.ChatCompletionStreamResponse)
  : list openai.ToolCall :=
  concat ((λ r, match openai.Choices r with
                | [] => []
                | delta :: _ => openai.delta_ToolCalls delta
                end) <$> responses).

(** The fragments addressed to position [i], in the order of arrival. *)
Definition fragments_at (i : Z) (fragments : list openai.ToolCall) : list openai.ToolCall :=
  List.filter (λ f, bool_decide (openai.Index f = Some i)) fragments.

Definition has_ID (f : openai.ToolCall) : bool :=
  negb (String.eqb (openai.ID f) EmptyString).

Definition has_Name (f : openai.ToolCall) : bool :=
  negb (String.eqb (openai.Name (openai.Function f)) EmptyString).

(** The last fragment of a list that satisfies [p]. *)
Fixpoint last_with (p : openai.ToolCall -> bool) (fragments : list openai.ToolCall)
  : option openai.ToolCall :=
  match fragments with
  | [] => None
  | f :: rest =>
      match last_with p rest with
      | Some g => Some g
      | None => if p f then Some f else None
      end
  end.

(** The argument texts of a list of fragments, one after the other. *)
Fixpoint joined_arguments (fragments : list openai.ToolCall) : string :=
  match fragments with
  | [] => EmptyString
  | f :: rest => openai.Arguments (openai.Function f) +:+ joined_arguments rest
  end.

(** The number of positions in use: one more than the largest index. *)
Definition positions (fragments : list openai.ToolCall) : Z :=
  fold_left (λ n f, match openai.Index f with
                    | Some i => Z.max n (i + 1)
                    | None => n
                    end) fragments 0.

(** The indices present in a list of fragments, each once. *)
Definition distinct_indices (fragments : list openai.ToolCall) : gset Z :=
  list_to_set (omap openai.Index fragments).

(** The fragment carries no index, or the index of a position. *)
Definition positioned (f : openai.ToolCall) : Prop :=
  forall i, openai.Index f = Some i -> 0 <= i.

(** What the three conditional assignments of [merge_fragment] do to the
    call they address. *)
Definition apply_fragment (call fragment : openai.ToolCall) : openai.ToolCall :=
  let call := if has_ID fragment then set_ID fragment call else call in
  let call := if has_Name fragment then set_Name fragment call else call in
  if negb (String.eqb (openai.Arguments (openai.Function fragment)) EmptyString)
  then add_Arguments fragment call else call.

(** The call at position [j] of a slice, blank beyond its end. *)
Definition view (toolCalls : list openai.ToolCall) (j : nat) : openai.ToolCall :=
  default openai.empty_call (toolCalls !! j).

(** An answer of the provider that is a stream, delivered up to its regular
    end, whose fragments carry positions. *)
Definition delivered (reply : openai.ChatCompletionStream + string) : Prop :=
  match reply with
  | inl stream =>
      openai.final_error stream = "EOF"
      /\ Forall positioned (fragments_of (openai.responses stream))
  | inr _ => False
  end.

(** ** The registry ([registry.go]) *)

Section Registry.
Context {World : Type} `{!Host World}.

(** The tools whose functions are not modelled here. [RegisterAllTools] only
    stores them, so they are taken as they come. *)
Variables NewRunTerminalCmdTool NewListDirTool NewGrepSearchTool NewFileSearchTool
  : Tool World Payload.

(** [RegisterAllTools], on the manager of the registry: the error returned
    and the manager afterwards. A failed registration returns at once; the
    registrations made before it stay. *)
Definition RegisterAllTools (tm : DefaultToolManager World Payload)
  : option string * DefaultToolManager World Payload :=
  match RegisterTool "read_file" NewReadFileTool tm with
  | (Some err, tm) => (Some ("failed to register read_file tool: " +:+ err), tm)
  | (None, tm) =>
  match RegisterTool "run_terminal_cmd" NewRunTerminalCmdTool tm with
  | (Some err, tm) => (Some ("failed to register run_terminal_cmd tool: " +:+ err), tm)
  | (None, tm) =>
  match RegisterTool "list_dir" NewListDirTool tm with
  | (Some err, tm) => (Some ("failed to register list_dir tool: " +:+ err), tm)
  | (None, tm) =>
  match RegisterTool "grep_search" NewGrepSearchTool tm with
  | (Some err, tm) => (Some ("failed to register grep_search tool: " +:+ err), tm)
  | (None, tm) =>
  match RegisterTool "search_replace" NewSearchReplaceTool tm with
  | (Some err, tm) => (Some ("failed to register search_replace tool: " +:+ err), tm)
  | (None, tm) =>
  match RegisterTool "file_search" NewFileSearchTool tm with
  | (Some err, tm) => (Some ("failed to register file_search tool: " +:+ err), tm)
  | (None, tm) =>
  match RegisterTool "delete_file" NewDeleteFileTool tm with
  | (Some err, tm) => (Some ("failed to register delete_file tool: " +:+ err), tm)
  | (None, tm) =>
  match RegisterTool "write_file" NewWriteFileTool tm with
  | (Some err, tm) => (Some ("failed to register write_file tool: " +:+ err), tm)
  | (None, tm) => (None, tm)
  end end end end end end end end.

(** The registrations of [RegisterAllTools], in the order of the source. *)
Definition default_tools : list (string * Tool World Payload) :=
  [("read_file", NewReadFileTool); ("run_terminal_cmd", NewRunTerminalCmdTool);
   ("list_dir", NewListDirTool); ("grep_search", NewGrepSearchTool);
   ("search_replace", NewSearchReplaceTool); ("file_search", NewFileSearchTool);
   ("delete_file", NewDeleteFileTool); ("write_file", NewWriteFileTool)].

End Registry.

(** ** More vocabulary *)

(** The lines of a file with their one-based numbers, from [n] on. *)
Fixpoint numbered (n : Z) (tokens : list string) : list (Z * string) :=
  match tokens with
  | [] => []
  | line :: rest => (n, line) :: numbered (n + 1) rest
  end.

(** The match that [searchInFile] records for a numbered line. *)
Definition match_of (filePath query : string) (caseSensitive : bool) (nl : Z * string)
  : GrepMatch.t :=
  {| GrepMatch.File := filePath;
     GrepMatch.Line := nl.1;
     GrepMatch.Column := 0;
     GrepMatch.Content := nl.2;
     GrepMatch.Match := extractMatch nl.2 query caseSensitive |}.

(** The tool calls that the loop of a round executes. *)
Definition executable (toolCall : openai.ToolCall) : bool :=
  String.eqb (openai.Type_ toolCall) "function"
  && negb (String.eqb (openai.Name (openai.Function toolCall)) EmptyString).

(** A line that the scanner gives back as it was written: no line feed in
    it, no carriage return at its end, and short enough for the buffer. *)
Definition plain_line (line : string) : Prop :=
  ~ In "010"%char (list_ascii_of_string line)
  /\ last (list_ascii_of_string line) <> Some CR
  /\ Z.of_nat (String.length line) < bufio.MaxScanTokenSize.

(** The two messages that open every conversation. *)
Definition opening (query : string) : list openai.ChatCompletionMessage :=
  [ {| openai.Role := "system"; openai.Content := SystemPrompt;
       openai.ToolCalls := []; openai.ToolCallID := EmptyString |};
    {| openai.Role := "user"; openai.Content := query;
       openai.ToolCalls := []; openai.ToolCallID := EmptyString |} ].

(** ** More machines *)

Module Lab.

(** A disk with an empty file, a directory and a file of three lines. *)
Definition machine : Demo.Machine :=
  {| Demo.disk := [("/work", Demo.Directory);
                   ("/work/empty.txt", Demo.Regular EmptyString);
                   ("/work/src", Demo.Directory);
                   ("/work/src/main.go", Demo.Regular (Demo.text_of 3 "x := needle"))];
     Demo.cwd := "/work";
     Demo.script := [] |}.

Definition target (targetFile : string) : Params :=
  {[ "target_file" := VString targetFile; "__work_dir__" := VString "/work" ]}.

(** A request for the whole of [big.txt], with a range that is ignored. *)
Definition whole_request : Params :=
  {[ "target_file" := VString "big.txt";
     "should_read_entire_file" := VBool true;
     "start_line_one_indexed" := VFloat64 7 1;
     "end_line_one_indexed_inclusive" := VFloat64 3 1;
     "__work_dir__" := VString "/work" ]}.

Definition write_params (targetFile content : string) (overwrite : bool) : Params :=
  {[ "target_file" := VString targetFile; "content" := VString content;
     "overwrite" := VBool overwrite; "__work_dir__" := VString "/work" ]}.

(** A call whose argument text is not JSON. *)
Definition garbled_call : openai.ToolCall :=
  Demo.fragment 0 "call_0" "read_file" "{".

Definition unknown_call : openai.ToolCall :=
  Demo.fragment 0 "call_0" "nonexistent" "{}".

(** A line of 65536 bytes, one more than the scanner's buffer takes. *)
Fixpoint doubled (n : nat) (s : string) : string :=
  match n with
  | O => s
  | S n' => doubled n' (s +:+ s)
  end.

Definition long_line : string := doubled 16 "x".

(** A directory with a file that matches and a file of a single long line. *)
Definition minified : Demo.Machine :=
  {| Demo.disk := [("/web", Demo.Directory);
                   ("/web/app.js", Demo.Regular (Demo.text_of 2 "let needle"));
                   ("/web/app.min.js", Demo.Regular long_line)];
     Demo.cwd := "/web";
     Demo.script := [] |}.

(** A first round without tool calls, and a provider that cannot be
    reached. *)
Definition answers : Demo.Machine :=
  {| Demo.disk := Demo.disk Demo.machine; Demo.cwd := "/work";
     Demo.script := [Demo.stream_of [Demo.response "Hello." []]] |}.

End Lab.

(** * Properties *)

(** ** Facts about [strings] *)

Lemma str_app_cons c s t : String c s +:+ t = String c (s +:+ t).
Proof. reflexivity. Qed.

Lemma str_app_nil_r s : s +:+ EmptyString = s.
Proof. induction s as [|c s IH]; [reflexivity|]. now rewrite str_app_cons, IH. Qed.

Lemma str_app_assoc s1 s2 s3 : (s1 +:+ s2) +:+ s3 = s1 +:+ s2 +:+ s3.
Proof. induction s1 as [|c s1 IH]; [reflexivity|]. now rewrite !str_app_cons, IH. Qed.

Lemma str_length_app s1 s2 :
  String.length (s1 +:+ s2) = (String.length s1 + String.length s2)%nat.
Proof.
  induction s1 as [|c s1 IH]; [reflexivity|]. rewrite str_app_cons. cbn. now rewrite IH.
Qed.

Lemma HasPrefix_spec s p :
  strings.HasPrefix s p = true <-> exists post, s = p +:+ post.
Proof.
  unfold strings.HasPrefix. revert s. induction p as [|c p IH]; intros s; cbn.
  - split; [intros _; now exists s|intros _; now destruct s].
  - destruct s as [|d s]; cbn.
    + split; [discriminate|intros [post H]; discriminate].
    + destruct (ascii_dec c d) as [->|Hne].
      * rewrite IH. split; intros [post H]; exists post; rewrite str_app_cons in *; congruence.
      * split; [discriminate|intros [post H]; rewrite str_app_cons in H; congruence].
Qed.

Lemma drop_app p post : strings.drop (String.length p) (p +:+ post) = post.
Proof. induction p as [|c p IH]; cbn; [now destruct post|exact IH]. Qed.

Lemma Contains_nil sub : strings.Contains EmptyString sub = strings.HasPrefix EmptyString sub.
Proof. cbn [strings.Contains]. apply orb_false_r. Qed.

Lemma Contains_cons c s sub :
  strings.Contains (String c s) sub
    = strings.HasPrefix (String c s) sub || strings.Contains s sub.
Proof. reflexivity. Qed.

Lemma Replace1_nil old new :
  strings.Replace1 EmptyString old new
    = if strings.HasPrefix EmptyString old
      then new +:+ strings.drop (String.length old) EmptyString else EmptyString.
Proof. reflexivity. Qed.

Lemma Replace1_cons c s old new :
  strings.Replace1 (String c s) old new
    = if strings.HasPrefix (String c s) old
      then new +:+ strings.drop (String.length old) (String c s)
      else String c (strings.Replace1 s old new).
Proof. reflexivity. Qed.

(** [Contains] holds exactly of the texts with an occurrence of [sub]. *)
Lemma Contains_spec s sub :
  strings.Contains s sub = true <-> exists pre post, s = pre +:+ sub +:+ post.
Proof.
  induction s as [|c s IH].
  - rewrite Contains_nil, HasPrefix_spec. split.
    + intros [post H]. now exists EmptyString, post.
    + intros (pre & post & H). destruct pre; [now exists post|discriminate].
  - rewrite Contains_cons, orb_true_iff, HasPrefix_spec, IH. split.
    + intros [[post H]|(pre & post & H)].
      * now exists EmptyString, post.
      * exists (String c pre), post. rewrite str_app_cons. now rewrite H.
    + intros (pre & post & H). destruct pre as [|d pre].
      * left. now exists post.
      * right. exists pre, post. rewrite str_app_cons in H. congruence.
Qed.

(** [strings.Replace(s, old, new, 1)] rewrites the leftmost occurrence of
    [old], the one with the shortest text before it, and nothing else. *)
Lemma Replace1_spec s old new :
  strings.Contains s old = true ->
  exists pre post,
    s = pre +:+ old +:+ post
    /\ strings.Replace1 s old new = pre +:+ new +:+ post
    /\ forall pre' post', s = pre' +:+ old +:+ post' ->
         (String.length pre <= String.length pre')%nat.
Proof.
  induction s as [|c s IH]; intros H.
  - rewrite Contains_nil in H. rewrite Replace1_nil, H.
    apply HasPrefix_spec in H as [post H]. exists EmptyString, post.
    split; [exact H|]. split; [|intros; cbn; lia].
    rewrite H at 1. now rewrite drop_app.
  - rewrite Contains_cons in H. rewrite Replace1_cons.
    destruct (strings.HasPrefix (String c s) old) eqn:Hp.
    + apply HasPrefix_spec in Hp as [post Hp]. exists EmptyString, post.
      split; [exact Hp|]. split; [|intros; cbn; lia].
      rewrite Hp. now rewrite drop_app.
    + cbn in H. destruct (IH H) as (pre & post & Hs & Hr & Hmin).
      exists (String c pre), post. rewrite !str_app_cons, <- Hs, Hr.
      split; [reflexivity|]. split; [reflexivity|].
      intros pre' post' E. destruct pre' as [|d pre'].
      * assert (strings.HasPrefix (String c s) old = true)
          by (apply HasPrefix_spec; now exists post').
        congruence.
      * rewrite str_app_cons in E. injection E as _ E. specialize (Hmin _ _ E). cbn. lia.
Qed.

Lemma Replace1_absent s old new :
  strings.Contains s old = false -> strings.Replace1 s old new = s.
Proof.
  induction s as [|c s IH]; intros H.
  - rewrite Contains_nil in H. now rewrite Replace1_nil, H.
  - rewrite Contains_cons in H. apply orb_false_iff in H as [H1 H2].
    rewrite Replace1_cons, H1. now rewrite (IH H2).
Qed.

(** ** The tool manager *)

Section ManagerFacts.
Context {World Payload : Type}.
Implicit Types (tm : DefaultToolManager World Payload) (tool : Tool World Payload).

Lemma RegisterTool_duplicate name tool tm first :
  GetTool name tm = Some first ->
  RegisterTool name tool tm
    = (Some ("tool '" +:+ name +:+ "' already registered"), tm).
Proof. unfold GetTool, RegisterTool. now intros ->. Qed.

Lemma RegisterTool_fresh name tool tm :
  GetTool name tm = None ->
  exists tm', RegisterTool name tool tm = (None, tm')
    /\ GetTool name tm' = Some tool
    /\ workDir tm' = workDir tm
    /\ forall other, other <> name -> GetTool other tm' = GetTool other tm.
Proof.
  unfold GetTool, RegisterTool. intros ->. eexists. split; [reflexivity|].
  cbn. split; [apply lookup_insert_eq|]. split; [reflexivity|].
  intros other Hne. now apply lookup_insert_ne.
Qed.

Lemma register_all_first calls : forall tm name,
  GetTool name (register_all calls tm).2
    = match GetTool name tm with
      | Some t => Some t
      | None => first_offer name calls
      end.
Proof.
  induction calls as [|[n tool] rest IH]; intros tm name; cbn.
  - now destruct (GetTool name tm).
  - specialize (IH (RegisterTool n tool tm).2 name).
    destruct (RegisterTool n tool tm) as [err tm1] eqn:ER. cbn in IH.
    destruct (register_all rest tm1) as [errs tm2]. cbn in *. rewrite IH.
    assert (tm1 = (RegisterTool n tool tm).2) as -> by now rewrite ER.
    unfold RegisterTool, GetTool.
    destruct (tools tm !! n) eqn:En; cbn.
    + destruct (tools tm !! name) eqn:E; [reflexivity|].
      case_decide; [congruence|reflexivity].
    + case_decide as Hd.
      * subst. rewrite lookup_insert_eq, En. reflexivity.
      * rewrite lookup_insert_ne by exact Hd. reflexivity.
Qed.

(** C3. Registering a tool under a name that is already present returns the
    duplicate-name error and leaves the manager as it was, so the first
    registration is still the one [GetTool] returns; registering under a
    fresh name succeeds, stores the tool and touches no other name.
    Consequently, after any run of registration attempts on a new manager,
    each name maps to the first tool offered under it, and the names held by
    a manager are pairwise distinct, one listed schema for each. *)
Theorem RegisterTool_first_wins tm (name : string) tool :
  match GetTool name tm with
  | Some first =>
      RegisterTool name tool tm
        = (Some ("tool '" +:+ name +:+ "' already registered"), tm)
      /\ GetTool name (RegisterTool name tool tm).2 = Some first
  | None =>
      (RegisterTool name tool tm).1 = None
      /\ GetTool name (RegisterTool name tool tm).2 = Some tool
      /\ forall other, other <> name ->
           GetTool other (RegisterTool name tool tm).2 = GetTool other tm
  end
  /\ (forall (calls : list (string * Tool World Payload)) cwd n,
        GetTool n (register_all calls (NewDefaultToolManager cwd)).2
          = first_offer n calls)
  /\ NoDup (map_to_list (tools tm)).*1
  /\ length (ListTools tm) = size (tools tm).
Proof.
  split; [|split; [|split]].
  - destruct (GetTool name tm) as [first|] eqn:E.
    + rewrite (RegisterTool_duplicate name tool tm first E). now split.
    + destruct (RegisterTool_fresh name tool tm E) as (tm' & -> & H1 & _ & H2).
      now repeat split.
  - intros calls cwd n. rewrite register_all_first.
    unfold GetTool, NewDefaultToolManager. cbn. now rewrite lookup_empty.
  - apply NoDup_fst_map_to_list.
  - unfold ListTools. rewrite length_fmap. apply length_map_to_list.
Qed.

(** C4. For a name that is not registered and any argument map, also a
    [nil] one, [ExecuteTool] returns a result with [Success = false] and the
    error [tool '<name>' not found], which mentions the name, together with a
    [nil] error; the manager and the world are left as they were. *)
Theorem ExecuteTool_not_found tm (name : string) (params : option Params) (w : World) :
  GetTool name tm = None ->
  ExecuteTool name params tm w
    = ({| result_Name := name; Result := None;
          Error := "tool '" +:+ name +:+ "' not found"; Success := false |},
       None, tm, w)
  /\ strings.Contains ("tool '" +:+ name +:+ "' not found") name = true.
Proof.
  unfold GetTool, ExecuteTool. intros ->. split; [reflexivity|].
  apply Contains_spec. now exists "tool '", "' not found".
Qed.

End ManagerFacts.

(** ** read_file *)

Section ReadFileFacts.
Context {World : Type} `{!Host World}.

(** A range request on a readable file runs [readRange] on its lines and
    leaves the world alone. *)
Lemma readFileFunction_range params (w : World) targetFile lines :
  range_request params targetFile ->
  readable (target_path params targetFile) w lines ->
  readFileFunction params w
    = (match readRange (target_path params targetFile) lines
               (int_param params "start_line_one_indexed")
               (int_param params "end_line_one_indexed_inclusive") with
       | inl result => inl (PReadFile result)
       | inr err => inr err
       end, w).
Proof.
  intros (Ht & Hne & Hall) (Hstat & file & Hopen & Hscan).
  unfold readFileFunction, target_path in *. rewrite Ht. cbn [negb orb].
  apply String.eqb_neq in Hne. rewrite Hne, Hall.
  cbn beta iota zeta.
  destruct (os_Stat _ w) eqn:Es; try (exfalso; eapply Hstat; reflexivity);
    rewrite Hopen, Hscan; now destruct (readRange _ _ _ _).
Qed.

(** The range branch, case by case, on the clamped bounds. *)
Lemma readRange_cases filePath lines startLine endLine :
  let total := Z.of_nat (length lines) in
  let s := Z.max 1 startLine in
  let e := Z.min endLine total in
  let n := e - s + 1 in
  (endLine < s ->
     readRange filePath lines startLine endLine
       = inr ("end_line (" +:+ pretty endLine +:+ ") must be >= start_line ("
              +:+ pretty s +:+ ")"))
  /\ (s <= endLine -> total < s ->
        readRange filePath lines startLine endLine
          = inr ("start_line (" +:+ pretty s +:+ ") exceeds total lines ("
                 +:+ pretty total +:+ ")"))
  /\ (250 < n ->
        readRange filePath lines startLine endLine
          = inr ("cannot read more than 250 lines at once (requested: "
                 +:+ pretty n +:+ ")"))
  /\ (1 <= n < 200 -> 200 <= total -> e < total ->
        readRange filePath lines startLine endLine
          = inr ("minimum 200 lines required when file has >= 200 lines. Consider reading lines "
                 +:+ pretty s +:+ "-" +:+ pretty (Z.min (s + 199) total)))
  /\ (1 <= n <= 250 -> (200 <= n \/ total < 200 \/ e = total) ->
        exists result,
          readRange filePath lines startLine endLine = inl result
          /\ ReadFileResult.StartLine result = s
          /\ ReadFileResult.EndLine result = e
          /\ ReadFileResult.TotalLines result = total).
Proof.
  intros total s e n. subst n e s. unfold readRange. fold total.
  assert (Hs : (if startLine <? 1 then 1 else startLine) = Z.max 1 startLine)
    by (destruct (Z.ltb_spec startLine 1); lia).
  rewrite Hs. set (s := Z.max 1 startLine).
  destruct (Z.ltb_spec endLine s) as [H1|H1].
  { repeat split; intros; try lia; reflexivity. }
  destruct (Z.ltb_spec total s) as [H2|H2].
  { repeat split; intros; try lia; reflexivity. }
  assert (He : (if total <? endLine then total else endLine) = Z.min endLine total)
    by (destruct (Z.ltb_spec total endLine); lia).
  rewrite He. set (e := Z.min endLine total).
  destruct (Z.ltb_spec 250 (e - s + 1)) as [H3|H3].
  { repeat split; intros; try lia; reflexivity. }
  destruct (Z.ltb_spec (e - s + 1) 200) as [H4|H4];
    destruct (Z.leb_spec 200 total) as [H5|H5];
    destruct (Z.ltb_spec e total) as [H6|H6]; cbn [andb];
    repeat split; intros; try lia;
    try (eexists; split; [reflexivity|]; cbn; repeat split; reflexivity).
  assert (Hm : (if total <? s + 199 then total else s + 199) = Z.min (s + 199) total)
    by (destruct (Z.ltb_spec total (s + 199)); lia).
  now rewrite Hm.
Qed.

(** No intermediate value of the range branch leaves the range of a Go
    [int] when the bounds passed in are inside it. *)
Lemma readRange_in_bounds (lines : list string) (startLine endLine : Z) :
  let total := Z.of_nat (length lines) in
  let s := Z.max 1 startLine in
  let e := Z.min endLine total in
  s <= endLine -> s <= total ->
  1 <= s <= total /\ s <= e <= total /\ 1 <= e - s + 1 <= total
  /\ s + 199 <= total + 199.
Proof. cbn zeta. lia. Qed.

(** C5 (amended). For [read_file] without [should_read_entire_file] on an
    existing, readable file: once the start is raised to 1 and the end
    lowered to the number of lines, a range of more than 250 lines is
    rejected with an error that gives its length; a range of at most 250
    lines is never rejected by this rule, whatever else is. So lines 5 to 255
    of a file that has them are refused, and lines 5 to 254, which are 250
    lines, are not. *)
Theorem read_file_rejects_over_250 params (w : World) targetFile lines :
  range_request params targetFile ->
  readable (target_path params targetFile) w lines ->
  let total := Z.of_nat (length lines) in
  let s := Z.max 1 (int_param params "start_line_one_indexed") in
  let e := Z.min (int_param params "end_line_one_indexed_inclusive") total in
  (250 < e - s + 1 ->
     readFileFunction params w
       = (inr ("cannot read more than 250 lines at once (requested: "
               +:+ pretty (e - s + 1) +:+ ")"), w))
  /\ (e - s + 1 <= 250 ->
       forall msg, (readFileFunction params w).1 = inr msg ->
         strings.HasPrefix msg "cannot read more than 250 lines" = false).
Proof.
  intros Hreq Hread total s e.
  rewrite (readFileFunction_range params w targetFile lines Hreq Hread).
  pose proof (readRange_cases (target_path params targetFile) lines
                (int_param params "start_line_one_indexed")
                (int_param params "end_line_one_indexed_inclusive"))
    as (C1 & C2 & C3 & C4 & C5).
  fold total s e in C1, C2, C3, C4, C5.
  split.
  - intros H. now rewrite (C3 H).
  - intros H msg. cbn [fst].
    destruct (Z.lt_ge_cases (int_param params "end_line_one_indexed_inclusive") s) as [H1|H1].
    { rewrite (C1 H1). intros [= <-]. reflexivity. }
    destruct (Z.lt_ge_cases total s) as [H2|H2].
    { rewrite (C2 H1 H2). intros [= <-]. reflexivity. }
    assert (Hn : 1 <= e - s + 1) by (subst e; lia).
    destruct (Z.lt_ge_cases (e - s + 1) 200) as [H3|H3];
      [destruct (Z.lt_ge_cases total 200) as [H4|H4];
       [|destruct (Z.lt_ge_cases e total) as [H5|H5]]|].
    + destruct C5 as (r & -> & _); [lia|lia|discriminate].
    + rewrite C4 by lia. intros [= <-]. reflexivity.
    + destruct C5 as (r & -> & _); [lia|subst e; lia|discriminate].
    + destruct C5 as (r & -> & _); [lia|lia|discriminate].
Qed.

(** C6. For [read_file] without [should_read_entire_file] on an existing,
    readable file of at least 200 lines: if the clamped range covers fewer
    than 200 lines and ends before the last line, the call fails with an
    error that suggests the range from the same start to
    [min (start + 199) total]; if the range covers at least 200 lines, or
    reaches the last line, or the file has fewer than 200 lines, no error of
    this rule is returned. *)
Theorem read_file_minimum_200 params (w : World) targetFile lines :
  range_request params targetFile ->
  readable (target_path params targetFile) w lines ->
  let total := Z.of_nat (length lines) in
  let s := Z.max 1 (int_param params "start_line_one_indexed") in
  let e := Z.min (int_param params "end_line_one_indexed_inclusive") total in
  (1 <= e - s + 1 < 200 -> 200 <= total -> e < total ->
     readFileFunction params w
       = (inr ("minimum 200 lines required when file has >= 200 lines. Consider reading lines "
               +:+ pretty s +:+ "-" +:+ pretty (Z.min (s + 199) total)), w))
  /\ (200 <= e - s + 1 \/ total < 200 \/ total <= e ->
       forall msg, (readFileFunction params w).1 = inr msg ->
         strings.HasPrefix msg "minimum 200 lines required" = false).
Proof.
  intros Hreq Hread total s e.
  rewrite (readFileFunction_range params w targetFile lines Hreq Hread).
  pose proof (readRange_cases (target_path params targetFile) lines
                (int_param params "start_line_one_indexed")
                (int_param params "end_line_one_indexed_inclusive"))
    as (C1 & C2 & C3 & C4 & C5).
  fold total s e in C1, C2, C3, C4, C5.
  split.
  - intros H Ht He. now rewrite (C4 H Ht He).
  - intros H msg. cbn [fst].
    destruct (Z.lt_ge_cases (int_param params "end_line_one_indexed_inclusive") s) as [H1|H1].
    { rewrite (C1 H1). intros [= <-]. reflexivity. }
    destruct (Z.lt_ge_cases total s) as [H2|H2].
    { rewrite (C2 H1 H2). intros [= <-]. reflexivity. }
    assert (Hn : 1 <= e - s + 1) by (subst e; lia).
    destruct (Z.lt_ge_cases 250 (e - s + 1)) as [H3|H3].
    { rewrite (C3 H3). intros [= <-]. reflexivity. }
    destruct C5 as (r & -> & _); [lia|subst e; lia|discriminate].
Qed.

End ReadFileFacts.

(** *** [read_file] on the small machine *)

Lemma demo_big_readable start_ end_ :
  range_request (Demo.read_request start_ end_) "big.txt"
  /\ readable (target_path (Demo.read_request start_ end_) "big.txt") Demo.machine
       (replicate 300 "line").
Proof.
  split.
  - split; [vm_compute; reflexivity|]. split; [discriminate|vm_compute; reflexivity].
  - split; [intros err; vm_compute; discriminate|].
    eexists. split; vm_compute; reflexivity.
Qed.

(** Lines 5 to 255 of the 300 lines are 251 lines: refused. *)
Lemma read_file_rejects_over_250_witness :
  range_request (Demo.read_request 5 255) "big.txt"
  /\ readable (target_path (Demo.read_request 5 255) "big.txt") Demo.machine
       (replicate 300 "line")
  /\ readFileFunction (Demo.read_request 5 255) Demo.machine
       = (inr "cannot read more than 250 lines at once (requested: 251)", Demo.machine).
Proof.
  destruct (demo_big_readable 5 255) as [Hreq Hread].
  split; [exact Hreq|]. split; [exact Hread|].
  destruct (read_file_rejects_over_250 (Demo.read_request 5 255) Demo.machine
              "big.txt" (replicate 300 "line") Hreq Hread) as [H _].
  apply H. vm_compute. reflexivity.
Defined.

(** C5, as stated, fails: lines 5 to 254 of a 300-line file are exactly 250
    lines, and the call returns them. *)
Lemma read_file_5_254_accepted :
  exists result,
    readFileFunction (Demo.read_request 5 254) Demo.machine
      = (inl (PReadFile result), Demo.machine)
    /\ ReadFileResult.StartLine result = 5
    /\ ReadFileResult.EndLine result = 254
    /\ ReadFileResult.TotalLines result = 300
    /\ ReadFileResult.LinesNotShown result
         = "Lines 1-4 not shown; Lines 255-300 not shown".
Proof. eexists. split; [vm_compute; reflexivity|]. repeat split. Qed.

(** Lines 5 to 10 of the 300 lines: refused, with lines 5 to 204 suggested. *)
Lemma read_file_minimum_200_witness :
  range_request (Demo.read_request 5 10) "big.txt"
  /\ readable (target_path (Demo.read_request 5 10) "big.txt") Demo.machine
       (replicate 300 "line")
  /\ readFileFunction (Demo.read_request 5 10) Demo.machine
       = (inr "minimum 200 lines required when file has >= 200 lines. Consider reading lines 5-204",
          Demo.machine).
Proof.
  destruct (demo_big_readable 5 10) as [Hreq Hread].
  split; [exact Hreq|]. split; [exact Hread|].
  destruct (read_file_minimum_200 (Demo.read_request 5 10) Demo.machine
              "big.txt" (replicate 300 "line") Hreq Hread) as [H _].
  apply H; [split|..]; vm_compute; first [reflexivity|discriminate].
Defined.

(** ** write_file and delete_file *)

Section WriteDeleteFacts.
Context {World : Type} `{!Host World}.

Lemma assert_string_insert_ne (params : Params) k k' v :
  k <> k' -> assert_string (<[k := v]> params) k' = assert_string params k'.
Proof. intros Hne. unfold assert_string. now rewrite lookup_insert_ne. Qed.

Lemma assert_bool_insert_ne (params : Params) k k' v :
  k <> k' -> assert_bool (<[k := v]> params) k' = assert_bool params k'.
Proof. intros Hne. unfold assert_bool. now rewrite lookup_insert_ne. Qed.

Lemma assert_string_insert_eq (params : Params) k s :
  assert_string (<[k := VString s]> params) k = (s, true).
Proof. unfold assert_string. now rewrite lookup_insert_eq. Qed.

(** [write_file] on a target that exists, without leave to overwrite. *)
Lemma writeFileFunction_exists params (w : World) targetFile content info :
  assert_string params "target_file" = (targetFile, true) ->
  targetFile <> EmptyString ->
  assert_string params "content" = (content, true) ->
  (assert_bool params "overwrite").1 = false ->
  os_Stat (target_path params targetFile) w = StatOk info ->
  writeFileFunction params w
    = (inl (PWriteFile
              {| WriteFileResult.TargetFile := target_path params targetFile;
                 WriteFileResult.Written := false;
                 WriteFileResult.Created := false;
                 WriteFileResult.BytesWritten := 0;
                 WriteFileResult.Message := "File exists and overwrite is not enabled";
                 WriteFileResult.FileExists := true |}), w).
Proof.
  intros Ht Hne Hc Ho Hs. unfold writeFileFunction, target_path in *.
  apply String.eqb_neq in Hne.
  rewrite Ht. cbn [negb orb]. rewrite Hne, Hc. cbn [negb]. rewrite Ho, Hs.
  reflexivity.
Qed.

(** C7. [write_file] on a target that exists, with the overwrite flag absent
    or false (or not a boolean): through the manager the call yields a result
    with [Success = true] and a [nil] error, whose payload has
    [written = false], [file_exists = true] and the message that overwriting
    is not enabled; the world, and with it the content of the file, is the one
    before the call: neither a directory is created nor a file written, and
    the outcome does not depend on the security check. *)
Theorem write_file_refuses_overwrite (tm : DefaultToolManager World Payload)
    (params : Params) (w : World) targetFile content info :
  GetTool "write_file" tm = Some NewWriteFileTool ->
  assert_string params "target_file" = (targetFile, true) ->
  targetFile <> EmptyString ->
  assert_string params "content" = (content, true) ->
  (assert_bool params "overwrite").1 = false ->
  os_Stat (resolve targetFile (workDir tm)) w = StatOk info ->
  ExecuteTool "write_file" (Some params) tm w
    = ({| result_Name := "write_file";
          Result := Some (PWriteFile
            {| WriteFileResult.TargetFile := resolve targetFile (workDir tm);
               WriteFileResult.Written := false;
               WriteFileResult.Created := false;
               WriteFileResult.BytesWritten := 0;
               WriteFileResult.Message := "File exists and overwrite is not enabled";
               WriteFileResult.FileExists := true |});
          Error := EmptyString;
          Success := true |},
       None, tm, w).
Proof.
  intros Hg Ht Hne Hc Ho Hs. unfold ExecuteTool. unfold GetTool in Hg. rewrite Hg.
  cbn [Function NewWriteFileTool].
  rewrite (writeFileFunction_exists _ w targetFile content info).
  - unfold target_path. rewrite assert_string_insert_eq. reflexivity.
  - rewrite assert_string_insert_ne by discriminate. exact Ht.
  - exact Hne.
  - rewrite assert_string_insert_ne by discriminate. exact Hc.
  - rewrite assert_bool_insert_ne by discriminate. exact Ho.
  - unfold target_path. rewrite assert_string_insert_eq. exact Hs.
Qed.

(** The delete tool up to the security check, on an existing regular file. *)
Lemma deleteFileFunction_regular params (w : World) targetFile info :
  assert_string params "target_file" = (targetFile, true) ->
  targetFile <> EmptyString ->
  os_Stat (target_path params targetFile) w = StatOk info ->
  IsDir info = false ->
  deleteFileFunction params w
    = let filePath := target_path params targetFile in
      let fileInfo := "File with " +:+ pretty (Size info) +:+ " bytes" in
      let result deleted message :=
        PDeleteFile {| DeleteFileResult.TargetFile := filePath;
                       DeleteFileResult.Deleted := deleted;
                       DeleteFileResult.Message := message;
                       DeleteFileResult.FileInfo := fileInfo |} in
      match performSecurityChecks filePath w with
      | Some err => (inl (result false ("Security check failed: " +:+ err)), w)
      | None =>
          match os_Remove filePath w with
          | (Some err, w1) => (inl (result false ("Failed to delete file: " +:+ err)), w1)
          | (None, w1) => (inl (result true "File successfully deleted"), w1)
          end
      end.
Proof.
  intros Ht Hne Hs Hd. unfold deleteFileFunction, target_path in *.
  apply String.eqb_neq in Hne.
  rewrite Ht. cbn [negb orb]. rewrite Hne, Hs, Hd. reflexivity.
Qed.

Lemma find_eqb_In (x : string) (l : list string) :
  In x l -> find (String.eqb x) l = Some x.
Proof.
  induction l as [|y l IH]; [intros []|]. intros [->|Hin]; cbn.
  - now rewrite String.eqb_refl.
  - destruct (String.eqb_spec x y) as [->|Hne]; [reflexivity|exact (IH Hin)].
Qed.

Lemma find_eqb_not_In (x : string) (l : list string) :
  ~ In x l -> find (String.eqb x) l = None.
Proof.
  induction l as [|y l IH]; [reflexivity|]. intros Hn. cbn.
  destruct (String.eqb_spec x y) as [->|Hne]; [exfalso; apply Hn; now left|].
  apply IH. intros Hin. apply Hn. now right.
Qed.

(** C10. The extension check of [delete_file] compares the extension as it
    is written, while that of [write_file] lowers it first. For an existing
    regular file outside the blocked directories, not a system file by name,
    whose extension is on the blocklist only after lowering (such as [.EXE]):
    [delete_file] passes the security check and goes on to [os.Remove],
    reporting the file deleted when the removal succeeds. With the extension
    written as on the blocklist (such as [.exe]) the call ends with a
    security-check failure that names the extension, and nothing is removed.
    [write_file]'s check refuses the extension in both spellings. *)
Theorem delete_file_extension_case params (w : World) targetFile info absPath :
  assert_string params "target_file" = (targetFile, true) ->
  targetFile <> EmptyString ->
  let filePath := target_path params targetFile in
  let ext := filepath.Ext filePath in
  let fileInfo := "File with " +:+ pretty (Size info) +:+ " bytes" in
  let result deleted message :=
    PDeleteFile {| DeleteFileResult.TargetFile := filePath;
                   DeleteFileResult.Deleted := deleted;
                   DeleteFileResult.Message := message;
                   DeleteFileResult.FileInfo := fileInfo |} in
  os_Stat filePath w = StatOk info ->
  IsDir info = false ->
  filepath_Abs filePath w = inl absPath ->
  find (strings.HasPrefix absPath) delete_dangerousPaths = None ->
  find (String.eqb (filepath.Base filePath)) delete_systemFiles = None ->
  In (strings.ToLower ext) dangerousExtensions ->
  (~ In ext dangerousExtensions ->
     performSecurityChecks filePath w = None
     /\ deleteFileFunction params w
        = match os_Remove filePath w with
          | (Some err, w1) => (inl (result false ("Failed to delete file: " +:+ err)), w1)
          | (None, w1) => (inl (result true "File successfully deleted"), w1)
          end)
  /\ (In ext dangerousExtensions ->
        deleteFileFunction params w
          = (inl (result false
                    ("Security check failed: cannot delete potentially dangerous file type: "
                     +:+ ext)), w))
  /\ (find (strings.HasPrefix absPath) write_dangerousPaths = None ->
        performWriteSecurityChecks filePath w
          = Some ("cannot create potentially dangerous file type: " +:+ strings.ToLower ext)).
Proof.
  intros Ht Hne filePath ext fileInfo result Hs Hd Ha Hp Hb Hlow.
  pose proof (deleteFileFunction_regular params w targetFile info Ht Hne Hs Hd) as E.
  cbn zeta in E. fold filePath in E.
  split; [|split].
  - intros Hn.
    assert (Hc : performSecurityChecks filePath w = None).
    { unfold performSecurityChecks. rewrite Ha, Hp. fold ext.
      rewrite (find_eqb_not_In ext _ Hn). now rewrite Hb. }
    split; [exact Hc|]. rewrite E, Hc. reflexivity.
  - intros Hin. rewrite E. unfold performSecurityChecks. rewrite Ha, Hp. fold ext.
    rewrite (find_eqb_In ext _ Hin). reflexivity.
  - intros Hw. unfold performWriteSecurityChecks. rewrite Ha, Hw. fold ext.
    rewrite (find_eqb_In _ _ Hlow). reflexivity.
Qed.

End WriteDeleteFacts.

(** *** [write_file] and [delete_file] on the small machine *)

(** [setup.exe] exists: writing to it without [overwrite] changes nothing,
    and the refusal is not the one of the security check, which would have
    rejected the extension. *)
Lemma write_file_refuses_overwrite_witness :
  GetTool "write_file" Demo.manager = Some NewWriteFileTool
  /\ (ExecuteTool "write_file" (Some Demo.write_request) Demo.manager Demo.machine).1.1.1
     = {| result_Name := "write_file";
          Result := Some (PWriteFile
            {| WriteFileResult.TargetFile := "/work/setup.exe";
               WriteFileResult.Written := false;
               WriteFileResult.Created := false;
               WriteFileResult.BytesWritten := 0;
               WriteFileResult.Message := "File exists and overwrite is not enabled";
               WriteFileResult.FileExists := true |});
          Error := EmptyString;
          Success := true |}
  /\ (ExecuteTool "write_file" (Some Demo.write_request) Demo.manager Demo.machine).2
     = Demo.machine.
Proof.
  assert (Hg : GetTool "write_file" Demo.manager = Some NewWriteFileTool)
    by (unfold Demo.manager; rewrite register_all_first; reflexivity).
  split; [exact Hg|].
  rewrite (write_file_refuses_overwrite Demo.manager Demo.write_request Demo.machine
             "setup.exe" "payload" {| IsDir := false; Size := 2 |} Hg);
    [split; reflexivity|vm_compute; reflexivity|discriminate|vm_compute; reflexivity
    |vm_compute; reflexivity|vm_compute; reflexivity].
Defined.

(** [setup.EXE] is removed, [setup.exe] is not. *)
Lemma delete_file_extension_case_witness :
  (exists r w1,
     deleteFileFunction (Demo.delete_request "setup.EXE") Demo.machine = (inl (PDeleteFile r), w1)
     /\ DeleteFileResult.Deleted r = true
     /\ Demo.lookup_node "/work/setup.EXE" w1 = None)
  /\ (exists r,
        deleteFileFunction (Demo.delete_request "setup.exe") Demo.machine
          = (inl (PDeleteFile r), Demo.machine)
        /\ DeleteFileResult.Deleted r = false
        /\ DeleteFileResult.Message r
           = "Security check failed: cannot delete potentially dangerous file type: .exe").
Proof.
  split.
  - destruct (delete_file_extension_case (Demo.delete_request "setup.EXE") Demo.machine
                "setup.EXE" {| IsDir := false; Size := 2 |} "/work/setup.EXE")
      as ((_ & H) & _ & _);
      try (vm_compute; reflexivity); try discriminate.
    + vm_compute. tauto.
    + vm_compute. intuition discriminate.
    + rewrite H. do 2 eexists. split; [vm_compute; reflexivity|]. split; reflexivity.
  - destruct (delete_file_extension_case (Demo.delete_request "setup.exe") Demo.machine
                "setup.exe" {| IsDir := false; Size := 2 |} "/work/setup.exe")
      as (_ & H & _);
      try (vm_compute; reflexivity); try discriminate.
    + vm_compute. tauto.
    + rewrite H by (vm_compute; tauto). eexists. split; [reflexivity|]. split; reflexivity.
Defined.

(** ** search_replace *)

Section SearchReplaceFacts.
Context {World : Type} `{!Host World}.

(** Once a line is found, the loop only collects the lines. *)
Lemma scan_found_keeps oldString tokens : forall st,
  foundLine st <> -1 ->
  fold_left (scan_step oldString) tokens st
    = {| lineNumber := lineNumber st + Z.of_nat (length tokens);
         lines := (lines st ++ tokens)%list;
         foundLine := foundLine st;
         originalLine := originalLine st |}.
Proof.
  induction tokens as [|line rest IH]; intros st Hf; cbn [fold_left].
  - destruct st; cbn. f_equal; [lia|symmetry; apply List.app_nil_r].
  - assert (E : scan_step oldString st line
                = {| lineNumber := lineNumber st + 1; lines := (lines st ++ [line])%list;
                     foundLine := foundLine st; originalLine := originalLine st |}).
    { unfold scan_step. apply Z.eqb_neq in Hf. now rewrite Hf. }
    rewrite E, IH by exact Hf. cbn [lineNumber lines foundLine originalLine].
    f_equal; [cbn [length]; lia|now rewrite <- List.app_assoc].
Qed.

(** As long as no line contains the text, nothing is found. *)
Lemma scan_none oldString tokens : forall st,
  foundLine st = -1 ->
  Forall (λ line, strings.Contains line oldString = false) tokens ->
  fold_left (scan_step oldString) tokens st
    = {| lineNumber := lineNumber st + Z.of_nat (length tokens);
         lines := (lines st ++ tokens)%list;
         foundLine := -1;
         originalLine := originalLine st |}.
Proof.
  induction tokens as [|line rest IH]; intros st Hf Hall; cbn [fold_left].
  - destruct st; cbn in *. subst. f_equal; [lia|symmetry; apply List.app_nil_r].
  - inversion Hall as [|? ? Hline Hrest]; subst.
    assert (E : scan_step oldString st line
                = {| lineNumber := lineNumber st + 1; lines := (lines st ++ [line])%list;
                     foundLine := -1; originalLine := originalLine st |}).
    { unfold scan_step. rewrite Hline, andb_false_r. now rewrite Hf. }
    rewrite E, IH by (try reflexivity; exact Hrest).
    cbn [lineNumber lines foundLine originalLine].
    f_equal; [cbn [length]; lia|now rewrite <- List.app_assoc].
Qed.

(** The first line that contains the text is the one found. *)
Lemma scan_first oldString before line after : forall st,
  foundLine st = -1 -> 0 <= lineNumber st ->
  Forall (λ line, strings.Contains line oldString = false) before ->
  strings.Contains line oldString = true ->
  fold_left (scan_step oldString) (before ++ line :: after) st
    = {| lineNumber := lineNumber st + Z.of_nat (length (before ++ line :: after));
         lines := (lines st ++ before ++ line :: after)%list;
         foundLine := lineNumber st + Z.of_nat (length before) + 1;
         originalLine := line |}.
Proof.
  intros st Hf Hn Hall Hline.
  rewrite fold_left_app. rewrite (scan_none oldString before st Hf Hall).
  cbn [fold_left].
  set (st1 := {| lineNumber := lineNumber st + Z.of_nat (length before);
                 lines := (lines st ++ before)%list;
                 foundLine := -1; originalLine := originalLine st |}).
  assert (E : scan_step oldString st1 line
              = {| lineNumber := lineNumber st1 + 1; lines := (lines st1 ++ [line])%list;
                   foundLine := lineNumber st1 + 1; originalLine := line |}).
  { unfold scan_step. now rewrite Hline. }
  rewrite E, scan_found_keeps by (cbn; lia).
  cbn [lineNumber lines foundLine originalLine st1].
  f_equal.
  - rewrite length_app. cbn [length]. lia.
  - now rewrite <- !List.app_assoc.
Qed.

(** The index into [lines] is in range whenever a line was found. *)
Lemma scan_all_found oldString tokens :
  foundLine (scan_all oldString tokens) = -1
  \/ exists line,
       lines (scan_all oldString tokens)
         !! Z.to_nat (foundLine (scan_all oldString tokens) - 1) = Some line.
Proof.
  unfold scan_all.
  assert (D : Forall (λ line, strings.Contains line oldString = false) tokens
              \/ exists before line after,
                   tokens = (before ++ line :: after)%list
                   /\ Forall (λ line, strings.Contains line oldString = false) before
                   /\ strings.Contains line oldString = true).
  { induction tokens as [|t rest IH]; [left; constructor|].
    destruct (strings.Contains t oldString) eqn:Et.
    - right. exists [], t, rest. repeat split; [constructor|exact Et].
    - destruct IH as [IH|(b & l & a & -> & Hb & Hl)].
      + left. now constructor.
      + right. exists (t :: b), l, a. repeat split; [now constructor|exact Hl]. }
  destruct D as [D|(before & line & after & -> & Hb & Hl)].
  - left. rewrite scan_none by (try reflexivity; exact D). reflexivity.
  - right. exists line. rewrite scan_first by (try reflexivity; try lia; assumption).
    cbn [lineNumber lines foundLine].
    apply list_lookup_middle. lia.
Qed.

(** C8. For [search_replace] on an existing, readable file, with its three
    arguments present: if no line contains the old text, the call returns a
    result, not an error, with [replaced = false] and the message that the text
    was not found, and the world (so the content of the file) is as before.
    If a line contains it, let [line] be the first such line: the leftmost
    occurrence of the old text in [line] is replaced by the new text, the
    lines before and after are kept as they are, and these lines are what is
    written back, each followed by a line feed; the result reports the
    line number, the line as it was and as it is. *)
Theorem search_replace_first_occurrence params (w : World)
    filePath oldString newString (all : list string) :
  assert_string params "file_path" = (filePath, true) ->
  filePath <> EmptyString ->
  assert_string params "old_string" = (oldString, true) ->
  oldString <> EmptyString ->
  assert_string params "new_string" = (newString, true) ->
  readable (target_path params filePath) w all ->
  let targetPath := target_path params filePath in
  let result replaced number original new message :=
    PSearchReplace {| SearchReplaceResult.FilePath := targetPath;
                      SearchReplaceResult.OldString := oldString;
                      SearchReplaceResult.NewString := newString;
                      SearchReplaceResult.Replaced := replaced;
                      SearchReplaceResult.LineNumber := number;
                      SearchReplaceResult.OriginalLine := original;
                      SearchReplaceResult.NewLine := new;
                      SearchReplaceResult.Message := message |} in
  (Forall (λ line, strings.Contains line oldString = false) all ->
     searchReplaceFunction params w
       = (inl (result false 0 EmptyString EmptyString "Old string not found in file"), w))
  /\ (forall before line after,
        all = (before ++ line :: after)%list ->
        Forall (λ line, strings.Contains line oldString = false) before ->
        strings.Contains line oldString = true ->
        exists pre post,
          line = pre +:+ oldString +:+ post
          /\ (forall pre' post', line = pre' +:+ oldString +:+ post' ->
                (String.length pre <= String.length pre')%nat)
          /\ searchReplaceFunction params w
             = let number := Z.of_nat (length before) + 1 in
               let newLine := pre +:+ newString +:+ post in
               match os_Create targetPath w with
               | (Some err, w1) => (inr ("failed to write file: " +:+ err), w1)
               | (None, w1) =>
                   (inl (result true number line newLine
                           ("Successfully replaced text on line " +:+ pretty number)),
                    file_Write targetPath
                      (written_bytes (before ++ newLine :: after)%list) w1)
               end).
Proof.
  intros Hf Hfne Ho Hone Hn (Hstat & file & Hopen & Hscan) targetPath result.
  apply String.eqb_neq in Hfne, Hone.
  assert (E : searchReplaceFunction params w
    = let st := scan_all oldString all in
      if foundLine st =? -1 then
        (inl (result false 0 EmptyString EmptyString "Old string not found in file"), w)
      else
        let i := Z.to_nat (foundLine st - 1) in
        match lines st !! i with
        | Some line =>
            let newLine := strings.Replace1 line oldString newString in
            match writeLinesToFile targetPath (<[i := newLine]> (lines st)) w with
            | (Some err, w1) => (inr ("failed to write file: " +:+ err), w1)
            | (None, w1) =>
                (inl (result true (foundLine st) (originalLine st) newLine
                        ("Successfully replaced text on line " +:+ pretty (foundLine st))),
                 w1)
            end
        | None => (inr "panic: runtime error: index out of range", w)
        end).
  { unfold searchReplaceFunction. subst result targetPath. unfold target_path in *.
    rewrite Hf. cbn [negb orb]. rewrite Hfne, Ho. cbn [negb orb]. rewrite Hone, Hn.
    cbn [negb]. cbn beta iota zeta.
    destruct (os_Stat _ w) eqn:Es; try (exfalso; eapply Hstat; reflexivity);
      rewrite Hopen, Hscan; reflexivity. }
  rewrite E. clear E. split.
  - intros Hall. unfold scan_all. rewrite scan_none by (try reflexivity; exact Hall).
    reflexivity.
  - intros before line after -> Hb Hl.
    destruct (Replace1_spec line oldString newString Hl) as (pre & post & Hline & Hrep & Hmin).
    exists pre, post. split; [exact Hline|]. split; [exact Hmin|].
    unfold scan_all. rewrite scan_first by (try reflexivity; try lia; assumption).
    cbn [lineNumber lines foundLine originalLine]. cbn zeta.
    replace (0 + Z.of_nat (length before) + 1 =? -1) with false
      by (symmetry; apply Z.eqb_neq; lia).
    replace (Z.to_nat (0 + Z.of_nat (length before) + 1 - 1)) with (length before) by lia.
    replace (0 + Z.of_nat (length before) + 1) with (Z.of_nat (length before) + 1) by lia.
    rewrite app_nil_l, list_lookup_middle by reflexivity.
    rewrite insert_app_r_alt by lia. rewrite Nat.sub_diag. cbn [insert list_insert].
    rewrite Hrep. unfold writeLinesToFile.
    destruct (os_Create targetPath w) as [[err|] w1]; reflexivity.
Qed.

End SearchReplaceFacts.

(** *** [search_replace] on the small machine *)

(** [notes.txt] holds [alpha foo foo] and [beta foo]: replacing [foo] by [bar]
    gives [alpha bar foo] and leaves [beta foo]. *)
Example search_replace_notes :
  exists w1,
    searchReplaceFunction (Demo.replace_request "foo" "bar") Demo.machine
      = (inl (PSearchReplace
                {| SearchReplaceResult.FilePath := "/work/notes.txt";
                   SearchReplaceResult.OldString := "foo";
                   SearchReplaceResult.NewString := "bar";
                   SearchReplaceResult.Replaced := true;
                   SearchReplaceResult.LineNumber := 1;
                   SearchReplaceResult.OriginalLine := "alpha foo foo";
                   SearchReplaceResult.NewLine := "alpha bar foo";
                   SearchReplaceResult.Message := "Successfully replaced text on line 1" |}),
         w1)
    /\ Demo.lookup_node "/work/notes.txt" w1
       = Some (Demo.Regular ("alpha bar foo" +:+ LF +:+ "beta foo" +:+ LF)).
Proof. eexists. split; vm_compute; reflexivity. Qed.

(** A text that is absent: nothing is replaced and the disk is as before. *)
Example search_replace_absent :
  searchReplaceFunction (Demo.replace_request "zzz" "bar") Demo.machine
    = (inl (PSearchReplace
              {| SearchReplaceResult.FilePath := "/work/notes.txt";
                 SearchReplaceResult.OldString := "zzz";
                 SearchReplaceResult.NewString := "bar";
                 SearchReplaceResult.Replaced := false;
                 SearchReplaceResult.LineNumber := 0;
                 SearchReplaceResult.OriginalLine := EmptyString;
                 SearchReplaceResult.NewLine := EmptyString;
                 SearchReplaceResult.Message := "Old string not found in file" |}),
       Demo.machine).
Proof. vm_compute. reflexivity. Qed.

Lemma search_replace_first_occurrence_witness :
  readable (target_path (Demo.replace_request "foo" "bar") "notes.txt") Demo.machine
    ["alpha foo foo"; "beta foo"]
  /\ exists pre post,
       "alpha foo foo" = pre +:+ "foo" +:+ post
       /\ (forall pre' post', "alpha foo foo" = pre' +:+ "foo" +:+ post' ->
             (String.length pre <= String.length pre')%nat)
       /\ (searchReplaceFunction (Demo.replace_request "foo" "bar") Demo.machine).1
          = inl (PSearchReplace
                   {| SearchReplaceResult.FilePath := "/work/notes.txt";
                      SearchReplaceResult.OldString := "foo";
                      SearchReplaceResult.NewString := "bar";
                      SearchReplaceResult.Replaced := true;
                      SearchReplaceResult.LineNumber := 1;
                      SearchReplaceResult.OriginalLine := "alpha foo foo";
                      SearchReplaceResult.NewLine := pre +:+ "bar" +:+ post;
                      SearchReplaceResult.Message :=
                        "Successfully replaced text on line 1" |}).
Proof.
  assert (Hread : readable (target_path (Demo.replace_request "foo" "bar") "notes.txt")
                    Demo.machine ["alpha foo foo"; "beta foo"]).
  { split; [intros err; vm_compute; discriminate|].
    eexists. split; vm_compute; reflexivity. }
  split; [exact Hread|].
  destruct (search_replace_first_occurrence (Demo.replace_request "foo" "bar") Demo.machine
              "notes.txt" "foo" "bar" ["alpha foo foo"; "beta foo"])
    as [_ H]; try (vm_compute; reflexivity); try discriminate; try exact Hread.
  destruct (H [] "alpha foo foo" ["beta foo"] eq_refl ltac:(constructor) eq_refl)
    as (pre & post & Hline & Hmin & E).
  exists pre, post. split; [exact Hline|]. split; [exact Hmin|].
  rewrite E. reflexivity.
Defined.

(** ** grep_search, the scanner used without ripgrep *)

Section GrepFacts.
Context {World : Type} `{!Host World}.

(** One file adds at most [50 - matchCount] matches, all of that file, after
    the matches already there. *)
Lemma search_lines_cap filePath regex caseSensitive tokens scanErr :
  forall lineNumber matchCount result,
  exists new,
    GrepSearchResult.Matches
      (search_lines filePath regex caseSensitive tokens scanErr
         lineNumber matchCount result).2
      = (GrepSearchResult.Matches result ++ new)%list
    /\ Z.of_nat (length new) <= Z.max 0 (50 - matchCount)
    /\ Forall (λ m, GrepMatch.File m = filePath) new.
Proof.
  induction tokens as [|line rest IH]; intros lineNumber matchCount result;
    cbn [search_lines].
  - exists []. rewrite List.app_nil_r. repeat split; [cbn; lia|constructor].
  - destruct (Z.ltb_spec matchCount 50) as [Hlt|Hge].
    + destruct (regex line).
      * edestruct IH as (new & -> & Hlen & Hall).
        cbn [append_match GrepSearchResult.Matches].
        rewrite <- List.app_assoc. eexists. split; [reflexivity|].
        split; [cbn [length app]; lia|]. constructor; [reflexivity|exact Hall].
      * edestruct IH as (new & -> & Hlen & Hall).
        exists new. repeat split; [lia|exact Hall].
    + exists []. rewrite List.app_nil_r. repeat split; [cbn; lia|constructor].
Qed.

Lemma searchInFile_cap filePath regex caseSensitive result (w : World) :
  exists new,
    GrepSearchResult.Matches (searchInFile filePath regex caseSensitive result w).2
      = (GrepSearchResult.Matches result ++ new)%list
    /\ Z.of_nat (length new) <= 50
    /\ Forall (λ m, GrepMatch.File m = filePath) new.
Proof.
  unfold searchInFile. destruct (os_Open filePath w) as [file|err].
  - destruct (bufio.Scan file) as [tokens scanErr].
    destruct (search_lines_cap filePath regex caseSensitive tokens scanErr 0 0 result)
      as (new & E & Hlen & Hall).
    exists new. repeat split; [exact E|lia|exact Hall].
  - exists []. rewrite List.app_nil_r. repeat split; [cbn; lia|constructor].
Qed.

(** What the scanner guarantees: at most 50 matches for each path visited,
    so at most 50 in all when a single file is searched. *)
Lemma walk_cap regex caseSensitive includePattern excludePattern (w : World) visits :
  forall result,
    Z.of_nat (length (GrepSearchResult.Matches
                        (walk regex caseSensitive includePattern excludePattern w
                           visits result).2))
    <= Z.of_nat (length (GrepSearchResult.Matches result))
       + 50 * Z.of_nat (length visits).
Proof.
  induction visits as [|[path info] rest IH]; intros result; cbn [walk].
  - cbn. lia.
  - assert (Hcb : Z.of_nat (length (GrepSearchResult.Matches
                     (walk_callback regex caseSensitive includePattern excludePattern
                        w path info result).2))
                  <= Z.of_nat (length (GrepSearchResult.Matches result)) + 50).
    { unfold walk_callback. destruct info as [info|err]; [|cbn; lia].
      destruct (IsDir info); [cbn; lia|].
      repeat (match goal with |- context [if ?b then _ else _] => destruct b end);
        try (cbn; lia).
      destruct (searchInFile_cap path regex caseSensitive result w) as (new & -> & Hlen & _).
      rewrite length_app. lia. }
    destruct (walk_callback _ _ _ _ _ _ _ _) as [[err|] result1]; cbn [snd] in *.
    + cbn [length]. lia.
    + specialize (IH result1). cbn [length]. lia.
Qed.

End GrepFacts.

(** C9, on the code. The count of [searchInFile] starts anew in every file:
    a search over two files of 30 matching lines each reports 60 matches,
    more than the 50 that the specification and the description of the tool
    promise for a search. *)
Theorem fallback_grep_exceeds_50 :
  exists result,
    fallbackGrepSearch "needle" true EmptyString EmptyString "/src" Demo.corpus
      = inl result
    /\ GrepSearchResult.TotalMatches result = 60
    /\ Z.of_nat (length (GrepSearchResult.Matches result)) = 60
    /\ GrepSearchResult.MatchedFiles result = 2.
Proof. eexists. split; [vm_compute; reflexivity|]. repeat split. Qed.

(** Within a single file of 1000 matching lines the cap holds: 50 matches,
    those of the first 50 lines. *)
Example fallback_grep_single_file :
  exists result,
    fallbackGrepSearch "needle" true EmptyString EmptyString "/src" Demo.haystack
      = inl result
    /\ GrepSearchResult.TotalMatches result = 50
    /\ GrepMatch.Line <$> GrepSearchResult.Matches result = Z.of_nat <$> seq 1 50.
Proof. eexists. split; [vm_compute; reflexivity|]. split; reflexivity. Qed.

(** ** The client: accumulation of the streamed tool calls *)

Lemma view_lookup (toolCalls : list openai.ToolCall) j call :
  toolCalls !! j = Some call -> view toolCalls j = call.
Proof. unfold view. now intros ->. Qed.

Lemma view_grow toolCalls index j : view (grow toolCalls index) j = view toolCalls j.
Proof.
  unfold view, grow. destruct (decide (j < length toolCalls)%nat) as [Hlt|Hge].
  - now rewrite lookup_app_l.
  - rewrite lookup_app_r by lia. rewrite (lookup_ge_None_2 toolCalls j) by lia.
    destruct (replicate _ _ !! _) eqn:E; [|reflexivity].
    apply lookup_replicate in E as [-> _]. reflexivity.
Qed.

Lemma length_grow toolCalls index :
  Z.of_nat (length (grow toolCalls index))
    = Z.max (Z.of_nat (length toolCalls)) (index + 1).
Proof. unfold grow. rewrite length_app, length_replicate. lia. Qed.

Lemma update_view toolCalls index f :
  0 <= index -> (Z.to_nat index < length toolCalls)%nat ->
  exists toolCalls',
    update toolCalls index f = Some toolCalls'
    /\ length toolCalls' = length toolCalls
    /\ forall j, view toolCalls' j
         = if decide (j = Z.to_nat index) then f (view toolCalls j) else view toolCalls j.
Proof.
  intros H0 Hlt. unfold update.
  destruct (Z.ltb_spec index 0) as [|_]; [lia|].
  destruct (lookup_lt_is_Some_2 toolCalls _ Hlt) as [call Hcall]. rewrite Hcall.
  eexists. split; [reflexivity|]. split; [apply length_insert|].
  intros j. unfold view. case_decide as Hj.
  - subst j. rewrite list_lookup_insert_eq by exact Hlt. now rewrite Hcall.
  - now rewrite list_lookup_insert_ne by congruence.
Qed.

Lemma update_if_view (b : bool) toolCalls index f :
  0 <= index -> (Z.to_nat index < length toolCalls)%nat ->
  exists toolCalls',
    (if b then update toolCalls index f else Some toolCalls) = Some toolCalls'
    /\ length toolCalls' = length toolCalls
    /\ forall j, view toolCalls' j
         = if decide (j = Z.to_nat index)
           then (if b then f (view toolCalls j) else view toolCalls j)
           else view toolCalls j.
Proof.
  intros H0 Hlt. destruct b; [now apply update_view|].
  exists toolCalls. repeat split. intros j. now case_decide.
Qed.

(** One fragment with a position: the slice grows to hold the position, the
    call there takes the fragment in, the others stay. *)
Lemma merge_fragment_view toolCalls fragment index :
  openai.Index fragment = Some index -> 0 <= index ->
  exists toolCalls',
    merge_fragment toolCalls fragment = Some toolCalls'
    /\ Z.of_nat (length toolCalls') = Z.max (Z.of_nat (length toolCalls)) (index + 1)
    /\ forall j, view toolCalls' j
         = if decide (j = Z.to_nat index)
           then apply_fragment (view toolCalls j) fragment
           else view toolCalls j.
Proof.
  intros Hi H0. unfold merge_fragment. rewrite Hi.
  pose proof (length_grow toolCalls index) as Hlen.
  assert (Hlt : (Z.to_nat index < length (grow toolCalls index))%nat) by lia.
  destruct (update_if_view (has_ID fragment) _ index (set_ID fragment) H0 Hlt)
    as (c1 & E1 & L1 & V1).
  unfold has_ID in E1 at 1. rewrite E1. cbn [mbind option_bind].
  rewrite <- L1 in Hlt.
  destruct (update_if_view (has_Name fragment) _ index (set_Name fragment) H0 Hlt)
    as (c2 & E2 & L2 & V2).
  unfold has_Name in E2 at 1. rewrite E2. cbn [mbind option_bind].
  rewrite <- L2 in Hlt.
  destruct (update_if_view
              (negb (String.eqb (openai.Arguments (openai.Function fragment)) EmptyString))
              _ index (add_Arguments fragment) H0 Hlt)
    as (c3 & E3 & L3 & V3).
  rewrite E3. exists c3. split; [reflexivity|]. split; [lia|].
  intros j. rewrite V3, V2, V1, view_grow. unfold apply_fragment.
  case_decide; reflexivity.
Qed.

Lemma fragments_at_cons_eq j f rest :
  openai.Index f = Some (Z.of_nat j) ->
  fragments_at (Z.of_nat j) (f :: rest) = f :: fragments_at (Z.of_nat j) rest.
Proof.
  intros H. unfold fragments_at. cbn [List.filter].
  now rewrite bool_decide_eq_true_2.
Qed.

Lemma fragments_at_cons_ne i f rest :
  openai.Index f <> Some i ->
  fragments_at i (f :: rest) = fragments_at i rest.
Proof.
  intros H. unfold fragments_at. cbn [List.filter].
  now rewrite bool_decide_eq_false_2.
Qed.

(** A run of fragments with positions never panics; the slice ends with one
    call for each position in use, and the call at a position has taken in
    the fragments addressed to it, in the order of arrival. *)
Lemma merge_fragments_view fragments : forall toolCalls,
  Forall positioned fragments ->
  exists toolCalls',
    merge_fragments toolCalls fragments = Some toolCalls'
    /\ Z.of_nat (length toolCalls')
       = fold_left (λ n f, match openai.Index f with
                           | Some i => Z.max n (i + 1)
                           | None => n
                           end) fragments (Z.of_nat (length toolCalls))
    /\ forall j, view toolCalls' j
         = fold_left apply_fragment (fragments_at (Z.of_nat j) fragments) (view toolCalls j).
Proof.
  induction fragments as [|f rest IH]; intros toolCalls Hall; cbn [merge_fragments fold_left].
  - exists toolCalls. repeat split.
  - inversion Hall as [|? ? Hf Hrest]; subst.
    destruct (openai.Index f) as [index|] eqn:Hi.
    + pose proof (Hf index Hi) as H0.
      destruct (merge_fragment_view toolCalls f index Hi H0) as (c1 & E1 & L1 & V1).
      rewrite E1. cbn [mbind option_bind].
      destruct (IH c1 Hrest) as (c2 & E2 & L2 & V2).
      exists c2. split; [exact E2|]. split; [now rewrite L2, L1|].
      intros j. rewrite V2, V1. case_decide as Hj.
      * subst j. rewrite fragments_at_cons_eq by (rewrite Hi; f_equal; lia).
        reflexivity.
      * rewrite fragments_at_cons_ne by (rewrite Hi; intros [= ->]; lia).
        reflexivity.
    + assert (E1 : merge_fragment toolCalls f = Some toolCalls)
        by (unfold merge_fragment; now rewrite Hi).
      rewrite E1. cbn [mbind option_bind].
      destruct (IH toolCalls Hrest) as (c2 & E2 & L2 & V2).
      exists c2. split; [exact E2|]. split; [exact L2|].
      intros j. rewrite V2, fragments_at_cons_ne by (rewrite Hi; discriminate).
      reflexivity.
Qed.

Lemma merge_fragments_app a b : forall toolCalls,
  merge_fragments toolCalls (a ++ b)
    = merge_fragments toolCalls a ≫= λ toolCalls, merge_fragments toolCalls b.
Proof.
  induction a as [|f a IH]; intros toolCalls; cbn [merge_fragments app]; [reflexivity|].
  destruct (merge_fragment toolCalls f) as [c1|]; cbn [mbind option_bind]; [apply IH|reflexivity].
Qed.

(** Draining a stream merges its fragments, response after response. *)
Lemma drain_merge responses : forall content toolCalls,
  match merge_fragments toolCalls (fragments_of responses) with
  | Some toolCalls' =>
      exists content', drain (content, toolCalls) responses = Some (content', toolCalls')
  | None => drain (content, toolCalls) responses = None
  end.
Proof.
  induction responses as [|r rest IH]; intros content toolCalls.
  - cbn. now exists content.
  - unfold fragments_of. cbn [fmap list_fmap concat]. fold (fragments_of rest).
    rewrite merge_fragments_app. cbn [drain]. unfold receive.
    destruct (openai.Choices r) as [|delta others].
    + cbn [merge_fragments mbind option_bind]. apply IH.
    + destruct (merge_fragments toolCalls (openai.delta_ToolCalls delta)) as [c1|];
        cbn [mbind option_bind]; [apply IH|reflexivity].
Qed.

(** The fields of a call that took in a run of fragments. *)
Lemma apply_fragments_ID fragments : forall call,
  let call' := fold_left apply_fragment fragments call in
  match last_with has_ID fragments with
  | Some f => openai.ID call' = openai.ID f /\ openai.Type_ call' = openai.Type_ f
  | None => openai.ID call' = openai.ID call /\ openai.Type_ call' = openai.Type_ call
  end.
Proof.
  induction fragments as [|f rest IH]; intros call; cbn [fold_left last_with]; [now split|].
  specialize (IH (apply_fragment call f)). cbn zeta in IH.
  destruct (last_with has_ID rest) as [g|]; [exact IH|].
  destruct IH as [-> ->]. unfold apply_fragment.
  destruct (has_ID f), (has_Name f),
    (negb (String.eqb (openai.Arguments (openai.Function f)) EmptyString)); now split.
Qed.

Lemma apply_fragments_Name fragments : forall call,
  let call' := fold_left apply_fragment fragments call in
  openai.Name (openai.Function call')
    = match last_with has_Name fragments with
      | Some f => openai.Name (openai.Function f)
      | None => openai.Name (openai.Function call)
      end.
Proof.
  induction fragments as [|f rest IH]; intros call; cbn [fold_left last_with]; [reflexivity|].
  specialize (IH (apply_fragment call f)). cbn zeta in IH. rewrite IH.
  destruct (last_with has_Name rest) as [g|]; [reflexivity|].
  unfold apply_fragment.
  destruct (has_ID f), (has_Name f),
    (negb (String.eqb (openai.Arguments (openai.Function f)) EmptyString)); reflexivity.
Qed.

Lemma apply_fragments_Arguments fragments : forall call,
  openai.Arguments (openai.Function (fold_left apply_fragment fragments call))
    = openai.Arguments (openai.Function call) +:+ joined_arguments fragments.
Proof.
  induction fragments as [|f rest IH]; intros call; cbn [fold_left joined_arguments].
  - now rewrite str_app_nil_r.
  - rewrite IH. unfold apply_fragment.
    destruct (String.eqb_spec (openai.Arguments (openai.Function f)) EmptyString) as [E|E];
      destruct (has_ID f), (has_Name f); cbn;
      rewrite ?E, ?str_app_assoc; reflexivity.
Qed.

(** C2 (amended). For every stream whose tool-call fragments carry positions
    as indices (in any order, the argument text of a call split over several
    fragments), draining it never panics and yields one call for each
    position from 0 to the largest index received, also for the positions in
    between that no fragment addressed, which stay blank. In the call at a
    position, the identifier (with its type) and the name are the LAST
    non-empty ones among the fragments of that position, and the arguments
    are the argument texts of these fragments joined in the order of
    arrival. *)
Theorem accumulate_tool_calls (responses : list openai.ChatCompletionStreamResponse) :
  Forall positioned (fragments_of responses) ->
  exists content toolCalls,
    drain (EmptyString, []) responses = Some (content, toolCalls)
    /\ Z.of_nat (length toolCalls) = positions (fragments_of responses)
    /\ forall (j : nat) call,
         toolCalls !! j = Some call ->
         let mine := fragments_at (Z.of_nat j) (fragments_of responses) in
         openai.ID call
           = from_option openai.ID EmptyString (last_with has_ID mine)
         /\ openai.Type_ call
            = from_option openai.Type_ EmptyString (last_with has_ID mine)
         /\ openai.Name (openai.Function call)
            = from_option (λ f, openai.Name (openai.Function f)) EmptyString
                (last_with has_Name mine)
         /\ openai.Arguments (openai.Function call) = joined_arguments mine.
Proof.
  intros Hall.
  destruct (merge_fragments_view (fragments_of responses) [] Hall) as (calls & E & L & V).
  pose proof (drain_merge responses EmptyString []) as D. rewrite E in D.
  destruct D as [content D]. exists content, calls.
  split; [exact D|]. split; [exact L|].
  intros j call Hj mine. apply view_lookup in Hj. rewrite V in Hj. fold mine in Hj.
  subst call.
  pose proof (apply_fragments_ID mine (view [] j)) as HID.
  pose proof (apply_fragments_Name mine (view [] j)) as HN.
  pose proof (apply_fragments_Arguments mine (view [] j)) as HA.
  cbn zeta in HID, HN. rewrite HN, HA.
  destruct (last_with has_ID mine) as [f|]; destruct HID as [-> ->];
    destruct (last_with has_Name mine); repeat split.
Qed.

(** *** Accumulation on concrete streams *)

(** Fragments at indices 1 and 0 with the argument text of each in two and
    three pieces: two calls, each with its whole text. *)
Lemma accumulate_tool_calls_witness :
  Forall positioned (fragments_of Demo.two_calls)
  /\ exists content,
       drain (EmptyString, []) Demo.two_calls
         = Some (content,
                 [ {| openai.Index := None; openai.ID := "call_a"; openai.Type_ := "function";
                      openai.Function := {| openai.Name := "read_file";
                                            openai.Arguments := "{}" |} |};
                   {| openai.Index := None; openai.ID := "call_b"; openai.Type_ := "function";
                      openai.Function := {| openai.Name := "nonexistent";
                                            openai.Arguments := "null" |} |} ]).
Proof.
  assert (Hall : Forall positioned (fragments_of Demo.two_calls)).
  { repeat constructor; intros i [= <-]; lia. }
  split; [exact Hall|].
  destruct (accumulate_tool_calls Demo.two_calls Hall) as (content & calls & E & _).
  exists content. rewrite E. f_equal. f_equal.
  vm_compute in E. now injection E as _ <-.
Defined.

(** C2, as stated, fails twice. The identifier kept for a position is the
    last one received, not the first: [call_a] arrives before [call_b] at
    position 0, and [call_b] is kept. And the calls are as many as the
    positions up to the largest index, not as the distinct indices: fragments
    at indices 0 and 2 give three calls. *)
Lemma accumulate_keeps_last_and_fills_gaps :
  (exists content call,
     drain (EmptyString, []) Demo.twice_identified = Some (content, [call])
     /\ openai.ID <$> List.find has_ID (fragments_at 0 (fragments_of Demo.twice_identified))
        = Some "call_a"
     /\ openai.ID call = "call_b")
  /\ (exists content toolCalls,
        drain (EmptyString, []) Demo.with_gap = Some (content, toolCalls)
        /\ length toolCalls = 3%nat
        /\ size (distinct_indices (fragments_of Demo.with_gap)) = 2%nat).
Proof.
  split.
  - do 2 eexists. split; [vm_compute; reflexivity|]. split; reflexivity.
  - do 2 eexists. split; [vm_compute; reflexivity|]. split; [reflexivity|].
    vm_compute. reflexivity.
Qed.

(** ** The client: the conversation loop *)

Section ConversationFacts.
Context {World : Type} `{!Transport World}.

(** A stream whose fragments carry positions is drained without a panic. *)
Lemma drain_positioned (responses : list openai.ChatCompletionStreamResponse) :
  Forall positioned (fragments_of responses) ->
  exists content toolCalls, drain (EmptyString, []) responses = Some (content, toolCalls).
Proof.
  intros Hall.
  destruct (merge_fragments_view (fragments_of responses) [] Hall) as (calls & E & _).
  pose proof (drain_merge responses EmptyString []) as D. rewrite E in D.
  destruct D as [content D]. now exists content, calls.
Qed.

(** From iteration [5 - n] on, the loop needs [n + 1] turns of fuel, opens at
    most [n] more streams, and returns [nil] if each of them was delivered. *)
Lemma conversation_bounded (n : nat) :
  forall fuel (c : Client) toolDefs iteration log messages (w : World),
    iteration = maxIterations - Z.of_nat n -> (n < fuel)%nat ->
    exists run new,
      conversation fuel c toolDefs iteration log messages w = Some run
      /\ received run = (log ++ new)%list
      /\ (length new <= n)%nat
      /\ (Forall delivered new -> outcome run = Returned None).
Proof.
  induction n as [|n IH]; intros fuel c toolDefs iteration log messages w Hi Hfuel;
    (destruct fuel as [|fuel]; [lia|]); cbn [conversation].
  - destruct (Z.ltb_spec iteration maxIterations) as [Hlt|_]; [lia|].
    do 2 eexists. split; [reflexivity|]. cbn [received outcome].
    split; [symmetry; apply List.app_nil_r|]. split; [reflexivity|reflexivity].
  - destruct (Z.ltb_spec iteration maxIterations) as [_|Hge]; [|lia].
    destruct (CreateChatCompletionStream _ w) as [[stream|err] w1].
    + destruct (drain (EmptyString, []) (openai.responses stream))
        as [[contentBuffer toolCalls]|] eqn:Ed.
      * destruct (String.eqb_spec (openai.final_error stream) "EOF") as [Heof|Hne];
          cbn [negb].
        -- destruct (Z.eqb_spec (Z.of_nat (length toolCalls)) 0) as [Hz|Hnz].
           ++ exists {| outcome := Returned None; received := (log ++ [inl stream])%list;
                        history := messages; world := w1 |}, [inl stream].
              repeat split. cbn. lia.
           ++ destruct (run_tool_calls c toolCalls _ w1) as [messages2 w2].
              destruct (IH fuel c toolDefs (iteration + 1) (log ++ [inl stream])%list
                          messages2 w2) as (run & new & E & Hrec & Hlen & Hout);
                [lia|lia|].
              exists run, (inl stream :: new). split; [exact E|].
              split; [rewrite Hrec, <- List.app_assoc; reflexivity|].
              split; [cbn [length]; lia|].
              intros Hall. inversion Hall; subst. now apply Hout.
        -- do 2 eexists. split; [reflexivity|]. cbn [received outcome].
           split; [reflexivity|]. split; [cbn; lia|].
           intros Hall. inversion Hall as [|? ? Hd _]; subst.
           destruct Hd as [Heof _]. contradiction.
      * do 2 eexists. split; [reflexivity|]. cbn [received outcome].
        split; [reflexivity|]. split; [cbn; lia|].
        intros Hall. inversion Hall as [|? ? Hd _]; subst. destruct Hd as [_ Hpos].
        destruct (drain_positioned _ Hpos) as (content & calls & E). congruence.
    + do 2 eexists. split; [reflexivity|]. cbn [received outcome].
      split; [reflexivity|]. split; [cbn; lia|].
      intros Hall. inversion Hall as [|? ? Hd _]; subst. destruct Hd.
Qed.

(** C1. The conversation loop terminates: six turns of fuel are enough for
    [StreamQueryWithTools] to return, whatever the provider answers and
    whatever the tools do, after at most 5 rounds; this holds in particular
    when the stream of every round contains tool calls. When every round's
    response was delivered (a stream up to its regular end, whose fragments
    carry positions), the call returns [nil], also when it stops at the cap
    of 5 rounds. *)
Theorem StreamQueryWithTools_terminates (fuel : nat) (c : Client) (query : string)
    (w : World) :
  (6 <= fuel)%nat ->
  exists run,
    StreamQueryWithTools fuel c query w = Some run
    /\ 0 <= rounds run <= maxIterations
    /\ (Forall delivered (received run) -> outcome run = Returned None).
Proof.
  intros Hfuel. unfold StreamQueryWithTools.
  edestruct (conversation_bounded 5 fuel c) as (run & new & E & Hrec & Hlen & Hout);
    [| |exists run; split; [exact E|]].
  - reflexivity.
  - lia.
  - cbn [app] in Hrec. unfold rounds, maxIterations. rewrite Hrec.
    split; [lia|]. intros Hall. apply Hout. exact Hall.
Qed.

End ConversationFacts.

(** *** The loop on the small machine *)

(** A model that asks for a tool in every round is cut off after 5 rounds,
    and the call returns [nil]: the history holds the two opening messages
    and, for each round, the assistant's message and the reply of the tool. *)
Example insistent_model_is_cut_off :
  exists run,
    StreamQueryWithTools 6 Demo.client "fix it" Demo.insistent = Some run
    /\ outcome run = Returned None
    /\ rounds run = 5
    /\ received run = replicate 5 (inl Demo.asks_again)
    /\ length (history run) = 12%nat
    /\ openai.Content <$> last (history run)
       = Some "Tool execution failed: tool 'nonexistent' not found".
Proof. eexists. split; [vm_compute; reflexivity|]. repeat split. Qed.

(** Two calls in the first round, an answer in the second: both calls are
    executed in the order of their positions, and the loop ends after the
    round without calls. *)
Example obliging_model_ends :
  exists run,
    StreamQueryWithTools 6 Demo.client "fix it" Demo.obliging = Some run
    /\ outcome run = Returned None
    /\ rounds run = 2
    /\ (λ m, (openai.Role m, openai.ToolCallID m)) <$> history run
       = [("system", EmptyString); ("user", EmptyString); ("assistant", EmptyString);
          ("tool", "call_a"); ("tool", "call_b")].
Proof. eexists. split; [vm_compute; reflexivity|]. repeat split. Qed.

(** Outside the delivered responses: a stream that breaks makes the call
    return the error at once, and a fragment with a negative index makes the
    assignment to [toolCalls[index]] panic. *)
Example broken_stream_is_an_error :
  exists run,
    StreamQueryWithTools 6 Demo.client "fix it" Demo.broken = Some run
    /\ outcome run = Returned (Some "stream error: unexpected EOF")
    /\ rounds run = 1.
Proof. eexists. split; [vm_compute; reflexivity|]. repeat split. Qed.

Example negative_index_panics :
  exists run,
    StreamQueryWithTools 6 Demo.client "fix it" Demo.misnumbered = Some run
    /\ outcome run = Panicked
    /\ rounds run = 1.
Proof. eexists. split; [vm_compute; reflexivity|]. repeat split. Qed.

Lemma StreamQueryWithTools_terminates_witness :
  (6 <= 6)%nat
  /\ exists run,
       StreamQueryWithTools 6 Demo.client "fix it" Demo.insistent = Some run
       /\ 0 <= rounds run <= maxIterations
       /\ (Forall delivered (received run) -> outcome run = Returned None).
Proof.
  split; [lia|].
  apply (StreamQueryWithTools_terminates 6 Demo.client "fix it" Demo.insistent). lia.
Defined.

(** *** The manager on the small machine *)

(** [execute("nonexistent", {})] on the manager with the four tools. *)
Lemma ExecuteTool_not_found_witness :
  GetTool "nonexistent" Demo.manager = None
  /\ ExecuteTool "nonexistent" (Some ∅) Demo.manager Demo.machine
     = ({| result_Name := "nonexistent"; Result := None;
           Error := "tool 'nonexistent' not found"; Success := false |},
        None, Demo.manager, Demo.machine).
Proof.
  assert (Hg : GetTool "nonexistent" Demo.manager = None)
    by (unfold Demo.manager; rewrite register_all_first; reflexivity).
  split; [exact Hg|].
  destruct (ExecuteTool_not_found Demo.manager "nonexistent" (Some ∅) Demo.machine Hg)
    as [H _].
  exact H.
Defined.

(** A second registration of [read_file] is refused and the first one
    stays. *)
Example register_twice :
  (register_all [("read_file", NewReadFileTool); ("read_file", NewWriteFileTool)]
     (NewDefaultToolManager (World := Demo.Machine) "/work")).1
  = [None; Some "tool 'read_file' already registered"].
Proof. reflexivity. Qed.

(** * Further properties *)

(** ** The tool manager, beyond registration *)

Section ManagerMore.
Context {World Payload : Type}.
Implicit Types (tm : DefaultToolManager World Payload) (tool : Tool World Payload).

(** The arguments that [ExecuteTool] hands to the function of a tool. *)
Lemma injected_lookup (params : option Params) (dir k : string) :
  (<["__work_dir__" := VString dir]> (match params with None => ∅ | Some p => p end) : Params)
    !! k
  = if decide (k = "__work_dir__") then Some (VString dir)
    else match params with None => None | Some p => p !! k end.
Proof.
  case_decide as Hk.
  - subst. apply lookup_insert_eq.
  - rewrite lookup_insert_ne by congruence. destruct params; [reflexivity|apply lookup_empty].
Qed.

(** [ExecuteTool] never returns a program-level error and never changes the
    manager, whatever the name, the arguments and the tool do; the result
    carries the name asked for, and it reports success exactly when the name
    is registered and the function of the tool returned no error, with the
    value of the function as its result. *)
Theorem ExecuteTool_failures_are_results tm (name : string) (params : option Params)
    (w : World) :
  (ExecuteTool name params tm w).1.1.2 = None
  /\ (ExecuteTool name params tm w).1.2 = tm
  /\ result_Name (ExecuteTool name params tm w).1.1.1 = name
  /\ (Success (ExecuteTool name params tm w).1.1.1 = true
      <-> exists tool payload,
            GetTool name tm = Some tool
            /\ (Function tool
                  (<["__work_dir__" := VString (workDir tm)]>
                     (match params with None => ∅ | Some p => p end)) w).1 = inl payload
            /\ Result (ExecuteTool name params tm w).1.1.1 = Some payload)
  /\ (Success (ExecuteTool name params tm w).1.1.1 = false ->
      Result (ExecuteTool name params tm w).1.1.1 = None).
Proof.
  unfold ExecuteTool, GetTool. destruct (tools tm !! name) as [tool|] eqn:E; cbn.
  - destruct (Function tool _ w) as [[payload|err] w'] eqn:EF; cbn;
      repeat split; try discriminate.
    + intros _. exists tool, payload. now rewrite EF.
    + intros (t & p & [= <-] & H & _). rewrite EF in H. discriminate.
  - repeat split; try discriminate. intros (t & p & H & _). discriminate.
Qed.

(** After [SetWorkDirectory dir], a registered tool is run on arguments in
    which [__work_dir__] is [dir], whatever the caller had put under that
    key, and every other key is as the caller gave it (none, for a [nil]
    map); the world after the call is the one the function of the tool
    left. *)
Theorem ExecuteTool_injects_work_dir tm (name dir : string) tool
    (params : option Params) (w : World) :
  GetTool name tm = Some tool ->
  exists given : Params,
    assert_string given "__work_dir__" = (dir, true)
    /\ (forall k, k <> "__work_dir__" ->
          given !! k = match params with None => None | Some p => p !! k end)
    /\ (ExecuteTool name params (SetWorkDirectory dir tm) w).2 = (Function tool given w).2
    /\ Result (ExecuteTool name params (SetWorkDirectory dir tm) w).1.1.1
       = match (Function tool given w).1 with inl payload => Some payload | inr _ => None end
    /\ Error (ExecuteTool name params (SetWorkDirectory dir tm) w).1.1.1
       = match (Function tool given w).1 with inl _ => EmptyString | inr err => err end.
Proof.
  unfold GetTool. intros Hg.
  exists (<["__work_dir__" := VString dir]> (match params with None => ∅ | Some p => p end)).
  split; [unfold assert_string; now rewrite lookup_insert_eq|].
  split.
  { intros k Hk. rewrite injected_lookup. case_decide; [contradiction|reflexivity]. }
  unfold ExecuteTool, SetWorkDirectory. cbn [tools workDir]. rewrite Hg.
  destruct (Function tool _ w) as [[payload|err] w']; repeat split.
Qed.

(** [ListTools] lists the schemas of the registered tools and nothing else;
    a successful registration adds the schema of the new tool to the list, a
    refused one leaves the list as it was. *)
Theorem ListTools_registered tm (name : string) tool :
  (forall schema,
     schema ∈ ListTools tm
     <-> exists n t, GetTool n tm = Some t /\ Schema t = schema)
  /\ match RegisterTool name tool tm with
     | (None, tm') => ListTools tm' ≡ₚ Schema tool :: ListTools tm
     | (Some _, tm') => ListTools tm' = ListTools tm
     end.
Proof.
  split.
  - intros schema. unfold ListTools, GetTool. rewrite list_elem_of_fmap. split.
    + intros ([n t] & -> & Hin). apply elem_of_map_to_list in Hin. now exists n, t.
    + intros (n & t & Hl & <-). exists (n, t). split; [reflexivity|].
      now apply elem_of_map_to_list.
  - unfold RegisterTool, ListTools. destruct (tools tm !! name) eqn:E; [reflexivity|].
    cbn [tools]. rewrite map_to_list_insert by exact E. reflexivity.
Qed.

End ManagerMore.

(** ** The registry *)

Section RegistryFacts.
Context {World : Type} `{!Host World}.
Variables t_cmd t_dir t_grep t_search : Tool World Payload.

(** When the names are all free, [RegisterAllTools] is the run of its eight
    registrations. *)
Lemma RegisterAllTools_fresh (tm : DefaultToolManager World Payload) :
  (forall n, In n (default_tools t_cmd t_dir t_grep t_search).*1 -> GetTool n tm = None) ->
  RegisterAllTools t_cmd t_dir t_grep t_search tm
    = (None, (register_all (default_tools t_cmd t_dir t_grep t_search) tm).2).
Proof.
  intros Hfree. unfold RegisterAllTools, default_tools, register_all.
  assert (Hstep : forall (n : string) (t : Tool World Payload) m,
            tools m !! n = None ->
            RegisterTool n t m = (None, {| tools := <[n := t]> (tools m); workDir := workDir m |})).
  { intros n t m Hn. unfold RegisterTool. now rewrite Hn. }
  unfold GetTool in Hfree.
  repeat (rewrite Hstep;
          [|cbn [tools]; rewrite ?lookup_insert_ne by discriminate;
            apply Hfree; cbn; tauto]).
  reflexivity.
Qed.

(** On a new manager [RegisterAllTools] succeeds and the eight tools can be
    looked up under their names, each the one constructed for that name; a
    second call is refused at the first tool, with the error of
    [RegisterTool] wrapped, and changes nothing. *)
Theorem RegisterAllTools_once (cwd : string) :
  exists tm,
    RegisterAllTools t_cmd t_dir t_grep t_search (NewDefaultToolManager cwd) = (None, tm)
    /\ GetTool "read_file" tm = Some NewReadFileTool
    /\ GetTool "run_terminal_cmd" tm = Some t_cmd
    /\ GetTool "list_dir" tm = Some t_dir
    /\ GetTool "grep_search" tm = Some t_grep
    /\ GetTool "search_replace" tm = Some NewSearchReplaceTool
    /\ GetTool "file_search" tm = Some t_search
    /\ GetTool "delete_file" tm = Some NewDeleteFileTool
    /\ GetTool "write_file" tm = Some NewWriteFileTool
    /\ length (ListTools tm) = 8%nat
    /\ GetWorkDirectory tm = cwd
    /\ RegisterAllTools t_cmd t_dir t_grep t_search tm
       = (Some "failed to register read_file tool: tool 'read_file' already registered", tm).
Proof.
  eexists. split.
  { apply RegisterAllTools_fresh. intros n _. unfold GetTool. apply lookup_empty. }
  set (tm := (register_all _ _).2).
  assert (Hget : forall n, GetTool n tm
                   = first_offer n (default_tools t_cmd t_dir t_grep t_search)).
  { intros n. unfold tm. rewrite register_all_first. unfold GetTool. cbn [tools NewDefaultToolManager].
    now rewrite lookup_empty. }
  repeat (split; [rewrite Hget; reflexivity|]).
  split; [reflexivity|]. split; [reflexivity|].
  unfold RegisterAllTools.
  rewrite (RegisterTool_duplicate "read_file" NewReadFileTool tm NewReadFileTool)
    by (rewrite Hget; reflexivity).
  reflexivity.
Qed.

End RegistryFacts.

(** *** The manager on the small machine *)

(** The caller's [__work_dir__] is replaced: asked to read [big.txt] with
    [/etc] under that key, the tool is given the directory of the manager. *)
Lemma ExecuteTool_injects_work_dir_witness :
  GetTool "read_file" Demo.manager = Some NewReadFileTool
  /\ exists given : Params,
       assert_string given "__work_dir__" = ("/srv", true)
       /\ given !! "target_file" = Some (VString "big.txt")
       /\ (ExecuteTool "read_file"
             (Some {[ "target_file" := VString "big.txt"; "__work_dir__" := VString "/etc" ]})
             (SetWorkDirectory "/srv" Demo.manager) Demo.machine).2
          = (readFileFunction given Demo.machine).2.
Proof.
  assert (Hg : GetTool "read_file" Demo.manager = Some NewReadFileTool)
    by (unfold Demo.manager; rewrite register_all_first; reflexivity).
  split; [exact Hg|].
  destruct (ExecuteTool_injects_work_dir Demo.manager "read_file" "/srv" NewReadFileTool
              (Some {[ "target_file" := VString "big.txt"; "__work_dir__" := VString "/etc" ]})
              Demo.machine Hg) as (given & H1 & H2 & H3 & _).
  exists given. split; [exact H1|]. split; [|exact H3].
  rewrite H2 by discriminate. reflexivity.
Defined.

(** ** read_file, beyond the two limits *)

Section ReadFileMore.
Context {World : Type} `{!Host World}.

(** [read_file] only reads: whatever the arguments and the state of the
    machine, the world after the call is the world before it. *)
Theorem read_file_reads_only params (w : World) :
  (readFileFunction params w).2 = w.
Proof.
  unfold readFileFunction.
  destruct (assert_string params "target_file") as [targetFile ok].
  destruct (negb ok || String.eqb targetFile EmptyString); [reflexivity|].
  cbn zeta.
  destruct (os_Stat _ w); try reflexivity;
    (destruct (os_Open _ w) as [file|?]; [|reflexivity]);
    (destruct (bufio.Scan file) as [lines [?|]]; [reflexivity|]);
    (destruct (assert_bool params "should_read_entire_file").1; [reflexivity|]);
    now destruct (readRange _ _ _ _).
Qed.

(** With [should_read_entire_file] set, all the lines of a readable file are
    returned, joined by line feeds, as lines 1 to the number of lines; the
    range given in the arguments is not looked at, and neither the limit of
    250 lines nor the minimum of 200 applies. *)
Theorem read_file_entire params (w : World) targetFile lines :
  assert_string params "target_file" = (targetFile, true) ->
  targetFile <> EmptyString ->
  (assert_bool params "should_read_entire_file").1 = true ->
  readable (target_path params targetFile) w lines ->
  readFileFunction params w
    = (inl (PReadFile
              {| ReadFileResult.FilePath := target_path params targetFile;
                 ReadFileResult.TotalLines := Z.of_nat (length lines);
                 ReadFileResult.ReadEntireFile := true;
                 ReadFileResult.Content := strings.Join lines LF;
                 ReadFileResult.StartLine := 1;
                 ReadFileResult.EndLine := Z.of_nat (length lines);
                 ReadFileResult.LinesNotShown := EmptyString |}), w).
Proof.
  intros Ht Hne Hall (Hstat & file & Hopen & Hscan).
  unfold readFileFunction, target_path in *. rewrite Ht. cbn [negb orb].
  apply String.eqb_neq in Hne. rewrite Hne, Hall. cbn beta iota zeta.
  destruct (os_Stat _ w) eqn:Es; try (exfalso; eapply Hstat; reflexivity);
    rewrite Hopen, Hscan; reflexivity.
Qed.

(** A range request that succeeds returns exactly the lines of the clamped
    range: as many lines as the range has, each the line of the file at its
    place, none dropped and none added; the result gives the bounds used and
    names the lines before and after that are not shown. *)
Theorem read_file_range_content params (w : World) targetFile lines r :
  range_request params targetFile ->
  readable (target_path params targetFile) w lines ->
  (readFileFunction params w).1 = inl (PReadFile r) ->
  let total := Z.of_nat (length lines) in
  let s := Z.max 1 (int_param params "start_line_one_indexed") in
  let e := Z.min (int_param params "end_line_one_indexed_inclusive") total in
  1 <= s <= e /\ e <= total /\ e - s + 1 <= 250
  /\ ReadFileResult.StartLine r = s
  /\ ReadFileResult.EndLine r = e
  /\ ReadFileResult.TotalLines r = total
  /\ (exists selected,
        ReadFileResult.Content r = strings.Join selected LF
        /\ Z.of_nat (length selected) = e - s + 1
        /\ forall (k : nat) line,
             selected !! k = Some line -> lines !! (Z.to_nat (s - 1) + k)%nat = Some line)
  /\ ReadFileResult.LinesNotShown r
     = strings.Join
         ((if 1 <? s then ["Lines 1-" +:+ pretty (s - 1) +:+ " not shown"] else [])
          ++ (if e <? total
              then ["Lines " +:+ pretty (e + 1) +:+ "-" +:+ pretty total +:+ " not shown"]
              else []))%list "; ".
Proof.
  intros Hreq Hread Hr total s e.
  rewrite (readFileFunction_range params w targetFile lines Hreq Hread) in Hr.
  cbn [fst] in Hr.
  assert (Hr' : readRange (target_path params targetFile) lines
                  (int_param params "start_line_one_indexed")
                  (int_param params "end_line_one_indexed_inclusive") = inl r)
    by (destruct (readRange _ _ _ _); congruence).
  clear Hr. rename Hr' into Hr.
  unfold readRange in Hr. fold total in Hr.
  assert (Hs : (if int_param params "start_line_one_indexed" <? 1 then 1
                else int_param params "start_line_one_indexed") = s)
    by (subst s; destruct (Z.ltb_spec (int_param params "start_line_one_indexed") 1); lia).
  rewrite Hs in Hr.
  destruct (Z.ltb_spec (int_param params "end_line_one_indexed_inclusive") s) as [|H1];
    [discriminate|].
  destruct (Z.ltb_spec total s) as [|H2]; [discriminate|].
  assert (He : (if total <? int_param params "end_line_one_indexed_inclusive" then total
                else int_param params "end_line_one_indexed_inclusive") = e)
    by (subst e; destruct (Z.ltb_spec total (int_param params "end_line_one_indexed_inclusive")); lia).
  rewrite He in Hr.
  destruct (Z.ltb_spec 250 (e - s + 1)) as [|H3]; [discriminate|].
  destruct ((e - s + 1 <? 200) && (200 <=? total) && (e <? total)); [discriminate|].
  injection Hr as <-. cbn.
  assert (Hse : s <= e) by (subst e; lia).
  assert (Hs1 : 1 <= s) by (subst s; lia).
  assert (Het : e <= total) by (subst e; lia).
  repeat (split; [first [lia|reflexivity]|]).
  split; [|reflexivity].
  eexists. split; [reflexivity|]. split.
  - rewrite length_take, length_drop. unfold total in *. lia.
  - intros k line Hk. apply lookup_take_Some in Hk as [Hk _].
    now rewrite lookup_drop in Hk.
Qed.

(** A range request on a file without lines always fails: no range is valid
    in an empty file. *)
Theorem read_file_range_of_empty_file params (w : World) targetFile :
  range_request params targetFile ->
  readable (target_path params targetFile) w [] ->
  exists msg, readFileFunction params w = (inr msg, w).
Proof.
  intros Hreq Hread. rewrite (readFileFunction_range params w targetFile [] Hreq Hread).
  pose proof (readRange_cases (target_path params targetFile) []
                (int_param params "start_line_one_indexed")
                (int_param params "end_line_one_indexed_inclusive")) as (C1 & C2 & _).
  cbn [length] in C1, C2.
  destruct (Z.lt_ge_cases (int_param params "end_line_one_indexed_inclusive")
              (Z.max 1 (int_param params "start_line_one_indexed"))) as [H1|H1].
  - rewrite (C1 H1). eauto.
  - rewrite C2 by lia. eauto.
Qed.

(** A target that does not exist is an error that names the resolved path. *)
Theorem read_file_not_found params (w : World) targetFile err :
  assert_string params "target_file" = (targetFile, true) ->
  targetFile <> EmptyString ->
  os_Stat (target_path params targetFile) w = StatNotExist err ->
  readFileFunction params w
    = (inr ("file not found: " +:+ target_path params targetFile), w).
Proof.
  intros Ht Hne Hs. unfold readFileFunction, target_path in *. rewrite Ht. cbn [negb orb].
  apply String.eqb_neq in Hne. rewrite Hne. cbn zeta. now rewrite Hs.
Qed.

(** The tools refuse a call whose required text argument is absent, is not
    a text or (for the paths and the text searched) is empty, before they
    look at the machine. *)
Theorem required_arguments params (w : World) :
  ((assert_string params "target_file").2 = false
   \/ (assert_string params "target_file").1 = EmptyString ->
   readFileFunction params w = (inr "target_file is required", w)
   /\ writeFileFunction params w = (inr "target_file is required", w)
   /\ deleteFileFunction params w = (inr "target_file is required", w))
  /\ ((assert_string params "target_file").2 = true ->
      (assert_string params "target_file").1 <> EmptyString ->
      (assert_string params "content").2 = false ->
      writeFileFunction params w = (inr "content is required", w))
  /\ ((assert_string params "file_path").2 = false
      \/ (assert_string params "file_path").1 = EmptyString ->
      searchReplaceFunction params w = (inr "file_path is required", w))
  /\ ((assert_string params "file_path").2 = true ->
      (assert_string params "file_path").1 <> EmptyString ->
      (assert_string params "old_string").2 = false
      \/ (assert_string params "old_string").1 = EmptyString ->
      searchReplaceFunction params w = (inr "old_string is required", w)).
Proof.
  unfold readFileFunction, writeFileFunction, deleteFileFunction, searchReplaceFunction.
  destruct (assert_string params "target_file") as [t okt].
  destruct (assert_string params "file_path") as [f okf].
  destruct (assert_string params "content") as [c okc].
  destruct (assert_string params "old_string") as [o oko].
  cbn [fst snd]. repeat split.
  - destruct H as [->| ->]; [reflexivity|]. now rewrite orb_true_r.
  - destruct H as [->| ->]; [reflexivity|]. now rewrite orb_true_r.
  - destruct H as [->| ->]; [reflexivity|]. now rewrite orb_true_r.
  - intros -> Hne ->. apply String.eqb_neq in Hne. now rewrite Hne.
  - intros [->| ->]; [reflexivity|]. now rewrite orb_true_r.
  - intros -> Hne Ho. apply String.eqb_neq in Hne. rewrite Hne. cbn [negb orb].
    destruct Ho as [->| ->]; [reflexivity|]. now rewrite orb_true_r.
Qed.

End ReadFileMore.

(** *** [read_file] on the small machines *)

(** The whole of the 300 lines of [big.txt], though the range in the
    arguments is 7 to 3. *)
Lemma read_file_entire_witness :
  readable (target_path Lab.whole_request "big.txt") Demo.machine (replicate 300 "line")
  /\ exists result,
       readFileFunction Lab.whole_request Demo.machine = (inl (PReadFile result), Demo.machine)
       /\ ReadFileResult.StartLine result = 1
       /\ ReadFileResult.EndLine result = 300.
Proof.
  assert (Hread : readable (target_path Lab.whole_request "big.txt") Demo.machine
                    (replicate 300 "line")).
  { split; [intros err; vm_compute; discriminate|].
    eexists. split; vm_compute; reflexivity. }
  split; [exact Hread|].
  eexists. rewrite (read_file_entire Lab.whole_request Demo.machine "big.txt"
                      (replicate 300 "line"));
    [split; [reflexivity|split; reflexivity]
    |vm_compute; reflexivity|discriminate|vm_compute; reflexivity|exact Hread].
Defined.

(** Lines 5 to 254 of [big.txt]: 250 lines come back. *)
Lemma read_file_range_content_witness :
  exists r selected,
    (readFileFunction (Demo.read_request 5 254) Demo.machine).1 = inl (PReadFile r)
    /\ ReadFileResult.Content r = strings.Join selected LF
    /\ Z.of_nat (length selected) = 250.
Proof.
  destruct (demo_big_readable 5 254) as [Hreq Hread].
  assert (exists r, (readFileFunction (Demo.read_request 5 254) Demo.machine).1
                     = inl (PReadFile r)) as [r Hr]
    by (eexists; vm_compute; reflexivity).
  destruct (read_file_range_content (Demo.read_request 5 254) Demo.machine "big.txt"
              (replicate 300 "line") r Hreq Hread Hr)
    as (_ & _ & _ & _ & _ & _ & (selected & Hc & Hl & _) & _).
  exists r, selected. split; [exact Hr|]. split; [exact Hc|exact Hl].
Defined.

Lemma read_file_range_of_empty_file_witness :
  range_request (<["should_read_entire_file" := VBool false]> (Lab.target "empty.txt"))
    "empty.txt"
  /\ exists msg,
       readFileFunction (<["should_read_entire_file" := VBool false]> (Lab.target "empty.txt"))
         Lab.machine = (inr msg, Lab.machine).
Proof.
  assert (Hreq : range_request
                   (<["should_read_entire_file" := VBool false]> (Lab.target "empty.txt"))
                   "empty.txt").
  { split; [vm_compute; reflexivity|]. split; [discriminate|vm_compute; reflexivity]. }
  split; [exact Hreq|].
  apply (read_file_range_of_empty_file _ Lab.machine "empty.txt" Hreq).
  split; [intros err; vm_compute; discriminate|].
  eexists. split; vm_compute; reflexivity.
Defined.

Lemma read_file_not_found_witness :
  readFileFunction (Lab.target "missing.txt") Lab.machine
    = (inr "file not found: /work/missing.txt", Lab.machine).
Proof.
  rewrite (read_file_not_found (Lab.target "missing.txt") Lab.machine "missing.txt"
             "stat /work/missing.txt: no such file or directory");
    [reflexivity|vm_compute; reflexivity|discriminate|vm_compute; reflexivity].
Defined.

(** Without any argument every tool asks for its first one. *)
Lemma required_arguments_witness :
  readFileFunction ∅ Demo.machine = (inr "target_file is required", Demo.machine)
  /\ writeFileFunction ∅ Demo.machine = (inr "target_file is required", Demo.machine)
  /\ deleteFileFunction ∅ Demo.machine = (inr "target_file is required", Demo.machine)
  /\ searchReplaceFunction ∅ Demo.machine = (inr "file_path is required", Demo.machine).
Proof.
  destruct (required_arguments ∅ Demo.machine) as (H1 & _ & H3 & _).
  destruct H1 as (R & W & D); [left; reflexivity|].
  split; [exact R|]. split; [exact W|]. split; [exact D|].
  apply H3. left. reflexivity.
Defined.

(** ** write_file and delete_file: the security checks and the paths around
    them *)

Section SecurityFacts.
Context {World : Type} `{!Host World}.

Lemma find_None_iff {A} (f : A -> bool) (l : list A) :
  find f l = None <-> forall x, In x l -> f x = false.
Proof.
  induction l as [|y l IH]; cbn; [tauto|].
  destruct (f y) eqn:E.
  - split; [discriminate|]. intros H. specialize (H y (or_introl eq_refl)). congruence.
  - rewrite IH. split.
    + intros H x [<-|Hin]; [exact E|now apply H].
    + intros H x Hin. apply H. now right.
Qed.

Lemma find_eqb_None_iff (x : string) (l : list string) :
  find (String.eqb x) l = None <-> ~ In x l.
Proof.
  rewrite find_None_iff. split.
  - intros H Hin. specialize (H x Hin). now rewrite String.eqb_refl in H.
  - intros Hn y Hin. apply String.eqb_neq. intros ->. contradiction.
Qed.

(** The check of [write_file] passes exactly when nothing in it objects. *)
Lemma performWriteSecurityChecks_None (filePath : string) (w : World) :
  performWriteSecurityChecks filePath w = None
  <-> (exists absPath,
         filepath_Abs filePath w = inl absPath
         /\ forall d, In d write_dangerousPaths -> strings.HasPrefix absPath d = false)
      /\ ~ In (strings.ToLower (filepath.Ext filePath)) dangerousExtensions
      /\ ~ In (strings.ToLower (filepath.Base filePath)) write_systemFiles
      /\ forall c, In c dangerousChars -> strings.Contains (filepath.Base filePath) c = false.
Proof.
  unfold performWriteSecurityChecks.
  destruct (filepath_Abs filePath w) as [absPath|err].
  - destruct (find (strings.HasPrefix absPath) write_dangerousPaths) eqn:E1.
    { split; [discriminate|]. intros ((a & [= <-] & Ha) & _).
      apply find_None_iff in Ha. congruence. }
    destruct (find (String.eqb (strings.ToLower (filepath.Ext filePath)))
                dangerousExtensions) eqn:E2.
    { split; [discriminate|]. intros (_ & Hn & _).
      apply find_eqb_None_iff in Hn. congruence. }
    destruct (find (String.eqb (strings.ToLower (filepath.Base filePath)))
                write_systemFiles) eqn:E3.
    { split; [discriminate|]. intros (_ & _ & Hn & _).
      apply find_eqb_None_iff in Hn. congruence. }
    destruct (find (strings.Contains (filepath.Base filePath)) dangerousChars) eqn:E4.
    { split; [discriminate|]. intros (_ & _ & _ & Hn).
      apply find_None_iff in Hn. congruence. }
    split; [intros _|reflexivity].
    split; [exists absPath; split; [reflexivity|now apply find_None_iff]|].
    split; [now apply find_eqb_None_iff|].
    split; [now apply find_eqb_None_iff|now apply find_None_iff].
  - split; [discriminate|]. intros ((a & Ha & _) & _). discriminate.
Qed.

(** What [write_file] lets through: the check passes exactly when the
    absolute path is known and begins with none of the blocked directories,
    the extension in lower case is not on the blocklist, the file name in
    lower case is not a system file, and the file name holds none of the
    dangerous characters. A path is refused as soon as its absolute form
    begins with the text of a blocked directory, whether or not it lies in
    that directory. *)
Theorem write_security_check_passes (filePath : string) (w : World) :
  (performWriteSecurityChecks filePath w = None
   <-> (exists absPath,
          filepath_Abs filePath w = inl absPath
          /\ forall d, In d write_dangerousPaths -> strings.HasPrefix absPath d = false)
       /\ ~ In (strings.ToLower (filepath.Ext filePath)) dangerousExtensions
       /\ ~ In (strings.ToLower (filepath.Base filePath)) write_systemFiles
       /\ forall c, In c dangerousChars -> strings.Contains (filepath.Base filePath) c = false)
  /\ (forall d rest,
        In d write_dangerousPaths ->
        filepath_Abs filePath w = inl (d +:+ rest) ->
        exists reason,
          performWriteSecurityChecks filePath w
            = Some ("cannot write files to system directory: " +:+ reason)).
Proof.
  split; [apply performWriteSecurityChecks_None|].
  intros d rest Hd Ha. unfold performWriteSecurityChecks. rewrite Ha.
  destruct (find (strings.HasPrefix (d +:+ rest)) write_dangerousPaths) as [found|] eqn:E.
  - now exists found.
  - exfalso. assert (Hf : strings.HasPrefix (d +:+ rest) d = false)
      by (eapply find_None_iff in E; eassumption).
    assert (Ht : strings.HasPrefix (d +:+ rest) d = true)
      by (apply HasPrefix_spec; now exists rest).
    congruence.
Qed.

(** The entries of the blocklists are in lower case already. *)
Lemma dangerousExtensions_lower ext :
  In ext dangerousExtensions -> strings.ToLower ext = ext.
Proof. cbn. intros H. repeat (destruct H as [<-|H]; [reflexivity|]). destruct H. Qed.

(** What [write_file] would create, [delete_file] will delete: a path that
    passes the check of [write_file] passes the check of [delete_file] too,
    unless its file name is one of the three that only [delete_file]
    protects. *)
Theorem write_check_implies_delete_check (filePath : string) (w : World) :
  performWriteSecurityChecks filePath w = None ->
  ~ In (filepath.Base filePath) [".DS_Store"; "Thumbs.db"; "desktop.ini"] ->
  performSecurityChecks filePath w = None.
Proof.
  intros Hw Hname.
  apply performWriteSecurityChecks_None in Hw as ((absPath & Ha & Hp) & He & Hs & _).
  unfold performSecurityChecks. rewrite Ha.
  assert (E1 : find (strings.HasPrefix absPath) delete_dangerousPaths = None).
  { apply find_None_iff. intros d Hd. apply Hp. cbn in Hd |- *.
    repeat (destruct Hd as [<-|Hd]; [tauto|]). destruct Hd. }
  rewrite E1.
  assert (E2 : find (String.eqb (filepath.Ext filePath)) dangerousExtensions = None).
  { apply find_eqb_None_iff. intros Hin. apply He.
    now rewrite (dangerousExtensions_lower _ Hin). }
  rewrite E2.
  assert (E3 : find (String.eqb (filepath.Base filePath)) delete_systemFiles = None).
  { apply find_eqb_None_iff. intros Hin. cbn in Hin, Hname, Hs.
    repeat (destruct Hin as [E|Hin];
            [first [apply Hname; rewrite <- E; tauto
                   |apply Hs; rewrite <- E; cbn; tauto]|]).
    destruct Hin. }
  now rewrite E3.
Qed.

(** When the check refuses the target, [write_file] reports the reason in a
    result with [written = false] and leaves the world alone: no directory is
    made and nothing is written. (The check is reached when the target does
    not exist or [overwrite] is set.) *)
Theorem write_file_security_failure params (w : World) targetFile content reason :
  assert_string params "target_file" = (targetFile, true) ->
  targetFile <> EmptyString ->
  assert_string params "content" = (content, true) ->
  (forall info, os_Stat (target_path params targetFile) w = StatOk info ->
     (assert_bool params "overwrite").1 = true) ->
  performWriteSecurityChecks (target_path params targetFile) w = Some reason ->
  exists r,
    writeFileFunction params w = (inl (PWriteFile r), w)
    /\ WriteFileResult.Written r = false
    /\ WriteFileResult.Created r = false
    /\ WriteFileResult.BytesWritten r = 0
    /\ WriteFileResult.Message r = "Security check failed: " +:+ reason.
Proof.
  intros Ht Hne Hc Hover Hsec. unfold writeFileFunction, target_path in *.
  apply String.eqb_neq in Hne.
  rewrite Ht. cbn [negb orb]. rewrite Hne, Hc. cbn [negb]. cbn beta iota zeta.
  destruct (os_Stat _ w) as [info| |] eqn:Es.
  - rewrite (Hover info eq_refl). cbn [negb andb]. rewrite Hsec.
    eexists. split; [reflexivity|]. repeat split.
  - cbn [andb]. rewrite Hsec. eexists. split; [reflexivity|]. repeat split.
  - cbn [andb]. rewrite Hsec. eexists. split; [reflexivity|]. repeat split.
Qed.

(** When the check passes and the directory and the file can be written,
    [write_file] first makes the directory of the target with [MkdirAll] and
    then writes the content; the result has [written = true], the number of
    bytes of the content, and [created = true] exactly when the target did
    not exist before. *)
Theorem write_file_writes params (w w1 w2 : World) targetFile content :
  assert_string params "target_file" = (targetFile, true) ->
  targetFile <> EmptyString ->
  assert_string params "content" = (content, true) ->
  (forall info, os_Stat (target_path params targetFile) w = StatOk info ->
     (assert_bool params "overwrite").1 = true) ->
  performWriteSecurityChecks (target_path params targetFile) w = None ->
  os_MkdirAll (filepath_Dir (target_path params targetFile)) w = (None, w1) ->
  os_WriteFile (target_path params targetFile) content w1 = (None, w2) ->
  exists r,
    writeFileFunction params w = (inl (PWriteFile r), w2)
    /\ WriteFileResult.Written r = true
    /\ WriteFileResult.BytesWritten r = Z.of_nat (String.length content)
    /\ WriteFileResult.TargetFile r = target_path params targetFile
    /\ (WriteFileResult.Created r = true
        <-> forall info, os_Stat (target_path params targetFile) w <> StatOk info)
    /\ WriteFileResult.FileExists r = negb (WriteFileResult.Created r).
Proof.
  intros Ht Hne Hc Hover Hsec Hmk Hwr. unfold writeFileFunction, target_path in *.
  apply String.eqb_neq in Hne.
  rewrite Ht. cbn [negb orb]. rewrite Hne, Hc. cbn [negb]. cbn beta iota zeta.
  destruct (os_Stat _ w) as [info| |] eqn:Es.
  - rewrite (Hover info eq_refl). cbn [negb andb]. rewrite Hsec, Hmk, Hwr.
    eexists. split; [reflexivity|]. cbn. repeat split; try discriminate.
    intros H. now specialize (H info).
  - cbn [andb]. rewrite Hsec, Hmk, Hwr. cbn [negb].
    eexists. split; [reflexivity|]. cbn. repeat split; discriminate.
  - cbn [andb]. rewrite Hsec, Hmk, Hwr. cbn [negb].
    eexists. split; [reflexivity|]. cbn. repeat split; discriminate.
Qed.

(** [delete_file] with a target never fails as a call: every outcome is a
    result. [os.Remove] is only reached for a target that exists, is not a
    directory and passes the security check; otherwise [deleted] is false
    and the world is untouched. The result says [deleted = true] exactly
    when [os.Remove] was reached and returned no error. *)
Theorem delete_file_outcomes params (w : World) targetFile :
  assert_string params "target_file" = (targetFile, true) ->
  targetFile <> EmptyString ->
  let filePath := target_path params targetFile in
  exists r,
    (deleteFileFunction params w).1 = inl (PDeleteFile r)
    /\ DeleteFileResult.TargetFile r = filePath
    /\ ((exists info, os_Stat filePath w = StatOk info /\ IsDir info = false)
        /\ performSecurityChecks filePath w = None ->
        (deleteFileFunction params w).2 = (os_Remove filePath w).2
        /\ (DeleteFileResult.Deleted r = true <-> (os_Remove filePath w).1 = None))
    /\ (~ ((exists info, os_Stat filePath w = StatOk info /\ IsDir info = false)
           /\ performSecurityChecks filePath w = None) ->
        (deleteFileFunction params w).2 = w /\ DeleteFileResult.Deleted r = false)
    /\ (forall info, os_Stat filePath w = StatOk info -> IsDir info = true ->
        DeleteFileResult.Message r = "Cannot delete directories with this tool")
    /\ (forall err, os_Stat filePath w = StatNotExist err ->
        DeleteFileResult.Message r = "File does not exist").
Proof.
  intros Ht Hne filePath. subst filePath. unfold deleteFileFunction, target_path.
  apply String.eqb_neq in Hne.
  rewrite Ht. cbn [negb orb]. rewrite Hne. cbn beta iota zeta.
  set (filePath := resolve targetFile (assert_string params "__work_dir__").1).
  destruct (os_Stat filePath w) as [info|err|err] eqn:Es.
  - destruct (IsDir info) eqn:Ed.
    + eexists. split; [reflexivity|]. cbn. split; [reflexivity|]. repeat split.
      * destruct H as ((i & [= <-] & Hi) & _). congruence.
      * destruct H as ((i & [= <-] & Hi) & _). congruence.
      * destruct H as ((i & [= <-] & Hi) & _). congruence.
      * discriminate.
    + destruct (performSecurityChecks filePath w) as [reason|] eqn:Ec.
      * eexists. split; [reflexivity|]. cbn. split; [reflexivity|]. repeat split;
          try discriminate; try (intros; congruence).
        all: destruct H as (_ & H); discriminate.
      * destruct (os_Remove filePath w) as [[err|] w1] eqn:Er.
        -- eexists. split; [reflexivity|]. cbn. split; [reflexivity|]. repeat split;
             try discriminate; try (intros; congruence).
           all: exfalso; apply H; split; [now exists info|reflexivity].
        -- eexists. split; [reflexivity|]. cbn. split; [reflexivity|]. repeat split;
             try discriminate; try (intros; congruence).
           all: exfalso; apply H; split; [now exists info|reflexivity].
  - eexists. split; [reflexivity|]. cbn. split; [reflexivity|]. repeat split;
      try discriminate.
    all: destruct H as ((i & Hi & _) & _); discriminate.
  - eexists. split; [reflexivity|]. cbn. split; [reflexivity|]. repeat split;
      try discriminate.
    all: destruct H as ((i & Hi & _) & _); discriminate.
Qed.

End SecurityFacts.

(** *** The checks on the small machines *)

(** [/etcetera/notes.txt] begins with the text [/etc] and is refused, though
    it is not in [/etc]. *)
Lemma write_file_security_failure_witness :
  exists r,
    writeFileFunction (Lab.write_params "/etcetera/notes.txt" "x" false) Lab.machine
      = (inl (PWriteFile r), Lab.machine)
    /\ WriteFileResult.Written r = false
    /\ WriteFileResult.Message r
       = "Security check failed: cannot write files to system directory: /etc".
Proof.
  destruct (write_file_security_failure
              (Lab.write_params "/etcetera/notes.txt" "x" false) Lab.machine
              "/etcetera/notes.txt" "x" "cannot write files to system directory: /etc")
    as (r & E & Hw & _ & _ & Hm);
    [vm_compute; reflexivity|discriminate|vm_compute; reflexivity
    |intros info; vm_compute; discriminate|vm_compute; reflexivity|].
  exists r. split; [exact E|]. split; [exact Hw|exact Hm].
Defined.

(** [a/b/c.txt] in a fresh directory: created, and there afterwards. *)
Lemma write_file_writes_witness :
  exists r w2,
    writeFileFunction (Lab.write_params "a/b/c.txt" "hello" false) Lab.machine
      = (inl (PWriteFile r), w2)
    /\ WriteFileResult.Written r = true
    /\ WriteFileResult.Created r = true
    /\ WriteFileResult.BytesWritten r = 5
    /\ Demo.lookup_node "/work/a/b/c.txt" w2 = Some (Demo.Regular "hello").
Proof.
  destruct (write_file_writes (Lab.write_params "a/b/c.txt" "hello" false) Lab.machine
              (os_MkdirAll "/work/a/b" Lab.machine).2
              (os_WriteFile "/work/a/b/c.txt" "hello" (os_MkdirAll "/work/a/b" Lab.machine).2).2
              "a/b/c.txt" "hello")
    as (r & E & Hw & Hb & _ & Hc & _);
    [vm_compute; reflexivity|discriminate|vm_compute; reflexivity
    |intros info; vm_compute; discriminate|vm_compute; reflexivity
    |vm_compute; reflexivity|vm_compute; reflexivity|].
  exists r. eexists. split; [exact E|]. split; [exact Hw|].
  split; [apply Hc; intros info; vm_compute; discriminate|].
  split; [exact Hb|vm_compute; reflexivity].
Defined.

Lemma write_check_implies_delete_check_witness :
  performWriteSecurityChecks "/work/notes.txt" Demo.machine = None
  /\ performSecurityChecks "/work/notes.txt" Demo.machine = None.
Proof.
  assert (Hw : performWriteSecurityChecks "/work/notes.txt" Demo.machine = None)
    by (vm_compute; reflexivity).
  split; [exact Hw|].
  apply (write_check_implies_delete_check "/work/notes.txt" Demo.machine Hw).
  vm_compute. intuition discriminate.
Defined.

(** A directory is not deleted, and the machine stays as it was. *)
Lemma delete_file_outcomes_witness :
  exists r,
    (deleteFileFunction (Lab.target "src") Lab.machine).1 = inl (PDeleteFile r)
    /\ (deleteFileFunction (Lab.target "src") Lab.machine).2 = Lab.machine
    /\ DeleteFileResult.Deleted r = false
    /\ DeleteFileResult.Message r = "Cannot delete directories with this tool".
Proof.
  destruct (delete_file_outcomes (Lab.target "src") Lab.machine "src")
    as (r & E & _ & _ & Hno & Hdir & _);
    [vm_compute; reflexivity|discriminate|].
  exists r. split; [exact E|].
  destruct Hno as [Hw Hd].
  { intros ((info & Hs & Hi) & _). vm_compute in Hs. injection Hs as <-. discriminate. }
  split; [exact Hw|]. split; [exact Hd|].
  apply (Hdir {| IsDir := true; Size := 4096 |}); vm_compute; reflexivity.
Defined.

(** ** search_replace: what is written and what is reported *)

Lemma list_ascii_length s : length (list_ascii_of_string s) = String.length s.
Proof. induction s as [|c s IH]; cbn; [reflexivity|now rewrite IH]. Qed.

(** The bytes written are the lines, each followed by a line feed. *)
Lemma written_lines_feed lines : forall i,
  0 < i ->
  written_lines i lines +:+ LF
    = LF +:+ fold_right (λ line acc, line +:+ LF +:+ acc) EmptyString lines.
Proof.
  induction lines as [|line rest IH]; intros i Hi; cbn [written_lines fold_right].
  - reflexivity.
  - destruct (Z.ltb_spec 0 i) as [_|]; [|lia].
    rewrite !str_app_assoc. rewrite IH by lia. reflexivity.
Qed.

Lemma written_bytes_terminated lines :
  written_bytes lines = fold_right (λ line acc, line +:+ LF +:+ acc) EmptyString lines.
Proof.
  unfold written_bytes. destruct lines as [|line rest]; [reflexivity|].
  cbn [written_lines fold_right length].
  destruct (Z.ltb_spec 0 (Z.of_nat (S (length rest)))) as [_|]; [|lia].
  cbn [Z.ltb Z.compare]. change (EmptyString +:+ line +:+ written_lines (0 + 1) rest)
    with (line +:+ written_lines (0 + 1) rest).
  rewrite str_app_assoc. rewrite written_lines_feed by lia. reflexivity.
Qed.

Lemma raw_lines_line line : forall rest cur,
  ~ In "010"%char (list_ascii_of_string line) ->
  bufio.raw_lines (line +:+ rest) cur
    = bufio.raw_lines rest (rev (list_ascii_of_string line) ++ cur)%list.
Proof.
  induction line as [|c line IH]; intros rest cur Hn; [reflexivity|].
  rewrite str_app_cons. cbn [bufio.raw_lines list_ascii_of_string rev].
  destruct (Ascii.eqb_spec c "010"%char) as [->|Hc].
  - exfalso. apply Hn. now left.
  - rewrite IH by (intros Hin; apply Hn; now right).
    now rewrite <- List.app_assoc.
Qed.

(** The round trip of [writeLinesToFile] and the scanner: lines without a
    line feed inside, without a carriage return at the end and within the
    size of the scanner's buffer are read back from the bytes written exactly
    as they were, without an error; so a file rewritten by [search_replace]
    scans to the lines that were written. *)
Theorem written_lines_scan_back (lines : list string) :
  Forall plain_line lines ->
  bufio.Scan {| contents := written_bytes lines; read_error := None |} = (lines, None).
Proof.
  intros Hall. unfold bufio.Scan. cbn [contents read_error].
  rewrite written_bytes_terminated.
  assert (E : bufio.tokens
                (bufio.raw_lines
                   (fold_right (λ line acc, line +:+ LF +:+ acc) EmptyString lines) [])
              = (lines, None)); [|now rewrite E].
  induction Hall as [|line rest (Hlf & Hcr & Hlen) _ IH]; [reflexivity|].
  cbn [fold_right]. rewrite raw_lines_line by exact Hlf.
  change (LF +:+ ?s) with (String "010"%char s). cbn [bufio.raw_lines].
  rewrite Ascii.eqb_refl. rewrite List.app_nil_r. cbn [bufio.tokens].
  rewrite length_rev, list_ascii_length.
  destruct (Z.leb_spec bufio.MaxScanTokenSize (Z.of_nat (String.length line))) as [|_]; [lia|].
  rewrite IH. f_equal. f_equal.
  unfold bufio.dropCR.
  destruct (rev (list_ascii_of_string line)) as [|c more] eqn:Er.
  - apply (f_equal (@rev ascii)) in Er. rewrite rev_involutive in Er. cbn in Er.
    rewrite <- (string_of_list_ascii_of_string line), Er. reflexivity.
  - assert (Hl : list_ascii_of_string line = (rev more ++ [c])%list).
    { rewrite <- (rev_involutive (list_ascii_of_string line)), Er. reflexivity. }
    destruct (Ascii.eqb_spec c CR) as [->|_].
    + exfalso. apply Hcr. rewrite Hl. apply last_snoc.
    + rewrite <- Er, rev_involutive. apply string_of_list_ascii_of_string.
Qed.

Section SearchReplaceMore.
Context {World : Type} `{!Host World}.

(** What the scanning loop leaves: nothing found, or the first line that
    contains the text, with its number. *)
Lemma scan_all_cases oldString tokens :
  let st := scan_all oldString tokens in
  lines st = tokens
  /\ (foundLine st = -1
      \/ exists before line after,
           tokens = (before ++ line :: after)%list
           /\ strings.Contains line oldString = true
           /\ foundLine st = Z.of_nat (length before) + 1
           /\ originalLine st = line).
Proof.
  cbn zeta. unfold scan_all.
  assert (D : Forall (λ line, strings.Contains line oldString = false) tokens
              \/ exists before line after,
                   tokens = (before ++ line :: after)%list
                   /\ Forall (λ line, strings.Contains line oldString = false) before
                   /\ strings.Contains line oldString = true).
  { induction tokens as [|t rest IH]; [left; constructor|].
    destruct (strings.Contains t oldString) eqn:Et.
    - right. exists [], t, rest. repeat split; [constructor|exact Et].
    - destruct IH as [IH|(b & l & a & -> & Hb & Hl)].
      + left. now constructor.
      + right. exists (t :: b), l, a. repeat split; [now constructor|exact Hl]. }
  destruct D as [D|(before & line & after & -> & Hb & Hl)].
  - rewrite scan_none by (try reflexivity; exact D). cbn. split; [reflexivity|now left].
  - rewrite scan_first by (try reflexivity; try lia; assumption). cbn.
    split; [reflexivity|]. right. exists before, line, after.
    split; [reflexivity|]. split; [exact Hl|]. split; [lia|reflexivity].
Qed.

(** Whatever the arguments and the machine, a result of [search_replace]
    that says [replaced = true] names a line that contained the old text,
    gives as the new line that line with the leftmost occurrence replaced,
    and a line number from 1 on; a result that says [replaced = false] comes
    with the world untouched. *)
Theorem search_replace_reports params (w : World) :
  match (searchReplaceFunction params w).1 with
  | inl (PSearchReplace r) =>
      if SearchReplaceResult.Replaced r then
        strings.Contains (SearchReplaceResult.OriginalLine r)
          (SearchReplaceResult.OldString r) = true
        /\ SearchReplaceResult.NewLine r
           = strings.Replace1 (SearchReplaceResult.OriginalLine r)
               (SearchReplaceResult.OldString r) (SearchReplaceResult.NewString r)
        /\ 1 <= SearchReplaceResult.LineNumber r
        /\ SearchReplaceResult.OldString r <> EmptyString
      else (searchReplaceFunction params w).2 = w
  | inl _ => False
  | inr _ => True
  end.
Proof.
  unfold searchReplaceFunction.
  destruct (assert_string params "file_path") as [filePath ok1].
  destruct (negb ok1 || String.eqb filePath EmptyString); [exact I|].
  destruct (assert_string params "old_string") as [oldString ok2].
  destruct (negb ok2 || String.eqb oldString EmptyString) eqn:Eo; [exact I|].
  destruct (assert_string params "new_string") as [newString ok3].
  destruct (negb ok3); [exact I|]. cbn beta iota zeta.
  assert (Hold : oldString <> EmptyString).
  { apply orb_false_iff in Eo as [_ Eo]. now apply String.eqb_neq. }
  set (targetPath := resolve filePath _).
  assert (Hrest : forall file,
    match (let (tokens, scanErr) := bufio.Scan file in
           let st := scan_all oldString tokens in
           match scanErr with
           | Some err => (inr ("failed to read file: " +:+ err), w)
           | None =>
               if foundLine st =? -1 then
                 (inl (PSearchReplace
                         {| SearchReplaceResult.FilePath := targetPath;
                            SearchReplaceResult.OldString := oldString;
                            SearchReplaceResult.NewString := newString;
                            SearchReplaceResult.Replaced := false;
                            SearchReplaceResult.LineNumber := 0;
                            SearchReplaceResult.OriginalLine := EmptyString;
                            SearchReplaceResult.NewLine := EmptyString;
                            SearchReplaceResult.Message := "Old string not found in file" |}), w)
               else
                 match lines st !! Z.to_nat (foundLine st - 1) with
                 | Some line =>
                     match writeLinesToFile targetPath
                             (<[Z.to_nat (foundLine st - 1) :=
                                  strings.Replace1 line oldString newString]> (lines st)) w with
                     | (Some err, w1) => (inr ("failed to write file: " +:+ err), w1)
                     | (None, w1) =>
                         (inl (PSearchReplace
                                 {| SearchReplaceResult.FilePath := targetPath;
                                    SearchReplaceResult.OldString := oldString;
                                    SearchReplaceResult.NewString := newString;
                                    SearchReplaceResult.Replaced := true;
                                    SearchReplaceResult.LineNumber := foundLine st;
                                    SearchReplaceResult.OriginalLine := originalLine st;
                                    SearchReplaceResult.NewLine :=
                                      strings.Replace1 line oldString newString;
                                    SearchReplaceResult.Message :=
                                      "Successfully replaced text on line "
                                      +:+ pretty (foundLine st) |}), w1)
                     end
                 | None => (inr "panic: runtime error: index out of range", w)
                 end
           end) as out return Prop with
    | (inl (PSearchReplace r), w') =>
        if SearchReplaceResult.Replaced r then
          strings.Contains (SearchReplaceResult.OriginalLine r)
            (SearchReplaceResult.OldString r) = true
          /\ SearchReplaceResult.NewLine r
             = strings.Replace1 (SearchReplaceResult.OriginalLine r)
                 (SearchReplaceResult.OldString r) (SearchReplaceResult.NewString r)
          /\ 1 <= SearchReplaceResult.LineNumber r
          /\ SearchReplaceResult.OldString r <> EmptyString
        else w' = w
    | (inl _, _) => False
    | (inr _, _) => True
    end).
  { intros file. destruct (bufio.Scan file) as [tokens [err|]]; [exact I|]. cbn zeta.
    pose proof (scan_all_cases oldString tokens) as [Hl Hc]. cbn zeta in Hl, Hc.
    destruct (scan_all oldString tokens) as [ln ls fl ol].
    cbn [lines foundLine originalLine lineNumber] in *. subst ls.
    destruct (Z.eqb_spec fl (-1)) as [|Hf]; [reflexivity|].
    destruct Hc as [|(before & line & after & -> & Hcon & -> & ->)]; [contradiction|].
    replace (Z.to_nat (Z.of_nat (length before) + 1 - 1)) with (length before) by lia.
    rewrite list_lookup_middle by reflexivity.
    destruct (writeLinesToFile _ _ w) as [[err|] w1]; [exact I|]. cbn.
    repeat split; [exact Hcon|lia|exact Hold]. }
  destruct (os_Stat targetPath w); try reflexivity;
    (destruct (os_Open targetPath w) as [file|?]; [|exact I]);
    specialize (Hrest file);
    match goal with
    | H : match ?a as _ return _ with _ => _ end |- match (?b).1 with _ => _ end =>
        change b with a; destruct a as [[[]|] ?]; cbn [fst snd]; exact H
    end.
Qed.

(** [search_replace] on a target that does not exist: a result, not an
    error, that says so, and the world untouched. *)
Theorem search_replace_not_found params (w : World) filePath oldString newString err :
  assert_string params "file_path" = (filePath, true) ->
  filePath <> EmptyString ->
  assert_string params "old_string" = (oldString, true) ->
  oldString <> EmptyString ->
  assert_string params "new_string" = (newString, true) ->
  os_Stat (target_path params filePath) w = StatNotExist err ->
  exists r,
    searchReplaceFunction params w = (inl (PSearchReplace r), w)
    /\ SearchReplaceResult.Replaced r = false
    /\ SearchReplaceResult.Message r = "File not found: " +:+ target_path params filePath.
Proof.
  intros Hf Hfne Ho Hone Hn Hs. unfold searchReplaceFunction, target_path in *.
  apply String.eqb_neq in Hfne, Hone.
  rewrite Hf. cbn [negb orb]. rewrite Hfne, Ho. cbn [negb orb]. rewrite Hone, Hn.
  cbn [negb]. cbn beta iota zeta. rewrite Hs.
  eexists. split; [reflexivity|]. split; reflexivity.
Qed.

End SearchReplaceMore.

(** *** On the small machines *)

Lemma written_lines_scan_back_witness :
  Forall plain_line ["alpha bar foo"; EmptyString; "beta foo"]
  /\ bufio.Scan {| contents := written_bytes ["alpha bar foo"; EmptyString; "beta foo"];
                   read_error := None |}
     = (["alpha bar foo"; EmptyString; "beta foo"], None).
Proof.
  assert (H : Forall plain_line ["alpha bar foo"; EmptyString; "beta foo"]).
  { repeat constructor; try discriminate; try (vm_compute; intuition discriminate). }
  split; [exact H|]. exact (written_lines_scan_back _ H).
Defined.

Lemma search_replace_not_found_witness :
  exists r,
    searchReplaceFunction
      (<["file_path" := VString "missing.txt"]> (Demo.replace_request "foo" "bar"))
      Demo.machine = (inl (PSearchReplace r), Demo.machine)
    /\ SearchReplaceResult.Replaced r = false
    /\ SearchReplaceResult.Message r = "File not found: /work/missing.txt".
Proof.
  destruct (search_replace_not_found
              (<["file_path" := VString "missing.txt"]> (Demo.replace_request "foo" "bar"))
              Demo.machine "missing.txt" "foo" "bar"
              "stat /work/missing.txt: no such file or directory")
    as (r & E & Hr & Hm);
    [vm_compute; reflexivity|discriminate|vm_compute; reflexivity|discriminate
    |vm_compute; reflexivity|vm_compute; reflexivity|].
  exists r. split; [exact E|]. split; [exact Hr|exact Hm].
Defined.

(** ** grep_search without ripgrep: what is reported *)

Lemma Index_nil sub :
  strings.Index EmptyString sub = if strings.HasPrefix EmptyString sub then 0 else -1.
Proof. reflexivity. Qed.

Lemma Index_cons c s sub :
  strings.Index (String c s) sub
    = if strings.HasPrefix (String c s) sub then 0
      else let i := strings.Index s sub in if i <? 0 then -1 else i + 1.
Proof. reflexivity. Qed.

Lemma take_app p post : strings.take (String.length p) (p +:+ post) = p.
Proof. induction p as [|c p IH]; cbn; [reflexivity|]. rewrite str_app_cons. now rewrite IH. Qed.

(** At the offset that [Index] returns, the text searched for is found. *)
Lemma Index_found s sub :
  0 <= strings.Index s sub ->
  strings.take (String.length sub) (strings.drop (Z.to_nat (strings.Index s sub)) s) = sub.
Proof.
  induction s as [|c s IH]; intros H.
  - rewrite Index_nil in *. destruct (strings.HasPrefix EmptyString sub) eqn:Hp; [|lia].
    apply HasPrefix_spec in Hp as [post Hp]. cbn [Z.to_nat strings.drop].
    destruct sub; [reflexivity|]. rewrite str_app_cons in Hp. discriminate.
  - rewrite Index_cons in *. destruct (strings.HasPrefix (String c s) sub) eqn:Hp.
    + apply HasPrefix_spec in Hp as [post Hp]. cbn [Z.to_nat strings.drop].
      rewrite Hp. apply take_app.
    + cbn zeta in *. destruct (Z.ltb_spec (strings.Index s sub) 0) as [|Hi]; [lia|].
      replace (Z.to_nat (strings.Index s sub + 1)) with (S (Z.to_nat (strings.Index s sub)))
        by lia.
      cbn [strings.drop]. now apply IH.
Qed.

(** The [match] field of a reported match is never text in the spelling of
    the line: [extractMatch] returns the query itself in a case-sensitive
    search and the query in lower case otherwise, whatever the line is and
    whether or not the query occurs in it as a plain text. *)
Theorem extractMatch_is_query (content query : string) (caseSensitive : bool) :
  extractMatch content query caseSensitive
    = if caseSensitive then query else strings.ToLower query.
Proof.
  unfold extractMatch, substring.
  destruct caseSensitive; cbn [negb];
    match goal with
    | |- context [strings.Index ?c ?q] =>
        destruct (Z.leb_spec 0 (strings.Index c q)) as [Hi|Hi]; [|reflexivity];
        rewrite Nat2Z.id; now apply Index_found
    end.
Qed.

Section GrepMore.
Context {World : Type} `{!Host World}.

Lemma search_lines_reports filePath regex caseSensitive tokens scanErr :
  forall lineNumber matchCount result,
  0 <= matchCount ->
  GrepSearchResult.Matches
    (search_lines filePath regex caseSensitive tokens scanErr
       lineNumber matchCount result).2
    = (GrepSearchResult.Matches result
       ++ (match_of filePath (GrepSearchResult.Query result) caseSensitive
             <$> take (Z.to_nat (50 - matchCount))
                   (List.filter (λ nl, regex nl.2) (numbered (lineNumber + 1) tokens))))%list.
Proof.
  induction tokens as [|line rest IH]; intros lineNumber matchCount result Hm;
    cbn [search_lines numbered List.filter].
  - rewrite take_nil. cbn. now rewrite List.app_nil_r.
  - destruct (Z.ltb_spec matchCount 50) as [Hlt|Hge].
    + cbn [snd]. destruct (regex line) eqn:Er.
      * rewrite IH by lia. cbn [append_match GrepSearchResult.Matches GrepSearchResult.Query].
        replace (Z.to_nat (50 - matchCount)) with (S (Z.to_nat (50 - (matchCount + 1)))) by lia.
        cbn [take fmap list_fmap]. rewrite <- List.app_assoc. reflexivity.
      * now rewrite IH by lia.
    + replace (Z.to_nat (50 - matchCount)) with 0%nat by lia.
      cbn. now rewrite List.app_nil_r.
Qed.

(** In a file that opens, [searchInFile] appends to the matches already
    there the first 50 lines that the expression matches (all of them when
    there are fewer), in the order of the file, each with its one-based line
    number, the whole line as content and no column. *)
Theorem searchInFile_reports filePath regex caseSensitive result (w : World)
    file tokens scanErr :
  os_Open filePath w = inl file ->
  bufio.Scan file = (tokens, scanErr) ->
  GrepSearchResult.Matches (searchInFile filePath regex caseSensitive result w).2
    = (GrepSearchResult.Matches result
       ++ (match_of filePath (GrepSearchResult.Query result) caseSensitive
             <$> take 50 (List.filter (λ nl, regex nl.2) (numbered 1 tokens))))%list.
Proof.
  intros Ho Hs. unfold searchInFile. rewrite Ho, Hs.
  now rewrite search_lines_reports.
Qed.

(** Every match that the walk adds belongs to a path that was visited as a
    file, not as a directory or with an error, whose base name matches the
    include pattern, when there is one, and does not match the exclude
    pattern, when there is one. The matches already there are kept in
    front. *)
Theorem walk_reports_filtered_files regex caseSensitive includePattern excludePattern
    (w : World) visits :
  forall result,
  exists new,
    GrepSearchResult.Matches
      (walk regex caseSensitive includePattern excludePattern w visits result).2
      = (GrepSearchResult.Matches result ++ new)%list
    /\ Forall (λ m,
         exists info,
           In (GrepMatch.File m, inl info) visits
           /\ IsDir info = false
           /\ (includePattern = EmptyString
               \/ filepath_Match includePattern (filepath.Base (GrepMatch.File m)) = true)
           /\ (excludePattern = EmptyString
               \/ filepath_Match excludePattern (filepath.Base (GrepMatch.File m)) = false))
         new.
Proof.
  induction visits as [|[path info] rest IH]; intros result; cbn [walk].
  - exists []. split; [now rewrite List.app_nil_r|constructor].
  - assert (Hcb : exists new,
      GrepSearchResult.Matches
        (walk_callback regex caseSensitive includePattern excludePattern w path info result).2
        = (GrepSearchResult.Matches result ++ new)%list
      /\ Forall (λ m,
           exists i,
             In (GrepMatch.File m, inl i) ((path, info) :: rest)
             /\ IsDir i = false
             /\ (includePattern = EmptyString
                 \/ filepath_Match includePattern (filepath.Base (GrepMatch.File m)) = true)
             /\ (excludePattern = EmptyString
                 \/ filepath_Match excludePattern (filepath.Base (GrepMatch.File m)) = false))
           new).
    { unfold walk_callback.
      destruct info as [info|err];
        [|exists []; split; [now rewrite List.app_nil_r|constructor]].
      destruct (IsDir info) eqn:Ed;
        [exists []; split; [now rewrite List.app_nil_r|constructor]|].
      destruct (negb (String.eqb includePattern EmptyString)
                && negb (filepath_Match includePattern (filepath.Base path))) eqn:Ei;
        [exists []; split; [now rewrite List.app_nil_r|constructor]|].
      destruct (negb (String.eqb excludePattern EmptyString)
                && filepath_Match excludePattern (filepath.Base path)) eqn:Ee;
        [exists []; split; [now rewrite List.app_nil_r|constructor]|].
      destruct (searchInFile_cap path regex caseSensitive result w) as (new & E & _ & Hall).
      exists new. split; [exact E|].
      eapply Forall_impl; [exact Hall|]. cbn beta. intros m ->.
      exists info. split; [now left|]. split; [exact Ed|]. split.
      - apply andb_false_iff in Ei as [Ei|Ei].
        + left. apply negb_false_iff in Ei. now apply String.eqb_eq.
        + right. now apply negb_false_iff.
      - apply andb_false_iff in Ee as [Ee|Ee].
        + left. apply negb_false_iff in Ee. now apply String.eqb_eq.
        + now right. }
    destruct Hcb as (new1 & E1 & H1).
    destruct (walk_callback _ _ _ _ _ _ _ _) as [[err|] result1]; cbn [snd] in *.
    + exists new1. split; [exact E1|exact H1].
    + destruct (IH result1) as (new2 & E2 & H2).
      exists (new1 ++ new2)%list. split.
      * rewrite E2, E1. now rewrite <- List.app_assoc.
      * apply Forall_app. split; [exact H1|].
        eapply Forall_impl; [exact H2|]. cbn beta.
        intros m (i & Hin & Hrest). exists i. split; [now right|exact Hrest].
Qed.

Lemma size_list_to_set_le (l : list string) :
  (size (list_to_set l : gset string) <= length l)%nat.
Proof.
  induction l as [|x l IH]; cbn [list_to_set length].
  - now rewrite size_empty.
  - rewrite size_union_alt, size_singleton.
    assert (Hsub : (size ((list_to_set l : gset string) ∖ {[x]})
                    <= size (list_to_set l : gset string))%nat).
    { apply subseteq_size. intros y Hy. apply elem_of_difference in Hy. tauto. }
    lia.
Qed.

Lemma walk_keeps_query regex caseSensitive includePattern excludePattern (w : World) visits :
  forall result,
    GrepSearchResult.Query
      (walk regex caseSensitive includePattern excludePattern w visits result).2
    = GrepSearchResult.Query result.
Proof.
  assert (Hl : forall filePath tokens scanErr ln mc result,
            GrepSearchResult.Query
              (search_lines filePath regex caseSensitive tokens scanErr ln mc result).2
            = GrepSearchResult.Query result).
  { intros filePath tokens scanErr. induction tokens as [|line rest IH];
      intros ln mc result; cbn [search_lines]; [reflexivity|].
    destruct (mc <? 50); [|reflexivity]. destruct (regex line); now rewrite IH. }
  induction visits as [|[path info] rest IH]; intros result; cbn [walk]; [reflexivity|].
  assert (Hcb : GrepSearchResult.Query
                  (walk_callback regex caseSensitive includePattern excludePattern
                     w path info result).2 = GrepSearchResult.Query result).
  { unfold walk_callback, searchInFile.
    repeat (match goal with
            | |- context [match ?x with _ => _ end] => destruct x
            end; try reflexivity).
    apply Hl. }
  destruct (walk_callback _ _ _ _ _ _ _ _) as [[err|] result1]; cbn [snd] in *;
    [exact Hcb|]. now rewrite IH.
Qed.

(** A search that returns a result echoes the query and the options, counts
    in [total_matches] the matches it lists and in [matched_files] the
    distinct files among them, at least one file when there is a match and
    never more files than matches. *)
Theorem fallbackGrepSearch_totals query caseSensitive includePattern excludePattern workDir
    (w : World) r :
  fallbackGrepSearch query caseSensitive includePattern excludePattern workDir w = inl r ->
  GrepSearchResult.Query r = query
  /\ GrepSearchResult.TotalMatches r = Z.of_nat (length (GrepSearchResult.Matches r))
  /\ GrepSearchResult.MatchedFiles r
     = Z.of_nat (size (list_to_set (GrepMatch.File <$> GrepSearchResult.Matches r)
                         : gset string))
  /\ 0 <= GrepSearchResult.MatchedFiles r <= GrepSearchResult.TotalMatches r
  /\ (0 < GrepSearchResult.TotalMatches r -> 0 < GrepSearchResult.MatchedFiles r).
Proof.
  unfold fallbackGrepSearch. destruct (regexp_Compile _) as [regex|err]; [|discriminate].
  match goal with
  | |- context [walk ?a ?b ?c ?d ?e ?f ?g] =>
      pose proof (walk_keeps_query a b c d e f g) as Hq;
      destruct (walk a b c d e f g) as [[err|] result]; [discriminate|]
  end.
  cbn [snd GrepSearchResult.Query] in Hq. intros [= <-].
  cbn [GrepSearchResult.Query GrepSearchResult.TotalMatches GrepSearchResult.MatchedFiles
       GrepSearchResult.Matches].
  pose proof (size_list_to_set_le (GrepMatch.File <$> GrepSearchResult.Matches result)) as Hle.
  rewrite length_fmap in Hle.
  split; [exact Hq|]. split; [reflexivity|]. split; [reflexivity|]. split; [lia|].
  intros Hpos. destruct (GrepSearchResult.Matches result) as [|m ms]; [cbn in Hpos; lia|].
  cbn [fmap list_fmap list_to_set].
  assert (size ({[GrepMatch.File m]} ∪ (list_to_set (GrepMatch.File <$> ms) : gset string)) <> 0)%nat.
  { intros Hz. apply size_empty_inv in Hz. set_solver. }
  lia.
Qed.

End GrepMore.

(** *** On the small machines *)

(** The three lines of [main.go] are reported with numbers 1, 2 and 3. *)
Lemma searchInFile_reports_witness :
  exists regex result0,
    regexp_Compile (World := Demo.Machine) "needle" = inl regex
    /\ (λ m, (GrepMatch.Line m, GrepMatch.Content m))
         <$> GrepSearchResult.Matches
               (searchInFile "/work/src/main.go" regex true result0 Lab.machine).2
       = [(1, "x := needle"); (2, "x := needle"); (3, "x := needle")].
Proof.
  exists (λ line, strings.Contains line "needle").
  exists {| GrepSearchResult.Query := "needle"; GrepSearchResult.Matches := [];
            GrepSearchResult.TotalMatches := 0; GrepSearchResult.MatchedFiles := 0;
            GrepSearchResult.CaseSensitive := true;
            GrepSearchResult.IncludePattern := EmptyString;
            GrepSearchResult.ExcludePattern := EmptyString |}.
  split; [reflexivity|].
  rewrite (searchInFile_reports "/work/src/main.go" _ true _ Lab.machine
             {| contents := Demo.text_of 3 "x := needle"; read_error := None |}
             (replicate 3 "x := needle") None);
    [vm_compute; reflexivity|vm_compute; reflexivity|vm_compute; reflexivity].
Defined.

Lemma fallbackGrepSearch_totals_witness :
  exists r,
    fallbackGrepSearch "needle" true "*.go" EmptyString "/work" Lab.machine = inl r
    /\ GrepSearchResult.TotalMatches r = Z.of_nat (length (GrepSearchResult.Matches r))
    /\ 0 <= GrepSearchResult.MatchedFiles r <= GrepSearchResult.TotalMatches r.
Proof.
  assert (exists r, fallbackGrepSearch "needle" true "*.go" EmptyString "/work" Lab.machine
                    = inl r) as [r Hr]
    by (eexists; vm_compute; reflexivity).
  exists r. split; [exact Hr|].
  destruct (fallbackGrepSearch_totals _ _ _ _ _ _ r Hr) as (_ & Ht & _ & Hm & _).
  split; [exact Ht|exact Hm].
Defined.

(** ** grep_search without ripgrep: a scanner error ends the search *)

Section GrepAbort.
Context {World : Type} `{!Host World}.

(** With fewer than 50 matching lines to come, the loop reads to the end of
    the file and returns the error the scanner ended with. *)
Lemma search_lines_error filePath regex caseSensitive tokens scanErr :
  forall lineNumber matchCount result,
  matchCount + Z.of_nat (length (List.filter regex tokens)) < 50 ->
  (search_lines filePath regex caseSensitive tokens scanErr
     lineNumber matchCount result).1 = scanErr.
Proof.
  induction tokens as [|line rest IH]; intros lineNumber matchCount result Hc;
    cbn [search_lines List.filter] in *; [reflexivity|].
  destruct (Z.ltb_spec matchCount 50) as [_|Hge].
  - destruct (regex line); cbn [length] in Hc; apply IH; lia.
  - exfalso. pose proof (Nat2Z.is_nonneg (length (if regex line then line :: List.filter regex rest
                                                   else List.filter regex rest))). lia.
Qed.

(** One file that the scanner cannot read to its end, such as a file with a
    line longer than the scanner's buffer, fails the whole search when it has
    fewer than 50 matching lines before the error: [fallbackGrepSearch]
    returns an error and no result, whatever the other files hold. *)
Theorem fallbackGrepSearch_scanner_error query caseSensitive workDir (w : World)
    regex path info file tokens err :
  regexp_Compile (if negb caseSensitive then "(?i)" +:+ query else query) = inl regex ->
  In (path, inl info)
     (filepath_Walk (if negb (String.eqb workDir EmptyString) then workDir else ".") w) ->
  IsDir info = false ->
  os_Open path w = inl file ->
  bufio.Scan file = (tokens, Some err) ->
  Z.of_nat (length (List.filter regex tokens)) < 50 ->
  exists e,
    fallbackGrepSearch query caseSensitive EmptyString EmptyString workDir w = inr e.
Proof.
  intros Hre Hin Hd Ho Hs Hc. unfold fallbackGrepSearch. rewrite Hre.
  match goal with
  | |- context [walk ?a ?b ?c ?d ?e ?f ?g] => generalize g
  end.
  induction (filepath_Walk _ w) as [|[p i] rest IH]; intros result; [destruct Hin|].
  cbn [walk].
  destruct Hin as [[= -> ->]|Hin].
  - assert (E : (walk_callback regex caseSensitive EmptyString EmptyString w path
                   (inl info) result).1 = Some err).
    { unfold walk_callback. rewrite Hd. cbn [String.eqb negb andb].
      unfold searchInFile. rewrite Ho, Hs. now apply search_lines_error. }
    destruct (walk_callback _ _ _ _ _ _ _ _) as [[e|] r1]; [eauto|discriminate].
  - destruct (walk_callback _ _ _ _ _ _ _ _) as [[e|] r1]; [eauto|]. now apply IH.
Qed.

End GrepAbort.

(** [app.js] has two matching lines, [app.min.js] is one line of 65536
    bytes: the search returns the scanner's error. *)
Lemma fallbackGrepSearch_scanner_error_witness :
  bufio.Scan {| contents := Lab.long_line; read_error := None |}
    = ([], Some bufio.ErrTooLong)
  /\ exists e, fallbackGrepSearch "needle" true EmptyString EmptyString "/web" Lab.minified
               = inr e.
Proof.
  assert (Hs : bufio.Scan {| contents := Lab.long_line; read_error := None |}
               = ([], Some bufio.ErrTooLong)) by (vm_compute; reflexivity).
  split; [exact Hs|].
  apply (fallbackGrepSearch_scanner_error "needle" true "/web" Lab.minified
           (λ line, strings.Contains line "needle") "/web/app.min.js"
           {| IsDir := false; Size := 65536 |}
           {| contents := Lab.long_line; read_error := None |} [] bufio.ErrTooLong).
  - reflexivity.
  - vm_compute. tauto.
  - reflexivity.
  - reflexivity.
  - exact Hs.
  - vm_compute. reflexivity.
Defined.

(** ** The client: tool replies, history and the ways a query ends *)

Section ClientMore.
Context {World : Type} `{!Transport World}.

Lemma ExecuteTool_no_error {P : Type} (tm : DefaultToolManager World P) name params (w : World) :
  (ExecuteTool name params tm w).1.1.2 = None.
Proof.
  unfold ExecuteTool. destruct (tools tm !! name) as [tool|]; [|reflexivity].
  now destruct (Function tool _ w) as [[?|?] ?].
Qed.

(** [executeToolCall] returns an error in two cases only, the client without
    a tool manager and an argument text that is not JSON, and then nothing
    was run: the world is as before. *)
Theorem executeToolCall_errors (c : Client) (toolCall : openai.ToolCall) (w : World) err :
  (executeToolCall c toolCall w).1 = inr err ->
  (executeToolCall c toolCall w).2 = w
  /\ ((toolManager c = None /\ err = "tool manager not set")
      \/ exists e,
           json_Unmarshal (openai.Arguments (openai.Function toolCall)) = inr e
           /\ err = "failed to parse tool arguments: " +:+ e).
Proof.
  unfold executeToolCall. destruct (toolManager c) as [tm|].
  - destruct (json_Unmarshal _) as [params|e] eqn:Ej.
    + pose proof (ExecuteTool_no_error tm (openai.Name (openai.Function toolCall)) params w)
        as Hn.
      destruct (ExecuteTool _ params tm w) as [[[result e] tm'] w1]. cbn in Hn. subst e.
      destruct (negb (Success result)); [discriminate|].
      destruct (json_MarshalIndent _); discriminate.
    + intros [= <-]. split; [reflexivity|]. right. now exists e.
  - intros [= <-]. split; [reflexivity|]. now left.
Qed.

(** A call of a tool that is not registered, and a tool whose function
    fails, are answered with a text for the model, not with an error: the
    text is [Tool execution failed: ] followed by the reason. *)
Theorem executeToolCall_reports_failures (c : Client) tm (toolCall : openai.ToolCall)
    params (w : World) :
  toolManager c = Some tm ->
  json_Unmarshal (openai.Arguments (openai.Function toolCall)) = inl params ->
  let name := openai.Name (openai.Function toolCall) in
  (GetTool name tm = None ->
   executeToolCall c toolCall w
     = (inl ("Tool execution failed: tool '" +:+ name +:+ "' not found"), w))
  /\ (forall tool err w1,
        GetTool name tm = Some tool ->
        Function tool
          (<["__work_dir__" := VString (workDir tm)]>
             (match params with None => ∅ | Some p => p end)) w = (inr err, w1) ->
        executeToolCall c toolCall w = (inl ("Tool execution failed: " +:+ err), w1)).
Proof.
  intros Hm Hj name. unfold executeToolCall. rewrite Hm, Hj. fold name.
  unfold GetTool, ExecuteTool. split.
  - intros ->. reflexivity.
  - intros tool err w1 -> ->. reflexivity.
Qed.

(** The loop over the tool calls of a round only appends to the history:
    one reply for each call of type [function] with a name, in the order of
    the calls, with the role [tool] and the identifier of its call; calls of
    another type or without a name get no reply. *)
Theorem run_tool_calls_replies (c : Client) (toolCalls : list openai.ToolCall) :
  forall messages (w : World),
  exists replies,
    (run_tool_calls c toolCalls messages w).1 = (messages ++ replies)%list
    /\ (λ m, (openai.Role m, openai.ToolCallID m, openai.ToolCalls m)) <$> replies
       = (λ t, ("tool", openai.ID t, [])) <$> List.filter executable toolCalls.
Proof.
  induction toolCalls as [|t rest IH]; intros messages w; cbn [run_tool_calls List.filter].
  - exists []. split; [now rewrite List.app_nil_r|reflexivity].
  - unfold executable at 1.
    destruct (String.eqb (openai.Type_ t) "function"
              && negb (String.eqb (openai.Name (openai.Function t)) EmptyString)).
    + destruct (executeToolCall c t w) as [r w1].
      edestruct IH as (replies & E & Hr). rewrite E.
      eexists (_ :: replies). split; [now rewrite <- List.app_assoc|].
      cbn [fmap list_fmap]. cbn [openai.Role openai.ToolCallID openai.ToolCalls].
      f_equal. exact Hr.
    + apply IH.
Qed.

Lemma run_tool_calls_roles (c : Client) (toolCalls : list openai.ToolCall) :
  forall messages (w : World),
  exists replies,
    (run_tool_calls c toolCalls messages w).1 = (messages ++ replies)%list
    /\ Forall (λ m, openai.Role m = "tool") replies.
Proof.
  induction toolCalls as [|t rest IH]; intros messages w; cbn [run_tool_calls].
  - exists []. split; [now rewrite List.app_nil_r|constructor].
  - destruct (String.eqb (openai.Type_ t) "function"
              && negb (String.eqb (openai.Name (openai.Function t)) EmptyString)).
    + destruct (executeToolCall c t w) as [r w1].
      edestruct IH as (replies & E & Hr). rewrite E.
      eexists (_ :: replies). split; [now rewrite <- List.app_assoc|].
      constructor; [reflexivity|exact Hr].
    + apply IH.
Qed.

Lemma conversation_history fuel (c : Client) toolDefs :
  forall iteration log messages (w : World) run,
  conversation fuel c toolDefs iteration log messages w = Some run ->
  exists more,
    history run = (messages ++ more)%list
    /\ Forall (λ m, openai.Role m = "assistant" \/ openai.Role m = "tool") more.
Proof.
  induction fuel as [|fuel IH]; intros iteration log messages w run; cbn [conversation];
    [discriminate|].
  destruct (iteration <? maxIterations);
    [|intros [= <-]; exists []; split; [now rewrite List.app_nil_r|constructor]].
  destruct (CreateChatCompletionStream _ w) as [[stream|err] w1];
    [|intros [= <-]; exists []; split; [now rewrite List.app_nil_r|constructor]].
  destruct (drain _ _) as [[contentBuffer toolCalls]|];
    [|intros [= <-]; exists []; split; [now rewrite List.app_nil_r|constructor]].
  destruct (negb (String.eqb (openai.final_error stream) "EOF"));
    [intros [= <-]; exists []; split; [now rewrite List.app_nil_r|constructor]|].
  destruct (Z.of_nat (length toolCalls) =? 0);
    [intros [= <-]; exists []; split; [now rewrite List.app_nil_r|constructor]|].
  destruct (run_tool_calls_roles c toolCalls
              (messages ++ [{| openai.Role := "assistant"; openai.Content := contentBuffer;
                               openai.ToolCalls := toolCalls;
                               openai.ToolCallID := EmptyString |}])%list w1)
    as (replies & E & Hr).
  destruct (run_tool_calls c toolCalls _ w1) as [messages2 w2]. cbn [fst] in E. subst messages2.
  intros Hrun. destruct (IH _ _ _ _ _ Hrun) as (more & Hh & Hm).
  eexists (_ :: replies ++ more)%list. split.
  - rewrite Hh. rewrite <- !List.app_assoc. reflexivity.
  - constructor; [now left|]. apply Forall_app. split; [|exact Hm].
    eapply Forall_impl; [exact Hr|]. cbn beta. intros m Hm'. now right.
Qed.

(** The history of a query is only ever appended to: it begins with the
    system prompt and the query, exactly as they were sent in the first round,
    and what follows are messages of the assistant and replies of tools. *)
Theorem history_is_append_only (fuel : nat) (c : Client) (query : string) (w : World) :
  match StreamQueryWithTools fuel c query w with
  | Some run =>
      exists more,
        history run = (opening query ++ more)%list
        /\ Forall (λ m, openai.Role m = "assistant" \/ openai.Role m = "tool") more
  | None => True
  end.
Proof.
  unfold StreamQueryWithTools. fold (opening query).
  destruct (conversation _ _ _ _ _ _ _) as [run|] eqn:E; [|exact I].
  exact (conversation_history _ _ _ _ _ _ _ _ E).
Qed.

Lemma merge_unindexed fragments : forall toolCalls,
  Forall (λ f, openai.Index f = None) fragments ->
  merge_fragments toolCalls fragments = Some toolCalls.
Proof.
  induction fragments as [|f rest IH]; intros toolCalls Hall; [reflexivity|].
  inversion Hall as [|? ? Hf Hrest]; subst. cbn [merge_fragments].
  unfold merge_fragment. rewrite Hf. cbn [mbind option_bind]. now apply IH.
Qed.

(** A first round whose stream ends regularly and assembles no tool call
    (its fragments, if any, carry no index) ends the query: one round, [nil]
    returned, no tool run, and the history left as the two opening messages;
    the answer of the assistant is printed, not recorded. *)
Theorem answer_without_tool_calls (fuel : nat) (c : Client) (query : string)
    (w w1 : World) stream :
  (1 <= fuel)%nat ->
  CreateChatCompletionStream
    {| openai.Model := model c;
       openai.Messages := opening query;
       openai.Stream := true;
       openai.Tools := match toolManager c with
                       | Some tm => convertToolsToOpenAI (ListTools tm)
                       | None => []
                       end |} w = (inl stream, w1) ->
  openai.final_error stream = "EOF" ->
  Forall (λ f, openai.Index f = None) (fragments_of (openai.responses stream)) ->
  StreamQueryWithTools fuel c query w
    = Some {| outcome := Returned None; received := [inl stream];
              history := opening query; world := w1 |}.
Proof.
  intros Hfuel Hc Heof Hall. unfold StreamQueryWithTools. fold (opening query).
  destruct fuel as [|fuel]; [lia|]. cbn [conversation].
  change (0 <? maxIterations) with true. cbn iota. rewrite Hc.
  pose proof (drain_merge (openai.responses stream) EmptyString []) as D.
  rewrite (merge_unindexed _ [] Hall) in D. destruct D as [content D].
  rewrite D, Heof. reflexivity.
Qed.

Lemma conversation_outcomes fuel (c : Client) toolDefs :
  forall iteration log messages (w : World) run,
  conversation fuel c toolDefs iteration log messages w = Some run ->
  match outcome run with
  | Returned None => True
  | Returned (Some e) =>
      (exists err, last (received run) = Some (inr err)
                   /\ e = "failed to create chat completion stream: " +:+ err)
      \/ (exists stream, last (received run) = Some (inl stream)
                         /\ openai.final_error stream <> "EOF"
                         /\ e = "stream error: " +:+ openai.final_error stream)
  | Panicked =>
      exists stream, last (received run) = Some (inl stream)
                     /\ ~ Forall positioned (fragments_of (openai.responses stream))
  end.
Proof.
  induction fuel as [|fuel IH]; intros iteration log messages w run; cbn [conversation];
    [discriminate|].
  destruct (iteration <? maxIterations); [|intros [= <-]; exact I].
  destruct (CreateChatCompletionStream _ w) as [[stream|err] w1].
  - destruct (drain _ _) as [[contentBuffer toolCalls]|] eqn:Ed.
    + destruct (String.eqb_spec (openai.final_error stream) "EOF") as [Heof|Hne]; cbn [negb].
      * destruct (Z.of_nat (length toolCalls) =? 0); [intros [= <-]; exact I|].
        destruct (run_tool_calls c toolCalls _ w1) as [messages2 w2]. apply IH.
      * intros [= <-]. cbn [outcome received]. right. exists stream.
        split; [apply last_snoc|]. split; [exact Hne|reflexivity].
    + intros [= <-]. cbn [outcome received]. exists stream. split; [apply last_snoc|].
      intros Hpos. destruct (drain_positioned _ Hpos) as (content & calls & E). congruence.
  - intros [= <-]. cbn [outcome received]. left. exists err.
    split; [apply last_snoc|reflexivity].
Qed.

(** The ways a query ends otherwise than with [nil]: the error of the
    provider when the stream of the last round could not be opened, the error
    that broke the stream of the last round, or a panic, and a panic only when
    the last stream held a fragment with a negative index. No error comes
    from the tools. *)
Theorem StreamQueryWithTools_outcomes (fuel : nat) (c : Client) (query : string)
    (w : World) :
  match StreamQueryWithTools fuel c query w with
  | Some run =>
      match outcome run with
      | Returned None => True
      | Returned (Some e) =>
          (exists err, last (received run) = Some (inr err)
                       /\ e = "failed to create chat completion stream: " +:+ err)
          \/ (exists stream, last (received run) = Some (inl stream)
                             /\ openai.final_error stream <> "EOF"
                             /\ e = "stream error: " +:+ openai.final_error stream)
      | Panicked =>
          exists stream, last (received run) = Some (inl stream)
                         /\ ~ Forall positioned (fragments_of (openai.responses stream))
      end
  | None => True
  end.
Proof.
  unfold StreamQueryWithTools.
  destruct (conversation _ _ _ _ _ _ _) as [run|] eqn:E; [|exact I].
  exact (conversation_outcomes _ _ _ _ _ _ _ _ E).
Qed.

End ClientMore.

(** *** On the small machines *)

Lemma executeToolCall_errors_witness :
  (executeToolCall Demo.client Lab.garbled_call Demo.machine).1
    = inr "failed to parse tool arguments: invalid character"
  /\ (executeToolCall Demo.client Lab.garbled_call Demo.machine).2 = Demo.machine.
Proof.
  assert (H : (executeToolCall Demo.client Lab.garbled_call Demo.machine).1
              = inr "failed to parse tool arguments: invalid character") by reflexivity.
  split; [exact H|].
  exact (proj1 (executeToolCall_errors Demo.client Lab.garbled_call Demo.machine _ H)).
Defined.

Lemma executeToolCall_reports_failures_witness :
  executeToolCall Demo.client Lab.unknown_call Demo.machine
    = (inl "Tool execution failed: tool 'nonexistent' not found", Demo.machine).
Proof.
  assert (Hj : json_Unmarshal (World := Demo.Machine)
                 (openai.Arguments (openai.Function Lab.unknown_call)) = inl (Some ∅))
    by (vm_compute; reflexivity).
  destruct (executeToolCall_reports_failures Demo.client Demo.manager Lab.unknown_call
              (Some ∅) Demo.machine eq_refl Hj) as [H _].
  apply H. unfold Demo.manager. rewrite register_all_first. reflexivity.
Defined.

Lemma answer_without_tool_calls_witness :
  exists w1,
    StreamQueryWithTools 1 Demo.client "hello" Lab.answers
      = Some {| outcome := Returned None;
                received := [inl (Demo.stream_of [Demo.response "Hello." []])];
                history := opening "hello"; world := w1 |}.
Proof.
  eexists.
  apply (answer_without_tool_calls 1 Demo.client "hello" Lab.answers);
    [lia|reflexivity|reflexivity|repeat constructor].
Defined.

